(** * notflix-server: the Jellyfin protocol mapping layer

    A shallow embedding of the item mapping, query pipeline, identifier
    dispatch and image resolution code of [jellyfin.go] (package [main], the
    earlier global-state implementation) and [jellyfin/item.go] (package
    [jellyfin], the collaborator-parameterised implementation), with the
    properties the specification states about them.

    Conventions.
    - Go [string] is [string] (a byte sequence); [len] is [String.length].
    - Go [int] is [Z]; where a value comes out of [strconv.Atoi] it lies in
      the 64-bit range by construction.
    - [float32]/[float64] values (ratings, frame rates) are exact rationals
      [Q]; rounding error of the binary formats is outside the model.
    - [time.Time] is an instant, in nanoseconds since the Unix epoch; the
      location, which none of the embedded code reads, is left out.
    - A nil pointer is [None].
    - Code that can panic or that logs runs in the monad [Go]: a computation
      returns a value or panics, and carries the lines [log.Print] and
      [log.Printf] wrote.
    - Functions of the repository that are outside the embedded files, and
      library functions too large to embed, are fields of the classes
      [Externals] and [Jellyfin]. *)

From Stdlib Require Import ZArith QArith Qround String Ascii DecimalString.
From stdpp Require Import base option list gmap strings sorting.

Local Open Scope Z_scope.
Local Open Scope string_scope.

(** ** Go library functions used by the embedded code *)

Module GoStrings.

(** [strings.HasPrefix]. *)
Definition HasPrefix (s pre : string) : bool := String.prefix pre s.

(** [s[n:]] for [n <= len(s)]. *)
Fixpoint string_drop (n : nat) (s : string) : string :=
  match n, s with
  | O, _ => s
  | S n', String _ s' => string_drop n' s'
  | S _, EmptyString => EmptyString
  end.

(** [strings.TrimPrefix]. *)
Definition TrimPrefix (s pre : string) : string :=
  if HasPrefix s pre then string_drop (String.length pre) s else s.

(** [strings.Split(s, sep)] for a separator of one byte, which is the only
    way the embedded code calls it (["_"] and [","]).  The result always has
    at least one element. *)
Fixpoint Split_from (cur : string) (s : string) (sep : ascii) : list string :=
  match s with
  | EmptyString => [cur]
  | String c s' =>
      if Ascii.eqb c sep then cur :: Split_from EmptyString s' sep
      else Split_from (cur +:+ String c EmptyString) s' sep
  end.

Definition Split (s : string) (sep : ascii) : list string :=
  Split_from EmptyString s sep.

(** [strings.Index(s, sep)] for a separator of one byte; [None] is Go's -1. *)
Fixpoint IndexByte (s : string) (sep : ascii) : option nat :=
  match s with
  | EmptyString => None
  | String c s' =>
      if Ascii.eqb c sep then Some O
      else match IndexByte s' sep with
           | Some i => Some (S i)
           | None => None
           end
  end.

(** [strings.Contains]. *)
Fixpoint Contains (s sub : string) : bool :=
  String.prefix sub s ||
  match s with
  | EmptyString => false
  | String _ s' => Contains s' sub
  end.

(** [strings.ToLower] on ASCII letters; bytes outside ['A'..'Z'] are kept.
    (Go also folds non-ASCII letters; no constant the embedded code compares
    a lowered string with is reachable that way except through the letters
    i and k, which is outside the model.) *)
Definition lower_byte (c : ascii) : ascii :=
  let n := nat_of_ascii c in
  if (65 <=? n)%nat && (n <=? 90)%nat then ascii_of_nat (n + 32) else c.

Fixpoint ToLower (s : string) : string :=
  match s with
  | EmptyString => EmptyString
  | String c s' => String (lower_byte c) (ToLower s')
  end.

Definition upper_byte (c : ascii) : ascii :=
  let n := nat_of_ascii c in
  if (97 <=? n)%nat && (n <=? 122)%nat then ascii_of_nat (n - 32) else c.

(** [strings.ToUpper], with the same restriction. *)
Fixpoint ToUpper (s : string) : string :=
  match s with
  | EmptyString => EmptyString
  | String c s' => String (upper_byte c) (ToUpper s')
  end.

(** The byte does not occur in the string. *)
Fixpoint free_of (sep : ascii) (s : string) : bool :=
  match s with
  | EmptyString => true
  | String c s' => negb (Ascii.eqb c sep) && free_of sep s'
  end.

(** Go's [<] on strings: bytewise lexicographic order. *)
Fixpoint string_ltb (s t : string) : bool :=
  match s, t with
  | _, EmptyString => false
  | EmptyString, String _ _ => true
  | String a s', String b t' =>
      if (nat_of_ascii a <? nat_of_ascii b)%nat then true
      else if (nat_of_ascii b <? nat_of_ascii a)%nat then false
      else string_ltb s' t'
  end.

End GoStrings.

Module GoStrconv.

Definition min_int64 : Z := - 2 ^ 63.
Definition max_int64 : Z := 2 ^ 63 - 1.

Definition digit_of (c : ascii) : option Z :=
  let n := nat_of_ascii c in
  if (48 <=? n)%nat && (n <=? 57)%nat then Some (Z.of_nat n - 48) else None.

(** The value of a non-empty run of decimal digits. *)
Fixpoint digits_from (acc : Z) (s : string) : option Z :=
  match s with
  | EmptyString => Some acc
  | String c s' =>
      match digit_of c with
      | Some d => digits_from (acc * 10 + d) s'
      | None => None
      end
  end.

Definition digits (s : string) : option Z :=
  match s with
  | EmptyString => None
  | _ => digits_from 0 s
  end.

(** [strconv.Atoi]: the value and whether [err == nil].  A syntax error
    gives value 0, a range error the nearest 64-bit bound, as [ParseInt]
    does; callers that discard [err] still read the value. *)
Definition Atoi (s : string) : Z * bool :=
  let '(neg, body) :=
    match s with
    | String "-" r => (true, r)
    | String "+" r => (false, r)
    | _ => (false, s)
    end in
  match digits body with
  | None => (0, false)
  | Some n =>
      let v := if neg then - n else n in
      if (v <? min_int64)%Z then (min_int64, false)
      else if (max_int64 <? v)%Z then (max_int64, false)
      else (v, true)
  end.

(** [fmt.Sprintf("%d", n)]. *)
Definition FormatInt (n : Z) : string := NilZero.string_of_int (Z.to_int n).

End GoStrconv.

Import GoStrings GoStrconv.


Module GoMath.

(** [math.Round]: the nearest integer, halves away from zero. *)
Definition Round (x : Q) : Z :=
  if Qle_bool 0 x then Qfloor (x + (1 # 2)) else - Qfloor (- x + (1 # 2)).

(** Conversion to [int64] and 64-bit multiplication wrap around. *)
Definition wrap64 (z : Z) : Z := (z + 2 ^ 63) mod 2 ^ 64 - 2 ^ 63.

End GoMath.

Module GoPath.

(** Drops the trailing slashes of a path. *)
Fixpoint strip_slashes (s : string) : string :=
  match s with
  | EmptyString => EmptyString
  | String c s' =>
      match strip_slashes s' with
      | EmptyString => if Ascii.eqb c "/" then EmptyString else String c EmptyString
      | t => String c t
      end
  end.

(** The part of a path after its last slash. *)
Fixpoint last_element (cur : string) (s : string) : string :=
  match s with
  | EmptyString => cur
  | String c s' =>
      if Ascii.eqb c "/" then last_element EmptyString s'
      else last_element (cur +:+ String c EmptyString) s'
  end.

(** [filepath.Base] on a slash-separated path. *)
Definition Base (path : string) : string :=
  match path with
  | EmptyString => "."
  | _ =>
      match strip_slashes path with
      | EmptyString => "/"
      | p => last_element EmptyString p
      end
  end.

End GoPath.

(** ** Effects: the log and run-time panics

    A computation either returns a value or panics; both carry the lines it
    logged so far. *)

Inductive Go (A : Type) : Type :=
  | Return (a : A) (log : list string)
  | Panic (log : list string).

Arguments Return {A} a log.
Arguments Panic {A} log.

#[global] Instance Go_ret : MRet Go := fun A a => Return a [].

#[global] Instance Go_bind : MBind Go := fun A B f m =>
  match m with
  | Return a l =>
      match f a with
      | Return b l' => Return b (l ++ l')
      | Panic l' => Panic (l ++ l')
      end
  | Panic l => Panic l
  end.

(** [log.Print] and [log.Printf], the line already formatted. *)
Definition log_Print (line : string) : Go unit := Return tt [line].

(** [s[lo:hi]] on a string, which panics unless [lo <= hi <= len(s)]. *)
Definition slice_string (s : string) (lo hi : nat) : Go string :=
  if (lo <=? hi)%nat && (hi <=? String.length s)%nat
  then mret (String.substring lo (hi - lo) s)
  else Panic [].

(** A result with Go's [error]: the value, or the error's message. *)
Inductive Res (A : Type) : Type :=
  | Ok (a : A)
  | Error (msg : string).

Arguments Ok {A} a.
Arguments Error {A} msg.

(** ** Time *)

(** An instant, in nanoseconds since the Unix epoch. *)
Definition Time : Type := Z.

(** [time.Unix(sec, nsec)]. *)
Definition time_Unix (sec nsec : Z) : Time := sec * 1000000000 + nsec.

(** [t.After(u)]. *)
Definition After (t u : Time) : bool := (u <? t)%Z.

(** ** The descriptor (sidecar metadata) of the catalog

    The Nfo declarations are not among the sources; the records list the
    fields the embedded code reads, typed by their uses.  [FileInfo] and
    [StreamDetails] are pointers compared with nil; [Video] and [Audio] are read
    without a nil check. *)

Record NfoVideo : Type := mkNfoVideo {
  v_Codec : string;
  v_Bitrate : Z;
  v_DurationInSeconds : Z;
  v_FrameRate : Q;
  v_Height : Z;
  v_Width : Z
}.

Record NfoAudio : Type := mkNfoAudio {
  a_Language : string;
  a_Bitrate : Z;
  a_Channels : Z;
  a_Codec : string
}.

Record NfoStreamDetails : Type := mkNfoStreamDetails {
  Video : NfoVideo;
  Audio : NfoAudio
}.

Record NfoFileInfo : Type := mkNfoFileInfo {
  StreamDetails : option NfoStreamDetails
}.

Record Nfo : Type := mkNfo {
  Title : string;
  Plot : string;
  Tagline : string;
  Season : string;
  Episode : string;
  Mpaa : string;
  Rating : Q;
  Genre : list string;
  Studio : string;
  Year : Z;
  Premiered : string;
  Aired : string;
  FileInfo : option NfoFileInfo
}.

(** ** Presentation records *)

(** [JFGenreItems]: a genre with its hashed id. *)
Record JFGenreItems : Type := mkJFGenreItems {
  genre_Name : string;
  genre_ID : string
}.

(** [JFStudios]: a studio with its hashed id. *)
Record JFStudios : Type := mkJFStudios {
  studio_Name : string;
  studio_ID : string
}.

(** [JFImageTags]. *)
Record JFImageTags : Type := mkJFImageTags {
  Primary : string
}.

(** [JFMediaStreams]: one video or audio stream of a media source.  Fields a
    composite literal leaves out hold Go's zero value. *)
Record JFMediaStreams : Type := mkJFMediaStreams {
  ms_Index : Z;
  ms_Type : string;
  ms_IsDefault : bool;
  ms_Language : string;
  ms_AverageFrameRate : Q;
  ms_RealFrameRate : Q;
  ms_TimeBase : string;
  ms_Height : Z;
  ms_Width : Z;
  ms_Codec : string;
  ms_CodecTag : string;
  ms_SampleRate : Z;
  ms_AudioSpatialFormat : string;
  ms_LocalizedDefault : string;
  ms_LocalizedExternal : string;
  ms_IsInterlaced : bool;
  ms_IsAVC : bool;
  ms_BitRate : Z;
  ms_Channels : Z;
  ms_Title : string;
  ms_ChannelLayout : string;
  ms_DisplayTitle : string
}.

Definition set_ms_Codec (v : string) (r : JFMediaStreams) : JFMediaStreams :=
    let 'mkJFMediaStreams x0 x1 x2 x3 x4 x5 x6 x7 x8 _ x10 x11 x12 x13 x14 x15
    x16 x17 x18 x19 x20 x21 := r in
    mkJFMediaStreams x0 x1 x2 x3 x4 x5 x6 x7 x8 v x10 x11 x12 x13 x14 x15 x16
    x17 x18 x19 x20 x21.

Definition set_ms_CodecTag (v : string) (r : JFMediaStreams) : JFMediaStreams :=
    let 'mkJFMediaStreams x0 x1 x2 x3 x4 x5 x6 x7 x8 x9 _ x11 x12 x13 x14 x15
    x16 x17 x18 x19 x20 x21 := r in
    mkJFMediaStreams x0 x1 x2 x3 x4 x5 x6 x7 x8 x9 v x11 x12 x13 x14 x15 x16
    x17 x18 x19 x20 x21.

Definition set_ms_BitRate (v : Z) (r : JFMediaStreams) : JFMediaStreams :=
    let 'mkJFMediaStreams x0 x1 x2 x3 x4 x5 x6 x7 x8 x9 x10 x11 x12 x13 x14
    x15 x16 _ x18 x19 x20 x21 := r in
    mkJFMediaStreams x0 x1 x2 x3 x4 x5 x6 x7 x8 x9 x10 x11 x12 x13 x14 x15 x16
    v x18 x19 x20 x21.

Definition set_ms_Channels (v : Z) (r : JFMediaStreams) : JFMediaStreams :=
    let 'mkJFMediaStreams x0 x1 x2 x3 x4 x5 x6 x7 x8 x9 x10 x11 x12 x13 x14
    x15 x16 x17 _ x19 x20 x21 := r in
    mkJFMediaStreams x0 x1 x2 x3 x4 x5 x6 x7 x8 x9 x10 x11 x12 x13 x14 x15 x16
    x17 v x19 x20 x21.

Definition set_ms_Title (v : string) (r : JFMediaStreams) : JFMediaStreams :=
    let 'mkJFMediaStreams x0 x1 x2 x3 x4 x5 x6 x7 x8 x9 x10 x11 x12 x13 x14
    x15 x16 x17 x18 _ x20 x21 := r in
    mkJFMediaStreams x0 x1 x2 x3 x4 x5 x6 x7 x8 x9 x10 x11 x12 x13 x14 x15 x16
    x17 x18 v x20 x21.

Definition set_ms_ChannelLayout (v : string) (r : JFMediaStreams) : JFMediaStreams :=
    let 'mkJFMediaStreams x0 x1 x2 x3 x4 x5 x6 x7 x8 x9 x10 x11 x12 x13 x14
    x15 x16 x17 x18 x19 _ x21 := r in
    mkJFMediaStreams x0 x1 x2 x3 x4 x5 x6 x7 x8 x9 x10 x11 x12 x13 x14 x15 x16
    x17 x18 x19 v x21.

Definition set_ms_DisplayTitle (v : string) (r : JFMediaStreams) : JFMediaStreams :=
    let 'mkJFMediaStreams x0 x1 x2 x3 x4 x5 x6 x7 x8 x9 x10 x11 x12 x13 x14
    x15 x16 x17 x18 x19 x20 _ := r in
    mkJFMediaStreams x0 x1 x2 x3 x4 x5 x6 x7 x8 x9 x10 x11 x12 x13 x14 x15 x16
    x17 x18 x19 x20 v.

(** [JFMediaSources]: the synthesized playable source of a media file. *)
Record JFMediaSources : Type := mkJFMediaSources {
  src_ID : string;
  src_ETag : string;
  src_Name : string;
  src_Path : string;
  src_Type : string;
  src_Container : string;
  src_Protocol : string;
  src_VideoType : string;
  src_Size : Z;
  src_IsRemote : bool;
  src_ReadAtNativeFramerate : bool;
  src_IgnoreDts : bool;
  src_IgnoreIndex : bool;
  src_GenPtsInput : bool;
  src_SupportsTranscoding : bool;
  src_SupportsDirectStream : bool;
  src_SupportsDirectPlay : bool;
  src_IsInfiniteStream : bool;
  src_RequiresOpening : bool;
  src_RequiresClosing : bool;
  src_RequiresLooping : bool;
  src_SupportsProbing : bool;
  src_Formats : list string;
  src_Bitrate : Z;
  src_RunTimeTicks : Z;
  src_MediaStreams : list JFMediaStreams
}.

Definition set_src_Bitrate (v : Z) (r : JFMediaSources) : JFMediaSources :=
    let 'mkJFMediaSources x0 x1 x2 x3 x4 x5 x6 x7 x8 x9 x10 x11 x12 x13 x14
    x15 x16 x17 x18 x19 x20 x21 x22 _ x24 x25 := r in
    mkJFMediaSources x0 x1 x2 x3 x4 x5 x6 x7 x8 x9 x10 x11 x12 x13 x14 x15 x16
    x17 x18 x19 x20 x21 x22 v x24 x25.

Definition set_src_RunTimeTicks (v : Z) (r : JFMediaSources) : JFMediaSources :=
    let 'mkJFMediaSources x0 x1 x2 x3 x4 x5 x6 x7 x8 x9 x10 x11 x12 x13 x14
    x15 x16 x17 x18 x19 x20 x21 x22 x23 _ x25 := r in
    mkJFMediaSources x0 x1 x2 x3 x4 x5 x6 x7 x8 x9 x10 x11 x12 x13 x14 x15 x16
    x17 x18 x19 x20 x21 x22 x23 v x25.

Definition set_src_MediaStreams (v : list JFMediaStreams) (r : JFMediaSources) : JFMediaSources :=
    let 'mkJFMediaSources x0 x1 x2 x3 x4 x5 x6 x7 x8 x9 x10 x11 x12 x13 x14
    x15 x16 x17 x18 x19 x20 x21 x22 x23 x24 _ := r in
    mkJFMediaSources x0 x1 x2 x3 x4 x5 x6 x7 x8 x9 x10 x11 x12 x13 x14 x15 x16
    x17 x18 x19 x20 x21 x22 x23 x24 v.

(** [JFItem]: the presentation record of the wire protocol, with the fields the
    embedded functions read or write.  Its declaration is not among the
    sources; field names and types follow their uses in [jellyfin.go] and
    [jellyfin/item.go]. *)
Record JFItem : Type := mkJFItem {
  ID : string;
  Etag : string;
  ServerID : string;
  Type_ : string;
  Name : string;
  SortName : string;
  Overview : string;
  Taglines : list string;
  SeriesName : string;
  SeriesID : string;
  SeasonName : string;
  ParentIndexNumber : Z;
  IndexNumber : Z;
  OfficialRating : string;
  CommunityRating : Q;
  CriticRating : Q;
  Genres : list string;
  GenreItems : list JFGenreItems;
  Studios : list JFStudios;
  ProductionYear : Z;
  DateCreated : Time;
  PremiereDate : Time;
  LocationType : string;
  Path : string;
  IsFolder : bool;
  MediaType : string;
  VideoType : string;
  Container : string;
  HasSubtitles : bool;
  ImageTags : option JFImageTags;
  MediaSources : list JFMediaSources
}.

Definition set_Name (v : string) (r : JFItem) : JFItem :=
    let 'mkJFItem x0 x1 x2 x3 _ x5 x6 x7 x8 x9 x10 x11 x12 x13 x14 x15 x16 x17
    x18 x19 x20 x21 x22 x23 x24 x25 x26 x27 x28 x29 x30 := r in
    mkJFItem x0 x1 x2 x3 v x5 x6 x7 x8 x9 x10 x11 x12 x13 x14 x15 x16 x17 x18
    x19 x20 x21 x22 x23 x24 x25 x26 x27 x28 x29 x30.

Definition set_SortName (v : string) (r : JFItem) : JFItem :=
    let 'mkJFItem x0 x1 x2 x3 x4 _ x6 x7 x8 x9 x10 x11 x12 x13 x14 x15 x16 x17
    x18 x19 x20 x21 x22 x23 x24 x25 x26 x27 x28 x29 x30 := r in
    mkJFItem x0 x1 x2 x3 x4 v x6 x7 x8 x9 x10 x11 x12 x13 x14 x15 x16 x17 x18
    x19 x20 x21 x22 x23 x24 x25 x26 x27 x28 x29 x30.

Definition set_Overview (v : string) (r : JFItem) : JFItem :=
    let 'mkJFItem x0 x1 x2 x3 x4 x5 _ x7 x8 x9 x10 x11 x12 x13 x14 x15 x16 x17
    x18 x19 x20 x21 x22 x23 x24 x25 x26 x27 x28 x29 x30 := r in
    mkJFItem x0 x1 x2 x3 x4 x5 v x7 x8 x9 x10 x11 x12 x13 x14 x15 x16 x17 x18
    x19 x20 x21 x22 x23 x24 x25 x26 x27 x28 x29 x30.

Definition set_Taglines (v : list string) (r : JFItem) : JFItem :=
    let 'mkJFItem x0 x1 x2 x3 x4 x5 x6 _ x8 x9 x10 x11 x12 x13 x14 x15 x16 x17
    x18 x19 x20 x21 x22 x23 x24 x25 x26 x27 x28 x29 x30 := r in
    mkJFItem x0 x1 x2 x3 x4 x5 x6 v x8 x9 x10 x11 x12 x13 x14 x15 x16 x17 x18
    x19 x20 x21 x22 x23 x24 x25 x26 x27 x28 x29 x30.

Definition set_SeasonName (v : string) (r : JFItem) : JFItem :=
    let 'mkJFItem x0 x1 x2 x3 x4 x5 x6 x7 x8 x9 _ x11 x12 x13 x14 x15 x16 x17
    x18 x19 x20 x21 x22 x23 x24 x25 x26 x27 x28 x29 x30 := r in
    mkJFItem x0 x1 x2 x3 x4 x5 x6 x7 x8 x9 v x11 x12 x13 x14 x15 x16 x17 x18
    x19 x20 x21 x22 x23 x24 x25 x26 x27 x28 x29 x30.

Definition set_ParentIndexNumber (v : Z) (r : JFItem) : JFItem :=
    let 'mkJFItem x0 x1 x2 x3 x4 x5 x6 x7 x8 x9 x10 _ x12 x13 x14 x15 x16 x17
    x18 x19 x20 x21 x22 x23 x24 x25 x26 x27 x28 x29 x30 := r in
    mkJFItem x0 x1 x2 x3 x4 x5 x6 x7 x8 x9 x10 v x12 x13 x14 x15 x16 x17 x18
    x19 x20 x21 x22 x23 x24 x25 x26 x27 x28 x29 x30.

Definition set_IndexNumber (v : Z) (r : JFItem) : JFItem :=
    let 'mkJFItem x0 x1 x2 x3 x4 x5 x6 x7 x8 x9 x10 x11 _ x13 x14 x15 x16 x17
    x18 x19 x20 x21 x22 x23 x24 x25 x26 x27 x28 x29 x30 := r in
    mkJFItem x0 x1 x2 x3 x4 x5 x6 x7 x8 x9 x10 x11 v x13 x14 x15 x16 x17 x18
    x19 x20 x21 x22 x23 x24 x25 x26 x27 x28 x29 x30.

Definition set_OfficialRating (v : string) (r : JFItem) : JFItem :=
    let 'mkJFItem x0 x1 x2 x3 x4 x5 x6 x7 x8 x9 x10 x11 x12 _ x14 x15 x16 x17
    x18 x19 x20 x21 x22 x23 x24 x25 x26 x27 x28 x29 x30 := r in
    mkJFItem x0 x1 x2 x3 x4 x5 x6 x7 x8 x9 x10 x11 x12 v x14 x15 x16 x17 x18
    x19 x20 x21 x22 x23 x24 x25 x26 x27 x28 x29 x30.

Definition set_CommunityRating (v : Q) (r : JFItem) : JFItem :=
    let 'mkJFItem x0 x1 x2 x3 x4 x5 x6 x7 x8 x9 x10 x11 x12 x13 _ x15 x16 x17
    x18 x19 x20 x21 x22 x23 x24 x25 x26 x27 x28 x29 x30 := r in
    mkJFItem x0 x1 x2 x3 x4 x5 x6 x7 x8 x9 x10 x11 x12 x13 v x15 x16 x17 x18
    x19 x20 x21 x22 x23 x24 x25 x26 x27 x28 x29 x30.

Definition set_Genres (v : list string) (r : JFItem) : JFItem :=
    let 'mkJFItem x0 x1 x2 x3 x4 x5 x6 x7 x8 x9 x10 x11 x12 x13 x14 x15 _ x17
    x18 x19 x20 x21 x22 x23 x24 x25 x26 x27 x28 x29 x30 := r in
    mkJFItem x0 x1 x2 x3 x4 x5 x6 x7 x8 x9 x10 x11 x12 x13 x14 x15 v x17 x18
    x19 x20 x21 x22 x23 x24 x25 x26 x27 x28 x29 x30.

Definition set_GenreItems (v : list JFGenreItems) (r : JFItem) : JFItem :=
    let 'mkJFItem x0 x1 x2 x3 x4 x5 x6 x7 x8 x9 x10 x11 x12 x13 x14 x15 x16 _
    x18 x19 x20 x21 x22 x23 x24 x25 x26 x27 x28 x29 x30 := r in
    mkJFItem x0 x1 x2 x3 x4 x5 x6 x7 x8 x9 x10 x11 x12 x13 x14 x15 x16 v x18
    x19 x20 x21 x22 x23 x24 x25 x26 x27 x28 x29 x30.

Definition set_Studios (v : list JFStudios) (r : JFItem) : JFItem :=
    let 'mkJFItem x0 x1 x2 x3 x4 x5 x6 x7 x8 x9 x10 x11 x12 x13 x14 x15 x16
    x17 _ x19 x20 x21 x22 x23 x24 x25 x26 x27 x28 x29 x30 := r in
    mkJFItem x0 x1 x2 x3 x4 x5 x6 x7 x8 x9 x10 x11 x12 x13 x14 x15 x16 x17 v
    x19 x20 x21 x22 x23 x24 x25 x26 x27 x28 x29 x30.

Definition set_ProductionYear (v : Z) (r : JFItem) : JFItem :=
    let 'mkJFItem x0 x1 x2 x3 x4 x5 x6 x7 x8 x9 x10 x11 x12 x13 x14 x15 x16
    x17 x18 _ x20 x21 x22 x23 x24 x25 x26 x27 x28 x29 x30 := r in
    mkJFItem x0 x1 x2 x3 x4 x5 x6 x7 x8 x9 x10 x11 x12 x13 x14 x15 x16 x17 x18
    v x20 x21 x22 x23 x24 x25 x26 x27 x28 x29 x30.

Definition set_PremiereDate (v : Time) (r : JFItem) : JFItem :=
    let 'mkJFItem x0 x1 x2 x3 x4 x5 x6 x7 x8 x9 x10 x11 x12 x13 x14 x15 x16
    x17 x18 x19 x20 _ x22 x23 x24 x25 x26 x27 x28 x29 x30 := r in
    mkJFItem x0 x1 x2 x3 x4 x5 x6 x7 x8 x9 x10 x11 x12 x13 x14 x15 x16 x17 x18
    x19 x20 v x22 x23 x24 x25 x26 x27 x28 x29 x30.

Definition set_MediaSources (v : list JFMediaSources) (r : JFItem) : JFItem :=
    let 'mkJFItem x0 x1 x2 x3 x4 x5 x6 x7 x8 x9 x10 x11 x12 x13 x14 x15 x16
    x17 x18 x19 x20 x21 x22 x23 x24 x25 x26 x27 x28 x29 _ := r in
    mkJFItem x0 x1 x2 x3 x4 x5 x6 x7 x8 x9 x10 x11 x12 x13 x14 x15 x16 x17 x18
    x19 x20 x21 x22 x23 x24 x25 x26 x27 x28 x29 v.

(** [UserItemsResponse]: the envelope of a listing. *)
Record UserItemsResponse : Type := mkUserItemsResponse {
  Items : list JFItem;
  TotalRecordCount : Z;
  StartIndex : Z
}.

(** ** HTTP requests and responses *)

(** [url.Values.Get]: the first value of the key, or the empty string. *)
Definition Get (v : gmap string (list string)) (key : string) : string :=
  match v !! key with
  | Some (x :: _) => x
  | _ => ""
  end.

(** A request: the route variables [mux.Vars(r)] and the query
    [r.URL.Query()]. *)
Record Request : Type := mkRequest {
  Vars : gmap string string;
  Query : gmap string (list string)
}.

(** [mux.Vars(r)[name]]; a missing key reads as the empty string. *)
Definition Var (r : Request) (name : string) : string :=
  default "" (Vars r !! name).

(** [w.Header().Set(key, value)]; header names are case-insensitive and the
    map is keyed by the lowered name. *)
Definition Header_Set (key value : string) (h : gmap string string)
  : gmap string string :=
  <[ToLower key := value]> h.

Definition cache_control (h : gmap string string) : option string :=
  h !! "cache-control".

Definition StatusFound : Z := 302.
Definition StatusForbidden : Z := 403.
Definition StatusNotFound : Z := 404.
Definition StatusInternalServerError : Z := 500.

(** What [serveJSON] encodes. *)
Inductive JSON : Type :=
  | JItem (item : JFItem)
  | JItems (items : list JFItem)
  | JUserItems (response : UserItemsResponse).

(** What a handler leaves on its [http.ResponseWriter].  The header map is the
    one the handler itself filled in before the final call. *)
Inductive Response : Type :=
  | ServedJSON (h : gmap string string) (body : JSON)
  | Redirected (h : gmap string string) (url : string) (code : Z)
  | ServedContent (h : gmap string string) (name : string) (modtime : Time)
  | HttpError (msg : string) (code : Z)
  | NoReply (h : gmap string string)
  | AccessDenied.

(** The header map of a response that serves content, redirects or returns
    silently; [http.Error] and the access check write their own. *)
Definition response_header (r : Response) : option (gmap string string) :=
  match r with
  | ServedJSON h _ | Redirected h _ _ | ServedContent h _ _ | NoReply h => Some h
  | HttpError _ _ | AccessDenied => None
  end.

(** The result of opening a file and calling [Stat] on it. *)
Inductive Opened : Type :=
  | OpenFails
  | StatFails
  | OpenedFile (name : string) (modtime : Time).

(** [serveJSON]. *)
Definition serveJSON (obj : JSON) (h : gmap string string) : Response :=
  ServedJSON (Header_Set "Content-Type" "application/json" h) obj.

(** The body shared by [serveFile] and [serveImage], after the open. *)
Definition serveOpened (h : gmap string string) (f : Opened) : Response :=
  match f with
  | OpenFails => HttpError "File not found" StatusNotFound
  | StatFails => HttpError "Could not retrieve file info" StatusInternalServerError
  | OpenedFile name modtime => ServedContent h name modtime
  end.

(** ** The catalog

    The catalog types belong to the [collection] package, which is not among
    the sources; the records list the fields the embedded code reads. *)

Module collection.

Inductive ItemType : Type := ItemTypeMovie | ItemTypeShow.

Definition ItemType_eqb (a b : ItemType) : bool :=
  match a, b with
  | ItemTypeMovie, ItemTypeMovie | ItemTypeShow, ItemTypeShow => true
  | _, _ => false
  end.

Record Episode : Type := mkEpisode {
  e_Id : string;
  e_Video : string;
  e_Thumb : string;
  e_VideoTS : Z;
  e_Nfo : option Nfo;
  e_NfoPath : string
}.

Record Season : Type := mkSeason {
  s_Id : string;
  s_SeasonNo : Z;
  s_Poster : string;
  s_Episodes : list Episode
}.

Record Item : Type := mkItem {
  i_Id : string;
  i_Name : string;
  i_Type : ItemType;
  i_Year : Z;
  i_Video : string;
  i_Poster : string;
  i_Fanart : string;
  i_Nfo : option Nfo;
  i_NfoPath : string;
  i_Seasons : list Season
}.

Record Collection : Type := mkCollection {
  c_Name_ : string;
  c_Type : string;
  c_SourceId : Z;
  c_Directory : string;
  c_Items : list Item
}.

End collection.

(** A loop over a slice that returns from its first successful iteration. *)
Fixpoint find_map {A B : Type} (f : A -> option B) (l : list A) : option B :=
  match l with
  | [] => None
  | x :: l' =>
      match f x with
      | Some b => Some b
      | None => find_map f l'
      end
  end.

(** ** Collaborators of the mapping code

    Functions of the repository whose files are not among the sources, and
    library functions too large to embed, are taken as parameters. *)

Class Externals : Type := {
  (** [idHash] / [idhash.IdHash]: the stable hash of a string. *)
  idHash : string -> string;
  (** [normalizeGenres]. *)
  normalizeGenres : list string -> list string;
  (** [time.Parse(layout, value)], [None] when it returns an error. *)
  time_Parse : string -> string -> option Time;
  (** [os.Open] of a descriptor file followed by [decodeNfo]; [None] when the
      file cannot be opened or nothing is decoded. *)
  readNfo : string -> option Nfo;
  (** [os.Open] of a media or image file followed by [Stat]. *)
  os_Open : string -> Opened
}.

(** [serveFile], the same in both packages. *)
Definition serveFile `{Externals} (h : gmap string string) (filename : string)
  : Response :=
  serveOpened h (os_Open filename).

(** ** [jellyfin.go], package [main] *)

Module Legacy.
Section WithExternals.
Context `{Externals}.

Definition serverID : string := "2b11644442754f02a0c1e45d2a9f5c71".

Definition itemprefix_collection : string := "collection_".
Definition itemprefix_show : string := "show_".
Definition itemprefix_season : string := "season_".
Definition itemprefix_episode : string := "episode_".

Definition tagprefix_redirect : string := "redirect_".
Definition tagprefix_file : string := "file_".

(** [genCollectionID]. *)
Definition genCollectionID (id : Z) : string :=
  itemprefix_collection +:+ FormatInt id.

(** [getCollectionID]. *)
Definition getCollectionID (input : string) : Res string :=
  if negb (HasPrefix input itemprefix_collection) then Error "not a collectionid"
  else Ok (TrimPrefix input itemprefix_collection).

(** [getEpisodeByID]: four nested loops over the catalog, returning at the
    first episode with the id. *)
Definition getEpisodeByID (Collections : list collection.Collection)
    (episodeId : string)
  : option (collection.Collection * collection.Item
            * collection.Season * collection.Episode) :=
  let episodeId := TrimPrefix episodeId itemprefix_episode in
  find_map (fun c =>
    find_map (fun i =>
      find_map (fun s =>
        find_map (fun e =>
          if String.eqb (collection.e_Id e) episodeId
          then Some (c, i, s, e) else None)
        (collection.s_Episodes s))
      (collection.i_Seasons i))
    (collection.c_Items c))
  Collections.

(** [getSeasonByID]. *)
Definition getSeasonByID (Collections : list collection.Collection)
    (saesonId : string)
  : option (collection.Collection * collection.Item * collection.Season) :=
  let saesonId := TrimPrefix saesonId itemprefix_season in
  find_map (fun c =>
    find_map (fun i =>
      find_map (fun s =>
        if String.eqb (collection.s_Id s) saesonId
        then Some (c, i, s) else None)
      (collection.i_Seasons i))
    (collection.c_Items c))
  Collections.

(** The layouts [parseTime] tries, in order. *)
Definition timeFormats : list string :=
  [ "15:04:05";
    "2006-01-02";
    "2006/01/02";
    "2006-01-02 15:04:05";
    "2006/01/02 15:04:05";
    "02 Jan 2006";
    "02 Jan 2006 15:04:05" ].

(** [parseTime]: the first layout that parses wins; [None] is [err != nil]. *)
Definition parseTime (input : string) : option Time :=
  find_map (fun format => time_Parse format input) timeFormats.

(** [lazyLoadNFO]: the descriptor the pointer holds afterwards. *)
Definition lazyLoadNFO (n : option Nfo) (filename : string) : option Nfo :=
  match n with
  | Some _ => n
  | None => readNfo filename
  end.

Fixpoint zeros (k : nat) : string :=
  match k with
  | O => EmptyString
  | S k' => String "0" (zeros k')
  end.

(** The verb [%0Ns] of [fmt.Sprintf]: left padding with zeros up to the
    width. *)
Definition pad0 (width : nat) (s : string) : string :=
  zeros (width - String.length s) +:+ s.

Definition nonempty (s : string) : bool := negb (String.eqb s "").

(** The blocks of [enrichResponseWithNFO], one definition for each [if]
    statement of its body, in source order. *)

(** [if n.Tagline != "" { response.Taglines = []string{n.Tagline} }]. *)
Definition merge_Tagline (n : Nfo) (response : JFItem) : JFItem :=
  if nonempty (Tagline n) then set_Taglines [Tagline n] response
  else response.

(** [if n.Season != "" { ... }]; the error of [Atoi] is discarded and its
    value stored. *)
Definition merge_Season (n : Nfo) (response : JFItem) : JFItem :=
  if nonempty (Season n) then
    let response := set_SeasonName ("Season " +:+ Season n) response in
    set_ParentIndexNumber (fst (Atoi (Season n))) response
  else response.

(** [if n.Episode != "" { ... }]. *)
Definition merge_Episode (n : Nfo) (response : JFItem) : JFItem :=
  if nonempty (Episode n) then
    set_IndexNumber (fst (Atoi (Episode n))) response
  else response.

(** [if response.ParentIndexNumber != 0 && response.IndexNumber != 0 { ... }],
    with [fmt.Sprintf("%03s - %04s - %s", ...)]. *)
Definition merge_SortName (n : Nfo) (response : JFItem) : JFItem :=
  if negb (ParentIndexNumber response =? 0)%Z
     && negb (IndexNumber response =? 0)%Z
  then set_SortName
         (pad0 3 (Season n) +:+ " - " +:+ pad0 4 (Episode n)
          +:+ " - " +:+ Title n) response
  else response.

(** [if n.Rating != 0 { ... }]. *)
Definition merge_Rating (n : Nfo) (response : JFItem) : JFItem :=
  if negb (Qeq_bool (Rating n) 0) then
    set_CommunityRating
      (inject_Z (GoMath.Round (Rating n * 10)) / 10)%Q response
  else response.

(** [if len(n.Genre) != 0 { ... }]. *)
Definition merge_Genre (n : Nfo) (response : JFItem) : JFItem :=
  if negb (length (Genre n) =? 0)%nat then
    let normalizedGenres := normalizeGenres (Genre n) in
    let response := set_Genres normalizedGenres response in
    fold_left
      (fun response genre =>
         set_GenreItems
           (GenreItems response ++ [mkJFGenreItems genre (idHash genre)])
           response)
      normalizedGenres response
  else response.

(** [if n.Studio != "" { ... }]. *)
Definition merge_Studio (n : Nfo) (response : JFItem) : JFItem :=
  if nonempty (Studio n) then
    set_Studios [mkJFStudios (Studio n) (idHash (Studio n))] response
  else response.

(** [if n.Year != 0 { ... }]. *)
Definition merge_Year (n : Nfo) (response : JFItem) : JFItem :=
  if negb (Year n =? 0)%Z then set_ProductionYear (Year n) response
  else response.

(** [if n.Premiered != "" { ... }] and [if n.Aired != "" { ... }], for the
    date string [date] of either. *)
Definition merge_date (date : string) (response : JFItem) : JFItem :=
  if nonempty date then
    match parseTime date with
    | Some parsedTime => set_PremiereDate parsedTime response
    | None => response
    end
  else response.

(** [enrichResponseWithNFO]. *)
Definition enrichResponseWithNFO (response : JFItem) (n : option Nfo) : JFItem :=
  match n with
  | None => response
  | Some n =>
      let response := set_Name (Title n) response in
      let response := set_Overview (Plot n) response in
      let response := merge_Tagline n response in
      let response := merge_Season n response in
      let response := merge_Episode n response in
      let response := merge_SortName n response in
      let response := set_OfficialRating (Mpaa n) response in
      let response := merge_Rating n response in
      let response := merge_Genre n response in
      let response := merge_Studio n response in
      let response := merge_Year n response in
      let response := merge_date (Premiered n) response in
      let response := merge_date (Aired n) response in
      response
  end.

(** The stream details of a descriptor, when none of [n], [n.FileInfo] and
    [n.FileInfo.StreamDetails] is nil. *)
Definition stream_details (n : option Nfo) : option NfoStreamDetails :=
  match n with
  | None => None
  | Some n =>
      match FileInfo n with
      | None => None
      | Some fi => StreamDetails fi
      end
  end.

(** [buildMediaSource]. *)
Definition buildMediaSource (filename : string) (n : option Nfo)
  : Go (list JFMediaSources) :=
  let basename := GoPath.Base filename in
  let mediasource :=
    {| src_ID := idHash filename;
       src_ETag := idHash filename;
       src_Name := basename;
       src_Path := basename;
       src_Type := "Default";
       src_Container := "mp4";
       src_Protocol := "File";
       src_VideoType := "VideoFile";
       src_Size := 4264940672;
       src_IsRemote := false;
       src_ReadAtNativeFramerate := false;
       src_IgnoreDts := false;
       src_IgnoreIndex := false;
       src_GenPtsInput := false;
       src_SupportsTranscoding := true;
       src_SupportsDirectStream := true;
       src_SupportsDirectPlay := true;
       src_IsInfiniteStream := false;
       src_RequiresOpening := false;
       src_RequiresClosing := false;
       src_RequiresLooping := false;
       src_SupportsProbing := true;
       src_Formats := [];
       src_Bitrate := 0;
       src_RunTimeTicks := 0;
       src_MediaStreams := [] |} in
  match stream_details n with
  | None => mret [mediasource]
  | Some details =>
      let NfoVideo := Video details in
      let mediasource := set_src_Bitrate (v_Bitrate NfoVideo) mediasource in
      let mediasource :=
        set_src_RunTimeTicks
          (GoMath.wrap64 (GoMath.wrap64 (v_DurationInSeconds NfoVideo) * 10000000))
          mediasource in
      language ← slice_string (a_Language (Audio details)) 0 3;
      let videostream :=
        {| ms_Index := 0;
           ms_Type := "Video";
           ms_IsDefault := true;
           ms_Language := language;
           ms_AverageFrameRate :=
             (inject_Z (GoMath.Round (v_FrameRate NfoVideo * 100)) / 100)%Q;
           ms_RealFrameRate :=
             (inject_Z (GoMath.Round (v_FrameRate NfoVideo * 100)) / 100)%Q;
           ms_TimeBase := "1/16000";
           ms_Height := v_Height NfoVideo;
           ms_Width := v_Width NfoVideo;
           ms_Codec := v_Codec NfoVideo;
           ms_CodecTag := "";
           ms_SampleRate := 0;
           ms_AudioSpatialFormat := "";
           ms_LocalizedDefault := "";
           ms_LocalizedExternal := "";
           ms_IsInterlaced := false;
           ms_IsAVC := false;
           ms_BitRate := 0;
           ms_Channels := 0;
           ms_Title := "";
           ms_ChannelLayout := "";
           ms_DisplayTitle := "" |} in
      videostream ←
        (let codec := ToLower (v_Codec NfoVideo) in
         if String.eqb codec "x264" || String.eqb codec "h264" then
           mret (set_ms_CodecTag "avc1" (set_ms_Codec "h264" videostream))
         else if String.eqb codec "hevc" then
           mret (set_ms_CodecTag "hvc1" (set_ms_Codec "hevc" videostream))
         else
           _ ← log_Print ("Nfo of " +:+ filename +:+ " has unknown video codec "
                          +:+ v_Codec NfoVideo);
           mret videostream);
      let mediasource :=
        set_src_MediaStreams (src_MediaStreams mediasource ++ [videostream])
          mediasource in
      let audiostream :=
        {| ms_Index := 1;
           ms_Type := "Audio";
           ms_IsDefault := true;
           ms_Language := language;
           ms_AverageFrameRate := 0;
           ms_RealFrameRate := 0;
           ms_TimeBase := "1/48000";
           ms_Height := 0;
           ms_Width := 0;
           ms_Codec := "";
           ms_CodecTag := "";
           ms_SampleRate := 48000;
           ms_AudioSpatialFormat := "None";
           ms_LocalizedDefault := "Default";
           ms_LocalizedExternal := "External";
           ms_IsInterlaced := false;
           ms_IsAVC := false;
           ms_BitRate := 0;
           ms_Channels := 0;
           ms_Title := "";
           ms_ChannelLayout := "";
           ms_DisplayTitle := "" |} in
      let NfoAudio := Audio details in
      let audiostream := set_ms_BitRate (a_Bitrate NfoAudio) audiostream in
      let audiostream := set_ms_Channels (a_Channels NfoAudio) audiostream in
      audiostream ←
        (if (a_Channels NfoAudio =? 2)%Z then
           mret (set_ms_ChannelLayout "stereo" (set_ms_Title "Stereo" audiostream))
         else if (a_Channels NfoAudio =? 6)%Z then
           mret (set_ms_ChannelLayout "5.1" (set_ms_Title "5.1 Channel" audiostream))
         else
           _ ← log_Print ("Nfo of " +:+ filename
                          +:+ " has unknown audio channel configuration "
                          +:+ FormatInt (a_Channels NfoAudio));
           mret audiostream);
      audiostream ←
        (let codec := ToLower (a_Codec NfoAudio) in
         if String.eqb codec "ac3" then
           mret (set_ms_CodecTag "ac-3" (set_ms_Codec "ac3" audiostream))
         else if String.eqb codec "aac" then
           mret (set_ms_CodecTag "mp4a" (set_ms_Codec "aac" audiostream))
         else
           _ ← log_Print ("Nfo of " +:+ filename +:+ " has unknown audio codec "
                          +:+ a_Codec NfoAudio);
           mret audiostream);
      let audiostream :=
        set_ms_DisplayTitle
          (ms_Title audiostream +:+ " - " +:+ ToUpper (ms_Codec audiostream))
          audiostream in
      let mediasource :=
        set_src_MediaStreams (src_MediaStreams mediasource ++ [audiostream])
          mediasource in
      mret [mediasource]
  end.

(** [buildJFItemEpisode].  [Collections] is the global [config.Collections].
    The descriptors [lazyLoadNFO] stores through its pointer argument are
    the local [show_Nfo] and [episode_Nfo]. *)
Definition buildJFItemEpisode (Collections : list collection.Collection)
    (episodeid : string) : Go (Res JFItem) :=
  match getEpisodeByID Collections episodeid with
  | None => mret (Error "could not find episode")
  | Some (_, show, _, episode) =>
      let response :=
        {| ID := episodeid;
           Etag := idHash episodeid;
           ServerID := serverID;
           Type_ := "Episode";
           Name := "";
           SortName := "";
           Overview := "";
           Taglines := [];
           SeriesName := collection.i_Name show;
           SeriesID := idHash (collection.i_Name show);
           SeasonName := "";
           ParentIndexNumber := 0;
           IndexNumber := 0;
           OfficialRating := "";
           CommunityRating := 0;
           CriticRating := 0;
           Genres := [];
           GenreItems := [];
           Studios := [];
           ProductionYear := 0;
           DateCreated := time_Unix (collection.e_VideoTS episode ÷ 1000) 0;
           PremiereDate := time_Unix (collection.e_VideoTS episode ÷ 1000) 0;
           LocationType := "FileSystem";
           Path := "episode.mp4";
           IsFolder := false;
           MediaType := "Video";
           VideoType := "VideoFile";
           Container := "mov,mp4,m4a";
           HasSubtitles := true;
           ImageTags := Some (mkJFImageTags "episode");
           MediaSources := [] |} in
      let show_Nfo :=
        lazyLoadNFO (collection.i_Nfo show) (collection.i_NfoPath show) in
      let response :=
        match show_Nfo with
        | Some _ => enrichResponseWithNFO response show_Nfo
        | None => response
        end in
      let response := set_OfficialRating "" response in
      let response := set_CommunityRating 0 response in
      let episode_Nfo :=
        lazyLoadNFO (collection.e_Nfo episode) (collection.e_NfoPath episode) in
      let response :=
        match episode_Nfo with
        | Some _ => enrichResponseWithNFO response episode_Nfo
        | None => response
        end in
      mediasources ← buildMediaSource (collection.e_Video episode) episode_Nfo;
      mret (Ok (set_MediaSources mediasources response))
  end.

(** [usersItemHandler] of [jellyfin.go].  The builders of collections,
    seasons and plain items, and the lookup [getItemByID], call [getCollection],
    [getItem] and [time.Now], which are outside the sources; the handler takes
    them as arguments. *)
Definition usersItemHandler
    (Collections : list collection.Collection)
    (buildJFItemCollection buildJFItemSeason : string -> Res JFItem)
    (getItemByID : string -> option (collection.Collection * collection.Item))
    (buildJFItem : collection.Collection -> collection.Item -> bool -> JFItem)
    (r : Request) : Go Response :=
  let itemId := Var r "item" in
  let splitted := Split itemId "_" in
  if (length splitted =? 2)%nat then
    let token := hd "" splitted in
    if String.eqb token "collection" then
      match buildJFItemCollection itemId with
      | Error _ => mret (HttpError "Could not find collection" StatusNotFound)
      | Ok collectionItem => mret (serveJSON (JItem collectionItem) ∅)
      end
    else if String.eqb token "season" then
      match buildJFItemSeason itemId with
      | Error _ => mret (HttpError "Could not find season" StatusNotFound)
      | Ok seasonItem => mret (serveJSON (JItem seasonItem) ∅)
      end
    else if String.eqb token "episode" then
      built ← buildJFItemEpisode Collections itemId;
      match built with
      | Error _ => mret (HttpError "Could not find episode" StatusNotFound)
      | Ok episodeItem => mret (serveJSON (JItem episodeItem) ∅)
      end
    else
      _ ← log_Print "Item request for unknown prefix!";
      mret (HttpError "Unknown item prefix" StatusInternalServerError)
  else
    match getItemByID itemId with
    | None => mret (HttpError "Item not found" StatusNotFound)
    | Some (c, i) => mret (serveJSON (JItem (buildJFItem c i false)) ∅)
    end.

End WithExternals.
End Legacy.

(** ** Stable sorting of a slice

    [sort.SliceStable(x, less)] of Go's library.  [less i j] reads the slice
    through its indices and, being a closure over the slice, may also write to
    it; it takes the slice and returns it with the answer.  The library sorts
    blocks of 20 elements by the insertion sort below and merges the blocks:
    on a slice of at most 20 elements this insertion sort is all it runs, and
    on a longer slice its result is the same whenever [less] has no effect and
    is a strict weak order, a stable sort being determined by its order. *)

Section SliceStable.
Context {A : Type}.
Variable less : nat -> nat -> list A -> Go (bool * list A).

(** [data.Swap(i, j)]. *)
Definition swap (i j : nat) (data : list A) : list A :=
  match data !! i, data !! j with
  | Some x, Some y => <[j := x]> (<[i := y]> data)
  | _, _ => data
  end.

(** [for j := i; j > a && less(j, j-1); j-- { swap(j, j-1) }]. *)
Fixpoint insertion_inner (a j : nat) (data : list A) : Go (list A) :=
  match j with
  | O => mret data
  | S j' =>
      if (a <? j)%nat then
        '(lt, data) ← less j j' data;
        if lt : bool then insertion_inner a j' (swap j j' data) else mret data
      else mret data
  end.

(** [for i := ...; i < b; i++], with [count] iterations left. *)
Fixpoint insertion_outer (a i count : nat) (data : list A) : Go (list A) :=
  match count with
  | O => mret data
  | S count' =>
      data ← insertion_inner a i data;
      insertion_outer a (S i) count' data
  end.

(** [insertionSort(data, a, b)]. *)
Definition insertionSort (a b : nat) (data : list A) : Go (list A) :=
  insertion_outer a (a + 1) (b - (a + 1)) data.

Definition SliceStable (data : list A) : Go (list A) :=
  insertionSort 0 (length data) data.

End SliceStable.

(** ** [jellyfin/item.go], package [jellyfin] *)

(** The access token details of an authenticated caller. *)
Record AccessTokenDetails : Type := mkAccessTokenDetails {
  UserID : string
}.

(** The [Jellyfin] receiver: its collection repository [j.collections], its
    settings, and the methods of the package that are outside the sources. *)
Class Jellyfin : Type := {
  GetCollections : list collection.Collection;
  GetCollection : string -> option collection.Collection;
  GetItemByID : string -> option (collection.Collection * collection.Item);
  GetSeasonByID :
    string -> option (collection.Collection * collection.Item * collection.Season);
  GetEpisodeByID :
    string -> option (collection.Collection * collection.Item
                      * collection.Season * collection.Episode);
  (** [getAccessTokenDetails]; on [None] it has written the response. *)
  getAccessTokenDetails : Request -> option AccessTokenDetails;
  makeJItemCollection : string -> Res JFItem;
  makeJFItemCollectionPlaylist : string -> Res JFItem;
  makeJFItemSeason : string -> string -> Res JFItem;
  makeJFItemEpisode : string -> string -> Res JFItem;
  makeJFItemPlaylist : string -> string -> Res JFItem;
  (** Its response type is outside the sources; a listing envelope is what
      the handler encodes. *)
  makeJFItemPlaylistOverview : string -> UserItemsResponse;
  makeJFItem : string -> collection.Item -> string -> string -> bool -> JFItem;
  imageQualityPoster : Z;
  (** [j.imageresizer.OpenFile] followed by [Stat]. *)
  imageresizer_OpenFile : Request -> string -> Z -> Opened
}.

Module JF.
Section WithReceiver.
Context `{Externals} `{Jellyfin}.

(** The constants of package [jellyfin] are declared outside the sources.
    These have the values of the constants of the same names in [jellyfin.go],
    with which the literals of [item.go] agree (the separator ["_"], the
    tokens ["season"] and ["episode"], the id [collection_1]). *)
Definition itemprefix_separator : ascii := "_".
Definition itemprefix_collection : string := "collection_".
Definition itemprefix_season : string := "season_".
Definition itemprefix_episode : string := "episode_".
Definition tagprefix_redirect : string := "redirect_".
Definition tagprefix_file : string := "file_".

(** Modelled from the spec: the prefix of the collection-playlist kind, a
    constant of package [jellyfin] declared outside the sources.  The spec
    encodes an id as type prefix, separator, internal id; the switch of
    [usersItemHandler] compares the prefix with the first of exactly two
    parts of the id followed by the separator, so the type prefix holds no
    separator of its own. *)
Definition itemprefix_collection_playlist : string := "collectionplaylist_".

(** Modelled from the spec: the prefix of the playlist kind, likewise. *)
Definition itemprefix_playlist : string := "playlist_".

(** The id kinds that carry a type prefix. *)
Inductive Prefix : Type :=
  | PCollection | PCollectionPlaylist | PSeason | PEpisode | PPlaylist.

Definition prefix_string (p : Prefix) : string :=
  match p with
  | PCollection => itemprefix_collection
  | PCollectionPlaylist => itemprefix_collection_playlist
  | PSeason => itemprefix_season
  | PEpisode => itemprefix_episode
  | PPlaylist => itemprefix_playlist
  end.

(** Encoding, as [genCollectionID], [itemprefix_season+s.Id] and
    [itemprefix_episode + e.Id] write it. *)
Definition encode (p : Prefix) (id : string) : string :=
  prefix_string p +:+ id.

(** [genCollectionID]. *)
Definition genCollectionID (id : Z) : string :=
  itemprefix_collection +:+ FormatInt id.

(** [trimPrefix]. *)
Definition trimPrefix (s : string) : string :=
  match IndexByte s itemprefix_separator with
  | Some i => string_drop (i + 1) s
  | None => s
  end.

(** The branch the switch of [usersItemHandler] takes. *)
Inductive Branch : Type :=
  | Prefixed (p : Prefix)
  | UnknownPrefix
  | PlainItem.

(** The switch of [usersItemHandler] on the first part of the id, the
    separator put back. *)
Definition branch_of_token (token : string) : Branch :=
  if String.eqb token itemprefix_collection then Prefixed PCollection
  else if String.eqb token itemprefix_collection_playlist then
    Prefixed PCollectionPlaylist
  else if String.eqb token itemprefix_season then Prefixed PSeason
  else if String.eqb token itemprefix_episode then Prefixed PEpisode
  else if String.eqb token itemprefix_playlist then Prefixed PPlaylist
  else UnknownPrefix.

(** The split of the id in [usersItemHandler]: the switch is entered only
    when there are exactly two parts. *)
Definition dispatch (itemId : string) : Branch :=
  let splitted := Split itemId itemprefix_separator in
  if (length splitted =? 2)%nat then
    branch_of_token (hd "" splitted +:+ "_")
  else PlainItem.

(** The first part of an id with the prefix: the prefix without its final
    separator. *)
Definition token_of (p : Prefix) : string :=
  match p with
  | PCollection => "collection"
  | PCollectionPlaylist => "collectionplaylist"
  | PSeason => "season"
  | PEpisode => "episode"
  | PPlaylist => "playlist"
  end.

(** Decoding: the branch taken and the internal id [trimPrefix] hands to the
    lookup, for an id the switch recognises. *)
Definition decode (itemId : string) : option (Prefix * string) :=
  match dispatch itemId with
  | Prefixed p => Some (p, trimPrefix itemId)
  | _ => None
  end.

(** The reply to a builder's result. *)
Definition reply (built : Res JFItem) (notfound : string) : Response :=
  match built with
  | Error _ => HttpError notfound StatusNotFound
  | Ok item => serveJSON (JItem item) ∅
  end.

(** [usersItemHandler]. *)
Definition usersItemHandler (r : Request) : Go Response :=
  match getAccessTokenDetails r with
  | None => mret AccessDenied
  | Some accessTokenDetails =>
      let itemId := Var r "item" in
      match dispatch itemId with
      | Prefixed PCollection =>
          mret (reply (makeJItemCollection itemId) "Could not find collection")
      | Prefixed PCollectionPlaylist =>
          mret (reply (makeJFItemCollectionPlaylist (UserID accessTokenDetails))
                  "Could not find playlist collection")
      | Prefixed PSeason =>
          mret (reply (makeJFItemSeason (UserID accessTokenDetails) itemId)
                  "Could not find season")
      | Prefixed PEpisode =>
          mret (reply (makeJFItemEpisode (UserID accessTokenDetails) itemId)
                  "Could not find episode")
      | Prefixed PPlaylist =>
          mret (reply (makeJFItemPlaylist (UserID accessTokenDetails) itemId)
                  "Could not find playlist")
      | UnknownPrefix =>
          _ ← log_Print "Item request for unknown prefix!";
          mret (HttpError "Unknown item prefix" StatusInternalServerError)
      | PlainItem =>
          match GetItemByID itemId with
          | None => mret (HttpError "Item not found" StatusNotFound)
          | Some (c, i) =>
              mret (serveJSON
                      (JItem (makeJFItem (UserID accessTokenDetails) i
                                (idHash (collection.c_Name_ c))
                                (collection.c_Type c) false)) ∅)
          end
      end
  end.

(** [strconv.ParseInt(s, 10, 64)], which [Atoi] is on a 64-bit platform. *)
Definition ParseInt (s : string) : Z * bool := Atoi s.

(** [applyItemFilter]. *)
Definition applyItemFilter (i : collection.Item)
    (queryparams : gmap string (list string)) : bool :=
  let includeItemTypes := Get queryparams "includeItemTypes" in
  let keepType :=
    if String.eqb includeItemTypes "" then true
    else
      existsb
        (fun includeType =>
           (String.eqb includeType "Movie"
            && collection.ItemType_eqb (collection.i_Type i) collection.ItemTypeMovie)
           || (String.eqb includeType "Series"
               && collection.ItemType_eqb (collection.i_Type i) collection.ItemTypeShow))
        (Split includeItemTypes ",") in
  if negb keepType then false
  else
    let filterYears := Get queryparams "years" in
    let keepYear :=
      if String.eqb filterYears "" then true
      else
        existsb
          (fun year =>
             let '(intYear, ok) := ParseInt year in
             ok && (collection.i_Year i =? intYear)%Z)
          (Split filterYears ",") in
    if negb keepYear then false else true.

(** Whether a lowered sort key names the sort name. *)
Definition is_sortname_key (field : string) : bool :=
  String.eqb field "default" || String.eqb field "seriessortname"
  || String.eqb field "sortname".

(** The comparison closure of [applyItemSorting]: the loop over the sort
    fields for [less(i, j)].  Each iteration first gives [items[i]] its name as
    sort name when it has none, writing to the slice. *)
Fixpoint sorting_less (sortBy : string) (sortDescending : bool)
    (sortFields : list string) (i j : nat) (items : list JFItem)
  : Go (bool * list JFItem) :=
  match sortFields with
  | [] => mret (false, items)
  | field :: sortFields' =>
      match items !! i with
      | None => Panic []
      | Some x =>
          let items :=
            if String.eqb (SortName x) ""
            then <[i := set_SortName (Name x) x]> items else items in
          match items !! i, items !! j with
          | Some xi, Some xj =>
              let key := ToLower field in
              if is_sortname_key key then
                if negb (String.eqb (SortName xi) (SortName xj)) then
                  if sortDescending
                  then mret (string_ltb (SortName xj) (SortName xi), items)
                  else mret (string_ltb (SortName xi) (SortName xj), items)
                else sorting_less sortBy sortDescending sortFields' i j items
              else if String.eqb key "productionyear" then
                if negb (ProductionYear xi =? ProductionYear xj)%Z then
                  if sortDescending
                  then mret ((ProductionYear xj <? ProductionYear xi)%Z, items)
                  else mret ((ProductionYear xi <? ProductionYear xj)%Z, items)
                else sorting_less sortBy sortDescending sortFields' i j items
              else if String.eqb key "criticrating" then
                if negb (Qeq_bool (CriticRating xi) (CriticRating xj)) then
                  if sortDescending
                  then mret (negb (Qle_bool (CriticRating xi) (CriticRating xj)),
                             items)
                  else mret (negb (Qle_bool (CriticRating xj) (CriticRating xi)),
                             items)
                else sorting_less sortBy sortDescending sortFields' i j items
              else
                _ ← log_Print ("applyItemSorting: unknown sortorder " +:+ sortBy);
                sorting_less sortBy sortDescending sortFields' i j items
          | _, _ => Panic []
          end
      end
  end.

(** [applyItemSorting]. *)
Definition applyItemSorting (items : list JFItem)
    (queryparams : gmap string (list string)) : Go (list JFItem) :=
  let sortBy := Get queryparams "sortBy" in
  if String.eqb sortBy "" then mret items
  else
    let sortFields := Split sortBy "," in
    let sortOrder := Get queryparams "sortOrder" in
    let sortDescending := String.eqb sortOrder "Descending" in
    SliceStable (sorting_less sortBy sortDescending sortFields) items.

(** [applyItemPaginating]. *)
Definition applyItemPaginating (items : list JFItem)
    (queryparams : gmap string (list string)) : list JFItem :=
  let '(startIndex, startIndexOk) := Atoi (Get queryparams "startIndex") in
  let items :=
    if startIndexOk && (0 <=? startIndex)%Z
       && (startIndex <? Z.of_nat (length items))%Z
    then drop (Z.to_nat startIndex) items else items in
  let '(limit, limitOk) := Atoi (Get queryparams "limit") in
  let items :=
    if limitOk && (0 <? limit)%Z && (limit <? Z.of_nat (length items))%Z
    then take (Z.to_nat limit) items else items in
  items.

(** The collection a [parentId] parameter names, [nil] when there is none. *)
Definition search_collection (searchCollection : string)
  : option collection.Collection :=
  if String.eqb searchCollection "" then None
  else GetCollection (TrimPrefix searchCollection itemprefix_collection).

(** The loop over collections and items that fills [items] in
    [usersItemsHandler] and [searchHintsHandler].  [usersItemsLatestHandler]
    runs the same loop without the test on the search term, which is the loop
    with an empty term. *)
Definition matching_items (userID searchTerm : string)
    (searchC : option collection.Collection)
    (queryparams : gmap string (list string)) : list JFItem :=
  flat_map
    (fun c =>
       if match searchC with
          | Some sc =>
              negb (collection.c_SourceId sc =? collection.c_SourceId c)%Z
          | None => false
          end
       then []
       else
         flat_map
           (fun i =>
              if String.eqb searchTerm ""
                 || Contains (ToLower (collection.i_Name i)) (ToLower searchTerm)
              then
                if applyItemFilter i queryparams
                then [makeJFItem userID i (idHash (collection.c_Name_ c))
                        (collection.c_Type c) true]
                else []
              else [])
           (collection.c_Items c))
    GetCollections.

(** [usersItemsHandler]. *)
Definition usersItemsHandler (r : Request) : Go Response :=
  match getAccessTokenDetails r with
  | None => mret AccessDenied
  | Some accessTokenDetails =>
      let queryparams := Query r in
      let searchTerm := Get queryparams "searchTerm" in
      let searchCollection := Get queryparams "parentId" in
      if HasPrefix searchCollection itemprefix_collection_playlist then
        mret (serveJSON
                (JUserItems
                   (makeJFItemPlaylistOverview (UserID accessTokenDetails))) ∅)
      else
        let searchC := search_collection searchCollection in
        let items :=
          matching_items (UserID accessTokenDetails) searchTerm searchC
            queryparams in
        let totalItemCount := Z.of_nat (length items) in
        items ← applyItemSorting items queryparams;
        let response :=
          {| Items := applyItemPaginating items queryparams;
             TotalRecordCount := totalItemCount;
             StartIndex := 0 |} in
        mret (serveJSON (JUserItems response) ∅)
  end.

(** The comparison closure of [usersItemsLatestHandler]. *)
Definition latest_less (i j : nat) (items : list JFItem)
  : Go (bool * list JFItem) :=
  match items !! i, items !! j with
  | Some xi, Some xj => mret (After (PremiereDate xi) (PremiereDate xj), items)
  | _, _ => Panic []
  end.

(** [usersItemsLatestHandler]. *)
Definition usersItemsLatestHandler (r : Request) : Go Response :=
  match getAccessTokenDetails r with
  | None => mret AccessDenied
  | Some accessTokenDetails =>
      let queryparams := Query r in
      let searchCollection := Get queryparams "parentId" in
      let searchC := search_collection searchCollection in
      let items :=
        matching_items (UserID accessTokenDetails) "" searchC queryparams in
      items ← SliceStable latest_less items;
      let items := applyItemPaginating items queryparams in
      mret (serveJSON (JItems items) ∅)
  end.

(** [serveImage]. *)
Definition serveImage (r : Request) (h : gmap string string)
    (filename : string) (imageQuality : Z) : Response :=
  serveOpened h (imageresizer_OpenFile r filename imageQuality).

Definition long_lived : string := "max-age=2592000".

(** [itemsImagesHandler]. *)
Definition itemsImagesHandler (r : Request) : Go Response :=
  let queryparams := Query r in
  let tag := Get queryparams "tag" in
  if HasPrefix tag tagprefix_redirect then
    mret (Redirected (Header_Set "cache-control" long_lived ∅)
            (TrimPrefix tag tagprefix_redirect) StatusFound)
  else if HasPrefix tag tagprefix_file then
    mret (serveFile (Header_Set "cache-control" long_lived ∅)
            (TrimPrefix tag tagprefix_file))
  else
    let itemId := Var r "item" in
    let imageType := Var r "type" in
    let splitted := Split itemId "_" in
    if (length splitted =? 2)%nat then
      let token := hd "" splitted in
      if String.eqb token "season" then
        match GetSeasonByID (trimPrefix itemId) with
        | None => mret (HttpError "Could not find season" StatusNotFound)
        | Some (c, item, season) =>
            if String.eqb imageType "Primary" then
              mret (serveImage r (Header_Set "cache-control" long_lived ∅)
                      (collection.c_Directory c +:+ "/" +:+ collection.i_Name item
                       +:+ "/" +:+ collection.s_Poster season)
                      imageQualityPoster)
            else
              _ ← log_Print ("Image request " +:+ itemId +:+ ", unknown type "
                             +:+ imageType);
              mret (NoReply ∅)
        end
      else if String.eqb token "episode" then
        match GetEpisodeByID (trimPrefix itemId) with
        | None =>
            mret (HttpError "Item not found (could not find episode)"
                    StatusNotFound)
        | Some (c, item, _, episode) =>
            mret (serveFile ∅
                    (collection.c_Directory c +:+ "/" +:+ collection.i_Name item
                     +:+ "/" +:+ collection.e_Thumb episode))
        end
      else
        _ ← log_Print ("Image request for unknown prefix " +:+ itemId +:+ "!");
        mret (HttpError "Unknown image item prefix" StatusInternalServerError)
    else
      match GetItemByID itemId with
      | None => mret (HttpError "Item not found" StatusNotFound)
      | Some (c, i) =>
          if String.eqb imageType "Primary" then
            mret (serveImage r (Header_Set "cache-control" long_lived ∅)
                    (collection.c_Directory c +:+ "/" +:+ collection.i_Name i
                     +:+ "/" +:+ collection.i_Poster i)
                    imageQualityPoster)
          else if String.eqb imageType "Backdrop" then
            mret (serveFile (Header_Set "cache-control" long_lived ∅)
                    (collection.c_Directory c +:+ "/" +:+ collection.i_Name i
                     +:+ "/" +:+ collection.i_Fanart i))
          else
            _ ← log_Print ("Unknown image type requested: " +:+ imageType);
            mret (HttpError "Item image not found" StatusNotFound)
      end.

End WithReceiver.
End JF.

(** ** Pagination in the words of the specification

    An optional integer start index, applied only if [0 <= start < length];
    then an optional integer limit, applied only if [0 < limit < remaining
    length]. *)

Definition paginate_spec {A : Type} (start limit : option Z) (l : list A)
  : list A :=
  let l1 :=
    match start with
    | Some s =>
        if (0 <=? s)%Z && (s <? Z.of_nat (length l))%Z
        then drop (Z.to_nat s) l else l
    | None => l
    end in
  match limit with
  | Some n =>
      if (0 <? n)%Z && (n <? Z.of_nat (length l1))%Z
      then take (Z.to_nat n) l1 else l1
  | None => l1
  end.

(** The integer a query parameter holds, when it is well-formed. *)
Definition query_int (s : string) : option Z :=
  let '(v, ok) := Atoi s in if ok : bool then Some v else None.

(** Insertion of [x] into a list kept in reverse order, moving past the
    elements [x] is less than: what one pass of the inner loop of the
    insertion sort does when [less] has no effect. *)
Fixpoint insert_back {A : Type} (lt : A -> A -> bool) (x : A) (rp : list A)
  : list A :=
  match rp with
  | [] => [x]
  | y :: rp' => if lt x y then y :: insert_back lt x rp' else x :: rp
  end.

(** The stable insertion sort of a list by [lt]. *)
Definition stable_sort {A : Type} (lt : A -> A -> bool) (l : list A) : list A :=
  reverse (fold_left (fun rp x => insert_back lt x rp) l []).

(** Descending order by an integer key: [x] comes before [y] when its key is
    greater. *)
Definition key_gt {A : Type} (key : A -> Z) (x y : A) : bool :=
  (key y <? key x)%Z.

(** The order of the latest-items listing: [x] premiered after [y]. *)
Definition more_recent (x y : JFItem) : bool :=
  After (PremiereDate x) (PremiereDate y).

(** The codec and codec tag of the video stream of a synthesized source. *)
Definition video_codec (m : Go (list JFMediaSources)) : option (string * string) :=
  match m with
  | Return [source] _ =>
      match src_MediaStreams source with
      | video :: _ => Some (ms_Codec video, ms_CodecTag video)
      | [] => None
      end
  | _ => None
  end.

(** The age rating and the community rating of a built episode record. *)
Definition episode_ratings (m : Go (Res JFItem)) : option (string * Q) :=
  match m with
  | Return (Ok item) _ => Some (OfficialRating item, CommunityRating item)
  | _ => None
  end.

(** ** The merge of a descriptor, field by field *)

Section MergedFields.
Context `{Externals}.
Import Legacy.

(** The season and episode numbers after the merge. *)
Definition merged_season (response : JFItem) (n : Nfo) : Z :=
  if nonempty (Season n) then fst (Atoi (Season n))
  else ParentIndexNumber response.

Definition merged_episode (response : JFItem) (n : Nfo) : Z :=
  if nonempty (Episode n) then fst (Atoi (Episode n))
  else IndexNumber response.

(** The premiere date after the merge: the aired date when it parses, else
    the premiered date when it parses, else the date in the record. *)
Definition merged_premiere (response : JFItem) (n : Nfo) : Time :=
  let after_premiered :=
    if nonempty (Premiered n) then
      match parseTime (Premiered n) with
      | Some t => t
      | None => PremiereDate response
      end
    else PremiereDate response in
  if nonempty (Aired n) then
    match parseTime (Aired n) with
    | Some t => t
    | None => after_premiered
    end
  else after_premiered.

End MergedFields.

(** Whether a request for an image, without a redirect or file tag, names an
    episode: the [case "episode"] of [itemsImagesHandler]. *)
Definition episode_image_request (r : Request) : bool :=
  negb (HasPrefix (Get (Query r) "tag") JF.tagprefix_redirect)
  && negb (HasPrefix (Get (Query r) "tag") JF.tagprefix_file)
  && (length (Split (Var r "item") "_") =? 2)%nat
  && String.eqb (hd "" (Split (Var r "item") "_")) "episode".

(** ** A small catalog for the examples *)

Module Sample.

(** Stand-ins for the collaborators: a hash that tags its input, no genre
    folding, no parsable date, no descriptor files on disk, and a file
    system on which every file opens. *)
#[export] Instance externals : Externals := {|
  idHash := fun s => "#" +:+ s;
  normalizeGenres := fun l => l;
  time_Parse := fun _ _ => None;
  readNfo := fun _ => None;
  os_Open := fun name => OpenedFile name 0
|}.

Definition nfo (title mpaa : string) (rating : Q) (details : option NfoStreamDetails)
  : Nfo :=
  {| Title := title; Plot := ""; Tagline := ""; Season := ""; Episode := "";
     Mpaa := mpaa; Rating := rating; Genre := []; Studio := ""; Year := 0;
     Premiered := ""; Aired := "";
     FileInfo :=
       match details with
       | Some d => Some (mkNfoFileInfo (Some d))
       | None => None
       end |}.

Definition details (codec language : string) : NfoStreamDetails :=
  {| Video := {| v_Codec := codec; v_Bitrate := 4000; v_DurationInSeconds := 60;
                 v_FrameRate := 25; v_Height := 720; v_Width := 1280 |};
     Audio := {| a_Language := language; a_Bitrate := 192; a_Channels := 2;
                 a_Codec := "aac" |} |}.

Definition movie (id name : string) (year : Z) : collection.Item :=
  {| collection.i_Id := id; collection.i_Name := name;
     collection.i_Type := collection.ItemTypeMovie; collection.i_Year := year;
     collection.i_Video := name +:+ ".mp4"; collection.i_Poster := "poster.jpg";
     collection.i_Fanart := "fanart.jpg"; collection.i_Nfo := None;
     collection.i_NfoPath := ""; collection.i_Seasons := [] |}.

Definition pilot : collection.Episode :=
  {| collection.e_Id := "e1"; collection.e_Video := "s01e01.mp4";
     collection.e_Thumb := "s01e01.jpg"; collection.e_VideoTS := 1700000000000;
     collection.e_Nfo :=
     Some (nfo "Pilot" "TV-14" (17 # 2) (Some (details "x264" "eng")));
     collection.e_NfoPath := "s01e01.nfo" |}.

Definition season1 : collection.Season :=
  {| collection.s_Id := "s1"; collection.s_SeasonNo := 1;
     collection.s_Poster := "season01.jpg"; collection.s_Episodes := [pilot] |}.

Definition show : collection.Item :=
  {| collection.i_Id := "show1"; collection.i_Name := "Show";
     collection.i_Type := collection.ItemTypeShow; collection.i_Year := 2010;
     collection.i_Video := ""; collection.i_Poster := "poster.jpg";
     collection.i_Fanart := "fanart.jpg";
     collection.i_Nfo := Some (nfo "Show" "TV-MA" (9 # 1) None);
     collection.i_NfoPath := "tvshow.nfo"; collection.i_Seasons := [season1] |}.

Definition movies : collection.Collection :=
  {| collection.c_Name_ := "Movies"; collection.c_Type := "movies";
     collection.c_SourceId := 1; collection.c_Directory := "/media/movies";
     collection.c_Items :=
       [ movie "m0" "Kilo" 1990; movie "m1" "Alpha" 1991; movie "m2" "Juliet" 1992;
         movie "m3" "Bravo" 1993; movie "m4" "India" 1994; movie "m5" "Charlie" 1995;
         movie "m6" "Hotel" 1996; movie "m7" "Delta" 1997; movie "m8" "Golf" 1998;
         movie "m9" "Echo" 1999 ] |}.

Definition shows : collection.Collection :=
  {| collection.c_Name_ := "Shows"; collection.c_Type := "shows";
     collection.c_SourceId := 2; collection.c_Directory := "/media/shows";
     collection.c_Items := [show] |}.

Definition catalog : list collection.Collection := [movies; shows].

(** A presentation record with the given name, sort name, year and date, the
    other fields zero. *)
Definition item (id name sortName : string) (year : Z) (premiere : Time) : JFItem :=
  {| ID := id; Etag := ""; ServerID := ""; Type_ := ""; Name := name;
     SortName := sortName; Overview := ""; Taglines := []; SeriesName := "";
     SeriesID := ""; SeasonName := ""; ParentIndexNumber := 0; IndexNumber := 0;
     OfficialRating := ""; CommunityRating := 0; CriticRating := 0; Genres := [];
     GenreItems := []; Studios := []; ProductionYear := year;
     DateCreated := premiere; PremiereDate := premiere; LocationType := "";
     Path := ""; IsFolder := false; MediaType := ""; VideoType := "";
     Container := ""; HasSubtitles := false; ImageTags := None;
     MediaSources := [] |}.

(** A receiver over [catalog] that accepts every caller.  Its [makeJFItem]
    copies id, name and year, leaves the sort name empty and dates the item
    by its year; the other builders find nothing. *)
#[export] Instance receiver : Jellyfin := {|
  GetCollections := catalog;
  GetCollection := fun id =>
    find_map (fun c =>
      if String.eqb (FormatInt (collection.c_SourceId c)) id then Some c else None)
      catalog;
  GetItemByID := fun id =>
    find_map (fun c =>
      find_map (fun i =>
        if String.eqb (collection.i_Id i) id then Some (c, i) else None)
        (collection.c_Items c))
      catalog;
  GetSeasonByID := Legacy.getSeasonByID catalog;
  GetEpisodeByID := Legacy.getEpisodeByID catalog;
  getAccessTokenDetails := fun _ => Some (mkAccessTokenDetails "user");
  makeJItemCollection := fun _ => Error "collection not found";
  makeJFItemCollectionPlaylist := fun _ => Error "not found";
  makeJFItemSeason := fun _ _ => Error "could not find season";
  makeJFItemEpisode := fun _ _ => Error "could not find episode";
  makeJFItemPlaylist := fun _ _ => Error "not found";
  makeJFItemPlaylistOverview := fun _ => mkUserItemsResponse [] 0 0;
  makeJFItem := fun _ i _ _ _ =>
    item (collection.i_Id i) (collection.i_Name i) "" (collection.i_Year i)
      (collection.i_Year i);
  imageQualityPoster := 80;
  imageresizer_OpenFile := fun _ name _ => OpenedFile name 0
|}.

Definition request (vars : list (string * string))
    (query : list (string * string)) : Request :=
  {| Vars := list_to_map vars;
     Query := list_to_map (List.map (fun '(k, v) => (k, [v])) query) |}.

(** The two items of the sort example of the specification. *)
Definition A : JFItem := item "A" "Alpha" "" 2000 0.
Definition B : JFItem := item "B" "Alpha" "" 1999 0.

End Sample.


From Stdlib Require Import Lqa.

(** ** Further definitions *)


(** ** More sample data for the examples *)

Module MoreSamples.

(** A descriptor with a title and genres only. *)
Definition genre_nfo (genres : list string) : Nfo :=
  {| Title := "t"; Plot := ""; Tagline := ""; Season := ""; Episode := "";
     Mpaa := ""; Rating := 0; Genre := genres; Studio := ""; Year := 0;
     Premiered := ""; Aired := ""; FileInfo := None |}.

(** A descriptor with a title and season and episode strings only. *)
Definition season_nfo (season episode : string) : Nfo :=
  {| Title := "t"; Plot := ""; Tagline := ""; Season := season;
     Episode := episode; Mpaa := ""; Rating := 0; Genre := []; Studio := "";
     Year := 0; Premiered := ""; Aired := ""; FileInfo := None |}.

End MoreSamples.

(** ** The order of the sort stage

    The comparison of [applyItemSorting] on two records, without the write
    of the fallback sort name: key by key, the first key on which the two
    differ decides, an unknown key is passed over. *)
Fixpoint fields_lt (sortDescending : bool) (sortFields : list string)
    (x y : JFItem) : bool :=
  match sortFields with
  | [] => false
  | field :: sortFields' =>
      let key := ToLower field in
      if JF.is_sortname_key key then
        if negb (String.eqb (SortName x) (SortName y)) then
          if sortDescending then string_ltb (SortName y) (SortName x)
          else string_ltb (SortName x) (SortName y)
        else fields_lt sortDescending sortFields' x y
      else if String.eqb key "productionyear" then
        if negb (ProductionYear x =? ProductionYear y)%Z then
          if sortDescending then (ProductionYear y <? ProductionYear x)%Z
          else (ProductionYear x <? ProductionYear y)%Z
        else fields_lt sortDescending sortFields' x y
      else if String.eqb key "criticrating" then
        if negb (Qeq_bool (CriticRating x) (CriticRating y)) then
          if sortDescending
          then negb (Qle_bool (CriticRating x) (CriticRating y))
          else negb (Qle_bool (CriticRating y) (CriticRating x))
        else fields_lt sortDescending sortFields' x y
      else fields_lt sortDescending sortFields' x y
  end.

(** Whether a sort key is one [applyItemSorting] knows. *)
Definition known_sort_key (field : string) : bool :=
  JF.is_sortname_key (ToLower field)
  || String.eqb (ToLower field) "productionyear"
  || String.eqb (ToLower field) "criticrating".


(** A comparison by one key, passing on to the comparison [rest] when the
    key does not tell the two apart: the shape of each case of the switch in
    the comparison of [applyItemSorting]. *)
Definition key_then_rest {A : Type} (ne lt rest : A -> A -> bool) (x y : A)
  : bool :=
  if ne x y then lt x y else rest x y.

(** ** More handlers of [jellyfin.go], package [main] *)

Module LegacyHandlers.
Section WithExternals.
Context `{Externals}.
Import Legacy.

(** [Collections] is the global [config.Collections]; [getItemByID] calls
    [getItem], which is outside the sources, and is an argument as in
    [usersItemHandler]. *)
Variable Collections : list collection.Collection.
Variable getItemByID :
  string -> option (collection.Collection * collection.Item).

(** The inner loop of [showsEpisodesHandler], over the episodes of one
    season, appending to [episodes]. *)
Fixpoint episodes_loop (es : list collection.Episode) (episodes : list JFItem)
  : Go (list JFItem) :=
  match es with
  | [] => mret episodes
  | e :: es' =>
      let episodeId := itemprefix_episode +:+ collection.e_Id e in
      built ← buildJFItemEpisode Collections episodeId;
      match built with
      | Error err =>
          _ ← log_Print ("buildJFItemEpisode returned error " +:+ err);
          episodes_loop es' episodes
      | Ok episode => episodes_loop es' (episodes ++ [episode])
      end
  end.

(** The outer loop of [showsEpisodesHandler], over the seasons of the show. *)
Fixpoint seasons_loop (RequestedSeasonId : string)
    (ss : list collection.Season) (episodes : list JFItem)
  : Go (list JFItem) :=
  match ss with
  | [] => mret episodes
  | s :: ss' =>
      if negb (String.eqb RequestedSeasonId "")
         && negb (String.eqb (itemprefix_season +:+ collection.s_Id s)
                    RequestedSeasonId)
      then seasons_loop RequestedSeasonId ss' episodes
      else
        episodes ← episodes_loop (collection.s_Episodes s) episodes;
        seasons_loop RequestedSeasonId ss' episodes
  end.

(** [showsEpisodesHandler]. *)
Definition showsEpisodesHandler (r : Request) : Go Response :=
  match getItemByID (Var r "show") with
  | None => mret (HttpError "Show not found" StatusNotFound)
  | Some (_, i) =>
      let RequestedSeasonId := Get (Query r) "SeasonId" in
      episodes ← seasons_loop RequestedSeasonId (collection.i_Seasons i) [];
      let response :=
        {| Items := episodes;
           TotalRecordCount := Z.of_nat (length episodes);
           StartIndex := 0 |} in
      mret (serveJSON (JUserItems response) ∅)
  end.

(** [videoStreamHandler]. *)
Definition videoStreamHandler (r : Request) : Response :=
  let itemId := Var r "item" in
  if HasPrefix itemId itemprefix_episode then
    match getEpisodeByID Collections itemId with
    | None => HttpError "Could not find episode" StatusNotFound
    | Some (c, item, _, episode) =>
        serveFile ∅
          (collection.c_Directory c +:+ "/" +:+ collection.i_Name item
           +:+ "/" +:+ collection.e_Video episode)
    end
  else
    match getItemByID (Var r "item") with
    | None => HttpError "Item not found" StatusNotFound
    | Some (c, i) =>
        if String.eqb (collection.i_Video i) "" then
          HttpError "Item not found" StatusNotFound
        else
          serveFile ∅
            (collection.c_Directory c +:+ "/" +:+ collection.i_Name i
             +:+ "/" +:+ collection.i_Video i)
    end.

End WithExternals.
End LegacyHandlers.

(** ** More handlers of [jellyfin/item.go], package [jellyfin] *)

Module JFHandlers.
Section WithReceiver.
Context `{Externals} `{Jellyfin}.
Import JF.

(** The loop of [showsSeasonsHandler] over the seasons of the show. *)
Fixpoint seasons_loop (userID : string) (ss : list collection.Season)
    (seasons : list JFItem) : Go (list JFItem) :=
  match ss with
  | [] => mret seasons
  | s :: ss' =>
      match makeJFItemSeason userID (collection.s_Id s) with
      | Error err =>
          _ ← log_Print ("buildJFItemSeason returned error " +:+ err);
          seasons_loop userID ss' seasons
      | Ok season => seasons_loop userID ss' (seasons ++ [season])
      end
  end.

(** [showsSeasonsHandler]. *)
Definition showsSeasonsHandler (r : Request) : Go Response :=
  match getAccessTokenDetails r with
  | None => mret AccessDenied
  | Some accessTokenDetails =>
      let showId := Var r "show" in
      match GetItemByID showId with
      | None => mret (HttpError "Show not found" StatusNotFound)
      | Some (_, i) =>
          seasons ← seasons_loop (UserID accessTokenDetails)
                      (collection.i_Seasons i) [];
          let response :=
            {| Items := seasons;
               TotalRecordCount := Z.of_nat (length seasons);
               StartIndex := 0 |} in
          mret (serveJSON (JUserItems response) ∅)
      end
  end.

(** The inner loop of [showsEpisodesHandler], over the episodes of one
    season. *)
Fixpoint episodes_loop (userID : string) (es : list collection.Episode)
    (episodes : list JFItem) : Go (list JFItem) :=
  match es with
  | [] => mret episodes
  | e :: es' =>
      let episodeId := itemprefix_episode +:+ collection.e_Id e in
      match makeJFItemEpisode userID episodeId with
      | Error err =>
          _ ← log_Print ("buildJFItemEpisode returned error " +:+ err);
          episodes_loop userID es' episodes
      | Ok episode => episodes_loop userID es' (episodes ++ [episode])
      end
  end.

(** The outer loop of [showsEpisodesHandler], over the seasons of the show. *)
Fixpoint episode_seasons_loop (userID RequestedSeasonId : string)
    (ss : list collection.Season) (episodes : list JFItem)
  : Go (list JFItem) :=
  match ss with
  | [] => mret episodes
  | s :: ss' =>
      if negb (String.eqb RequestedSeasonId "")
         && negb (String.eqb (itemprefix_season +:+ collection.s_Id s)
                    RequestedSeasonId)
      then episode_seasons_loop userID RequestedSeasonId ss' episodes
      else
        episodes ← episodes_loop userID (collection.s_Episodes s) episodes;
        episode_seasons_loop userID RequestedSeasonId ss' episodes
  end.

(** [showsEpisodesHandler]. *)
Definition showsEpisodesHandler (r : Request) : Go Response :=
  match getAccessTokenDetails r with
  | None => mret AccessDenied
  | Some accessTokenDetails =>
      match GetItemByID (Var r "show") with
      | None => mret (HttpError "Show not found" StatusNotFound)
      | Some (_, i) =>
          let RequestedSeasonId := Get (Query r) "seasonId" in
          episodes ← episode_seasons_loop (UserID accessTokenDetails)
                       RequestedSeasonId (collection.i_Seasons i) [];
          let response :=
            {| Items := episodes;
               TotalRecordCount := Z.of_nat (length episodes);
               StartIndex := 0 |} in
          mret (serveJSON (JUserItems response) ∅)
      end
  end.

(** [videoStreamHandler]. *)
Definition videoStreamHandler (r : Request) : Response :=
  let itemId := Var r "item" in
  if HasPrefix itemId itemprefix_episode then
    match GetEpisodeByID (trimPrefix itemId) with
    | None => HttpError "Could not find episode" StatusNotFound
    | Some (c, item, _, episode) =>
        serveFile ∅
          (collection.c_Directory c +:+ "/" +:+ collection.i_Name item
           +:+ "/" +:+ collection.e_Video episode)
    end
  else
    match GetItemByID (Var r "item") with
    | None => HttpError "Item not found" StatusNotFound
    | Some (c, i) =>
        if String.eqb (collection.i_Video i) "" then
          HttpError "Item not found" StatusNotFound
        else
          serveFile ∅
            (collection.c_Directory c +:+ "/" +:+ collection.i_Name i
             +:+ "/" +:+ collection.i_Video i)
    end.

End WithReceiver.
End JFHandlers.

(** The episodes [showsEpisodesHandler] visits: those of every season when
    no season is asked for, else those of the seasons whose prefixed id is the
    one asked for. *)
Definition selected_episodes (prefix RequestedSeasonId : string)
    (ss : list collection.Season) : list collection.Episode :=
  flat_map
    (fun s =>
       if negb (String.eqb RequestedSeasonId "")
          && negb (String.eqb (prefix +:+ collection.s_Id s) RequestedSeasonId)
       then [] else collection.s_Episodes s)
    ss.

(** Every episode of a catalog. *)
Definition all_episodes (Collections : list collection.Collection)
  : list collection.Episode :=
  flat_map
    (fun c =>
       flat_map
         (fun i => flat_map collection.s_Episodes (collection.i_Seasons i))
         (collection.c_Items c))
    Collections.

(** Whether the media source of an episode can be synthesized: its
    descriptor, loaded when need be, has no stream details or an audio
    language of at least three bytes. *)
Definition streams_sliceable `{Externals} (e : collection.Episode) : bool :=
  match Legacy.stream_details
          (Legacy.lazyLoadNFO (collection.e_Nfo e) (collection.e_NfoPath e)) with
  | Some details => (3 <=? String.length (a_Language (Audio details)))%nat
  | None => true
  end.

(** ** [dir.go], package [collection]: lazily loaded directory entries *)

Module collection_dir.

(** What [os.Stat] reports of a file. *)
Record OsFileInfo : Type := mkOsFileInfo {
  st_Size : Z;
  st_Mode : Z;
  st_ModTime : Time;
  st_IsDir : bool
}.

(** What [times.Stat] reports of a file. *)
Record Timespec : Type := mkTimespec {
  ts_ChangeTime : Time;
  ts_ModTime : Time
}.

(** The file system as one call finds it: [os.Stat] and [times.Stat] by
    path, [None] when they return an error. *)
Record FileSystem : Type := mkFileSystem {
  os_Stat : string -> option OsFileInfo;
  times_Stat : string -> option Timespec
}.

(** [Dir]; its open file is used by [Close], [Stat] and [Readdirnames]
    only. *)
Record Dir : Type := mkDir {
  d_name : string
}.

(** [FileInfo]; [dir] is a pointer, nil in the zero value. *)
Record FileInfo : Type := mkFileInfo {
  dir : option Dir;
  name : string;
  size : Z;
  mode : Z;
  modtime : Time;
  createtime : Time;
  isdir : bool;
  didstat : bool
}.

(** The zero [time.Time]: January 1 of year 1, UTC. *)
Definition zero_Time : Time := time_Unix (-62135596800) 0.

(** The zero [FileInfo] with [dir] and [name] assigned, as the loop of
    [Readdir] leaves each entry. *)
Definition entry (d : Dir) (n : string) : FileInfo :=
  {| dir := Some d; name := n; size := 0; mode := 0; modtime := zero_Time;
     createtime := zero_Time; isdir := false; didstat := false |}.

(** [Readdir], on what [dir.Readdirnames(n)] returned: the names and the
    error, if any. *)
Definition Readdir (d : Dir) (readdirnames : list string * option string)
  : list FileInfo * option string :=
  let '(names, err) := readdirnames in
  match err with
  | Some _ => ([], err)
  | None => (List.map (entry d) names, None)
  end.

Section WithPath.

(** [path.Join] of two elements. *)
Variable path_Join : string -> string -> string.

(** [stat]; the receiver is a pointer, the updated record is returned.
    Reading [fi.dir.name] through a nil [dir] panics. *)
Definition stat (fs : FileSystem) (fi : FileInfo) : Go FileInfo :=
  if didstat fi then mret fi
  else
    match dir fi with
    | None => Panic []
    | Some d =>
        let p := path_Join (d_name d) (name fi) in
        match os_Stat fs p with
        | None => mret fi
        | Some s =>
            let fi :=
              {| dir := dir fi; name := name fi; size := st_Size s;
                 mode := st_Mode s; modtime := st_ModTime s;
                 createtime := createtime fi; isdir := st_IsDir s;
                 didstat := didstat fi |} in
            match times_Stat fs p with
            | None => mret fi
            | Some fileTimestamp =>
                mret {| dir := dir fi; name := name fi; size := size fi;
                        mode := mode fi;
                        modtime := ts_ModTime fileTimestamp;
                        createtime := ts_ChangeTime fileTimestamp;
                        isdir := isdir fi; didstat := true |}
            end
        end
    end.

(** [Name]. *)
Definition Name (fi : FileInfo) : string := name fi.

(** [Size]. *)
Definition Size (fs : FileSystem) (fi : FileInfo) : Go (Z * FileInfo) :=
  fi ← stat fs fi; mret (size fi, fi).

(** [Mode]. *)
Definition Mode (fs : FileSystem) (fi : FileInfo) : Go (Z * FileInfo) :=
  fi ← stat fs fi; mret (mode fi, fi).

(** [Modtime]. *)
Definition Modtime (fs : FileSystem) (fi : FileInfo) : Go (Time * FileInfo) :=
  fi ← stat fs fi; mret (modtime fi, fi).

(** [Createtime]. *)
Definition Createtime (fs : FileSystem) (fi : FileInfo)
  : Go (Time * FileInfo) :=
  fi ← stat fs fi; mret (createtime fi, fi).

(** [CreatetimeMS]; [UnixNano] is the instant in nanoseconds as an int64,
    the division truncates. *)
Definition CreatetimeMS (fs : FileSystem) (fi : FileInfo) : Go (Z * FileInfo) :=
  fi ← stat fs fi; mret (GoMath.wrap64 (createtime fi) ÷ 1000000, fi).

(** [IsDir]. *)
Definition IsDir (fs : FileSystem) (fi : FileInfo) : Go (bool * FileInfo) :=
  fi ← stat fs fi; mret (isdir fi, fi).

(** [stat] called once for each of the file-system states in turn, as
    successive accessor calls do. *)
Fixpoint stats (fss : list FileSystem) (fi : FileInfo) : Go FileInfo :=
  match fss with
  | [] => mret fi
  | fs :: fss' => fi ← stat fs fi; stats fss' fi
  end.

End WithPath.
End collection_dir.

(** Sample data for the directory entries: a file system that knows one
    file, and one that knows it to [os.Stat] only. *)
Module DirSamples.
Import collection_dir.

Definition join (a b : string) : string := a +:+ "/" +:+ b.

Definition media : Dir := {| d_name := "/media" |}.

Definition whole : FileSystem :=
  {| os_Stat := fun p =>
       if String.eqb p "/media/a.mp4" then Some (mkOsFileInfo 42 420 7 false)
       else None;
     times_Stat := fun p =>
       if String.eqb p "/media/a.mp4" then Some (mkTimespec 5 9) else None |}.

Definition half : FileSystem :=
  {| os_Stat := fun p =>
       if String.eqb p "/media/a.mp4" then Some (mkOsFileInfo 41 420 6 false)
       else None;
     times_Stat := fun _ => None |}.

End DirSamples.
(** * Properties *)

#[local] Arguments String.append !_ _ / : simpl nomatch.

Local Open Scope list_scope.

(** ** Go library functions on examples *)

Example Split_two : Split "season_abc" "_" = ["season"; "abc"].
Proof. reflexivity. Qed.

Example Split_three : Split "season_a_b" "_" = ["season"; "a"; "b"].
Proof. reflexivity. Qed.

Example Split_none : Split "rVFG3EzPthk2wowNkqUl" "_" = ["rVFG3EzPthk2wowNkqUl"].
Proof. reflexivity. Qed.

Example Split_empty : Split "" "," = [""].
Proof. reflexivity. Qed.

Example Atoi_plain : Atoi "5" = (5, true).
Proof. reflexivity. Qed.

Example Atoi_signed : Atoi "-12" = (-12, true).
Proof. reflexivity. Qed.

Example Atoi_empty : Atoi "" = (0, false).
Proof. reflexivity. Qed.

Example Atoi_malformed : Atoi "3x" = (0, false).
Proof. reflexivity. Qed.

Example Atoi_range : Atoi "99999999999999999999" = (9223372036854775807, false).
Proof. reflexivity. Qed.

Example FormatInt_neg : FormatInt (-42) = "-42".
Proof. reflexivity. Qed.

Example Base_path : GoPath.Base "/media/shows/Show/s01e01.mp4" = "s01e01.mp4".
Proof. reflexivity. Qed.

Example Round_half : GoMath.Round (5 # 2) = 3 /\ GoMath.Round (- (5 # 2)) = -3.
Proof. split; reflexivity. Qed.

(** ** Splitting *)

Section SplitFacts.
Variable sep : ascii.

Lemma append_cons_assoc (cur : string) (c : ascii) (s : string) :
  (cur +:+ String c EmptyString) +:+ s = cur +:+ String c s.
Proof. induction cur as [|a cur IH]; simpl; [reflexivity | now rewrite IH]. Qed.

Lemma append_empty_r (s : string) : s +:+ EmptyString = s.
Proof. induction s as [|a s IH]; simpl; [reflexivity | now rewrite IH]. Qed.

(** A string without the separator is a single piece. *)
Lemma Split_from_free (s cur : string) :
  free_of sep s = true -> Split_from cur s sep = [cur +:+ s].
Proof.
  revert cur. induction s as [|c s IH]; intros cur Hfree; simpl in *.
  - now rewrite append_empty_r.
  - destruct (Ascii.eqb c sep); simpl in Hfree; [discriminate|].
    rewrite IH by assumption. now rewrite append_cons_assoc.
Qed.

(** The first separator ends the first piece. *)
Lemma Split_from_token (tok rest cur : string) :
  free_of sep tok = true ->
  Split_from cur (tok +:+ String sep rest) sep
  = (cur +:+ tok) :: Split_from EmptyString rest sep.
Proof.
  revert cur. induction tok as [|c tok IH]; intros cur Hfree; simpl in *.
  - rewrite Ascii.eqb_refl. now rewrite append_empty_r.
  - destruct (Ascii.eqb c sep); simpl in Hfree; [discriminate|].
    rewrite IH by assumption. now rewrite append_cons_assoc.
Qed.

(** An id with exactly one separator splits in two. *)
Lemma Split_one_separator (tok rest : string) :
  free_of sep tok = true -> free_of sep rest = true ->
  Split (tok +:+ String sep rest) sep = [tok; rest].
Proof.
  intros Htok Hrest. unfold Split.
  rewrite Split_from_token by assumption.
  now rewrite Split_from_free by assumption.
Qed.

(** Every separator adds a piece. *)
Lemma Split_from_length (s cur : string) :
  length (Split_from cur s sep)
  = S (length (filter (fun c => Ascii.eqb c sep = true) (list_ascii_of_string s))).
Proof.
  revert cur. induction s as [|c s IH]; intros cur; simpl; [reflexivity|].
  rewrite filter_cons. destruct (Ascii.eqb c sep) eqn:E.
  - rewrite decide_True by reflexivity. simpl. now rewrite IH.
  - rewrite decide_False by discriminate. apply IH.
Qed.

Lemma IndexByte_token (tok rest : string) :
  free_of sep tok = true ->
  IndexByte (tok +:+ String sep rest) sep = Some (String.length tok).
Proof.
  induction tok as [|c tok IH]; intros Hfree; simpl in *.
  - now rewrite Ascii.eqb_refl.
  - destruct (Ascii.eqb c sep); simpl in Hfree; [discriminate|].
    now rewrite IH.
Qed.

Lemma string_drop_app (tok rest : string) :
  string_drop (String.length tok) (tok +:+ rest) = rest.
Proof. induction tok as [|c tok IH]; simpl; [now destruct rest | exact IH]. Qed.

End SplitFacts.

(** The decimal form of an integer holds digits and a sign only. *)
Lemma string_of_uint_free (d : Decimal.uint) :
  free_of "_" (NilZero.string_of_uint d) = true.
Proof.
  destruct d as [|d|d|d|d|d|d|d|d|d|d]; [reflexivity|..];
    simpl; induction d; simpl; auto.
Qed.

Lemma FormatInt_free (n : Z) : free_of "_" (FormatInt n) = true.
Proof.
  unfold FormatInt, NilZero.string_of_int.
  destruct (Z.to_int n); simpl; apply string_of_uint_free.
Qed.

(** ** Identifier codec *)

Section Codec.
Import JF.

Lemma dispatch_one_separator (tok rest : string) :
  free_of "_" tok = true -> free_of "_" rest = true ->
  dispatch (tok +:+ String "_" rest) = branch_of_token (tok +:+ "_").
Proof.
  intros Htok Hrest. unfold dispatch, itemprefix_separator.
  now rewrite Split_one_separator by assumption.
Qed.

Lemma trimPrefix_one_separator (tok rest : string) :
  free_of "_" tok = true -> trimPrefix (tok +:+ String "_" rest) = rest.
Proof.
  intros Htok. unfold trimPrefix, itemprefix_separator.
  rewrite IndexByte_token by assumption.
  replace (String.length tok + 1)%nat with (String.length (tok +:+ "_")).
  - rewrite <- (append_cons_assoc tok "_" rest). apply string_drop_app.
  - clear. induction tok as [|c tok IH]; simpl; [reflexivity | now rewrite IH].
Qed.

Lemma encode_token (p : Prefix) (id : string) :
  encode p id = token_of p +:+ String "_" id.
Proof. now destruct p. Qed.

Lemma decode_encode_free (p : Prefix) (id : string) :
  free_of "_" id = true -> decode (encode p id) = Some (p, id).
Proof.
  intros Hfree. unfold decode. rewrite encode_token.
  rewrite dispatch_one_separator by (assumption || now destruct p).
  rewrite trimPrefix_one_separator by now destruct p.
  now destruct p.
Qed.

(** A collection id made by [genCollectionID] always decodes to the
    collection kind and the decimal source id. *)
Lemma decode_genCollectionID (id : Z) :
  decode (genCollectionID id) = Some (PCollection, FormatInt id).
Proof. apply (decode_encode_free PCollection), FormatInt_free. Qed.




End Codec.

(** ** Dispatch of a single-item request *)

Lemma append_sep_inj (s t : string) : s +:+ "_" = t +:+ "_" -> s = t.
Proof.
  revert t. induction s as [|a s IH]; intros [|b t] Heq; simpl in Heq.
  - reflexivity.
  - destruct t; simpl in Heq; discriminate.
  - destruct s; simpl in Heq; discriminate.
  - injection Heq as -> Heq. f_equal. now apply IH.
Qed.


Section Dispatch.
Context `{Externals} `{Jellyfin}.


End Dispatch.

Section DispatchExamples.
Import Sample.



End DispatchExamples.

(** ** Media source synthesizer *)

Section MediaSource.
Context `{Externals}.
Import Legacy.

Lemma slice_string_ok (s : string) :
  (3 <= String.length s)%nat ->
  slice_string s 0 3 = Return (String.substring 0 3 s) [].
Proof.
  intros Hlen. unfold slice_string.
  destruct (Nat.leb_spec 3 (String.length s)); [reflexivity | lia].
Qed.

Lemma slice_string_short (s : string) :
  (String.length s < 3)%nat -> slice_string s 0 3 = Panic [].
Proof.
  intros Hlen. unfold slice_string.
  destruct (Nat.leb_spec 3 (String.length s)); [lia | reflexivity].
Qed.

(** Without stream details the bare source is returned and nothing is
    logged. *)
Lemma buildMediaSource_bare (filename : string) (n : option Nfo) :
  stream_details n = None ->
  exists source,
    buildMediaSource filename n = Return [source] []
    /\ src_Container source = "mp4"
    /\ src_MediaStreams source = []
    /\ src_SupportsTranscoding source = true
    /\ src_SupportsDirectPlay source = true
    /\ src_SupportsDirectStream source = true.
Proof.
  intros Hnone. unfold buildMediaSource. rewrite Hnone.
  eexists. split; [reflexivity|]. now repeat split.
Qed.

(** With stream details and a language of at least three bytes, one source
    with a video and an audio stream is returned; the video stream carries
    the looked-up codec, and an unknown codec is logged. *)
Lemma buildMediaSource_streams (filename : string) (n : option Nfo)
    (details : NfoStreamDetails) :
  stream_details n = Some details ->
  (3 <= String.length (a_Language (Audio details)))%nat ->
  let codec := v_Codec (Video details) in
  let lowered := ToLower codec in
  exists source video audio log,
    buildMediaSource filename n = Return [source] log
    /\ src_MediaStreams source = [video; audio]
    /\ ms_Type video = "Video" /\ ms_Type audio = "Audio"
    /\ ms_Language video = String.substring 0 3 (a_Language (Audio details))
    /\ (if String.eqb lowered "x264" || String.eqb lowered "h264"
        then ms_Codec video = "h264" /\ ms_CodecTag video = "avc1"
        else if String.eqb lowered "hevc"
        then ms_Codec video = "hevc" /\ ms_CodecTag video = "hvc1"
        else ms_Codec video = codec /\ ms_CodecTag video = ""
             /\ In ("Nfo of " +:+ filename +:+ " has unknown video codec "
                    +:+ codec) log).
Proof.
  intros Hd Hlen codec lowered. unfold buildMediaSource.
  rewrite Hd. rewrite slice_string_ok by assumption.
  fold codec. fold lowered.
  destruct (String.eqb lowered "x264" || String.eqb lowered "h264") eqn:E1;
    [| destruct (String.eqb lowered "hevc") eqn:E2];
    destruct (a_Channels (Audio details) =? 2)%Z;
    try destruct (a_Channels (Audio details) =? 6)%Z;
    destruct (String.eqb (ToLower (a_Codec (Audio details))) "ac3");
    try destruct (String.eqb (ToLower (a_Codec (Audio details))) "aac");
    simpl; do 4 eexists; (split; [reflexivity|]);
    simpl; repeat split; auto.
Qed.

(** C10: the synthesizer returns a source exactly when the descriptor has no
    stream details or its audio language holds at least three bytes; with
    stream details and a shorter language, the empty one included, the slice
    [Language[0:3]] is out of range and the call panics, returning
    nothing. *)
Theorem C10_short_language_panics (filename : string) (n : option Nfo) :
  (stream_details n = None ->
   exists source, buildMediaSource filename n = Return [source] [])
  /\ (forall details, stream_details n = Some details ->
      ((String.length (a_Language (Audio details)) < 3)%nat ->
       buildMediaSource filename n = Panic [])
      /\ ((3 <= String.length (a_Language (Audio details)))%nat ->
          exists source log, buildMediaSource filename n = Return [source] log)).
Proof.
  split.
  - intros Hnone. destruct (buildMediaSource_bare filename n Hnone) as (s & Hs & _).
    now exists s.
  - intros details Hd. split.
    + intros Hshort. unfold buildMediaSource. rewrite Hd.
      now rewrite slice_string_short by assumption.
    + intros Hlen.
      destruct (buildMediaSource_streams filename n details Hd Hlen)
        as (s & _ & _ & log & Hs & _).
      now exists s, log.
Qed.

(** C6 (as amended): with stream details (and a language of at least three
    bytes, without which nothing is synthesized) the codec of the video
    stream is looked up by its lower-cased name: a name that lowers to x264
    or h264 gives codec h264 with tag avc1, one that lowers to hevc gives
    codec hevc with tag hvc1, and every other name passes through unchanged
    with no tag and is logged; the call returns in each case. *)
Theorem C6_video_codec_lookup (filename : string) (n : option Nfo)
    (details : NfoStreamDetails)
    (Hd : stream_details n = Some details)
    (Hlen : (3 <= String.length (a_Language (Audio details)))%nat) :
  exists source video audio log,
    buildMediaSource filename n = Return [source] log
    /\ src_MediaStreams source = [video; audio]
    /\ (ToLower (v_Codec (Video details)) = "x264"
        \/ ToLower (v_Codec (Video details)) = "h264" ->
        ms_Codec video = "h264" /\ ms_CodecTag video = "avc1")
    /\ (ToLower (v_Codec (Video details)) = "hevc" ->
        ms_Codec video = "hevc" /\ ms_CodecTag video = "hvc1")
    /\ (ToLower (v_Codec (Video details)) <> "x264" ->
        ToLower (v_Codec (Video details)) <> "h264" ->
        ToLower (v_Codec (Video details)) <> "hevc" ->
        ms_Codec video = v_Codec (Video details)
        /\ ms_CodecTag video = ""
        /\ In ("Nfo of " +:+ filename +:+ " has unknown video codec "
               +:+ v_Codec (Video details)) log).
Proof.
  destruct (buildMediaSource_streams filename n details Hd Hlen)
    as (source & video & audio & log & Hret & Hstreams & _ & _ & _ & Hcodec).
  exists source, video, audio, log.
  split; [exact Hret|]. split; [exact Hstreams|].
  destruct (String.eqb_spec (ToLower (v_Codec (Video details))) "x264") as [Ex|Ex];
    destruct (String.eqb_spec (ToLower (v_Codec (Video details))) "h264") as [Eh|Eh];
    destruct (String.eqb_spec (ToLower (v_Codec (Video details))) "hevc") as [Ev|Ev];
    simpl in Hcodec; repeat split; intros; try tauto; try congruence;
    try (rewrite Ex in *; discriminate); try (rewrite Eh in *; discriminate);
    try (destruct Hcodec as (? & ? & ?); assumption).
Qed.

End MediaSource.

Section MediaSourceExamples.
Import Sample.

Lemma C6_video_codec_lookup_witness :
  exists source video audio log,
    Legacy.buildMediaSource "a.mkv"
      (Some (nfo "t" "" 0 (Some (details "vp9" "eng"))))
    = Return [source] log
    /\ src_MediaStreams source = [video; audio]
    /\ ms_Codec video = "vp9" /\ ms_CodecTag video = ""
    /\ In "Nfo of a.mkv has unknown video codec vp9" log.
Proof.
  destruct (C6_video_codec_lookup "a.mkv"
              (Some (nfo "t" "" 0 (Some (details "vp9" "eng"))))
              (details "vp9" "eng") eq_refl)
    as (source & video & audio & log & Hret & Hstreams & _ & _ & Hother).
  - simpl. lia.
  - exists source, video, audio, log.
    split; [exact Hret|]. split; [exact Hstreams|].
    apply Hother; discriminate.
Defined.

(** C6 as stated fails: HEVC is a codec string other than x264, h264 and
    hevc, and it does not pass through unchanged; the switch is on the
    lower-cased name and rewrites it to hevc with tag hvc1.  Nor does every
    unrecognized codec leave the request successful: with a language of two
    bytes the call panics before any stream is built. *)
Lemma C6_counterexample :
  video_codec
    (Legacy.buildMediaSource "a.mkv"
       (Some (nfo "t" "" 0 (Some (details "HEVC" "eng")))))
  = Some ("hevc", "hvc1")
  /\ "hevc" <> "HEVC"
  /\ Legacy.buildMediaSource "a.mkv"
       (Some (nfo "t" "" 0 (Some (details "vp9" "en"))))
     = Panic [].
Proof. split; [vm_compute; reflexivity|]. split; [discriminate | reflexivity]. Qed.

Example x264_normalized :
  video_codec
    (Legacy.buildMediaSource "a.mkv"
       (Some (nfo "t" "" 0 (Some (details "x264" "eng")))))
  = Some ("h264", "avc1").
Proof. vm_compute; reflexivity. Qed.

Example short_language_panics :
  Legacy.buildMediaSource "a.mkv" (Some (nfo "t" "" 0 (Some (details "h264" "en"))))
  = Panic []
  /\ Legacy.buildMediaSource "a.mkv" (Some (nfo "t" "" 0 (Some (details "h264" ""))))
     = Panic [].
Proof. split; vm_compute; reflexivity. Qed.

End MediaSourceExamples.

(** ** Metadata enricher *)

Section Enricher.
Context `{Externals}.
Import Legacy.

(** The loop over the normalized genres only extends [GenreItems]. *)
Lemma genre_loop (genres : list string) (response : JFItem) :
  fold_left
    (fun response genre =>
       set_GenreItems
         (GenreItems response ++ [mkJFGenreItems genre (idHash genre)]) response)
    genres response
  = set_GenreItems
      (GenreItems response
       ++ List.map (fun genre => mkJFGenreItems genre (idHash genre)) genres)
      response.
Proof.
  revert response. induction genres as [|g genres IH]; intros response; simpl.
  - destruct response; simpl. now rewrite app_nil_r.
  - rewrite IH. destruct response; simpl. now rewrite <- app_assoc.
Qed.

(** Each block either leaves the record alone or sets the fields it
    names. *)
Lemma merge_Tagline_set n r :
  merge_Tagline n r
  = set_Taglines (if nonempty (Tagline n) then [Tagline n] else Taglines r) r.
Proof. unfold merge_Tagline. now destruct r, (nonempty (Tagline n)). Qed.

Lemma merge_Season_set n r :
  merge_Season n r
  = set_ParentIndexNumber (merged_season r n)
      (set_SeasonName
         (if nonempty (Season n) then "Season " +:+ Season n else SeasonName r) r).
Proof.
  unfold merge_Season, merged_season. now destruct r, (nonempty (Season n)).
Qed.

Lemma merge_Episode_set n r :
  merge_Episode n r = set_IndexNumber (merged_episode r n) r.
Proof.
  unfold merge_Episode, merged_episode. now destruct r, (nonempty (Episode n)).
Qed.

Lemma merge_SortName_set n r :
  merge_SortName n r
  = set_SortName
      (if negb (ParentIndexNumber r =? 0)%Z && negb (IndexNumber r =? 0)%Z
       then pad0 3 (Season n) +:+ " - " +:+ pad0 4 (Episode n)
            +:+ " - " +:+ Title n
       else SortName r) r.
Proof.
  unfold merge_SortName.
  now destruct r, (negb (_ =? 0)%Z && negb (_ =? 0)%Z).
Qed.

Lemma merge_Rating_set n r :
  merge_Rating n r
  = set_CommunityRating
      (if negb (Qeq_bool (Rating n) 0)
       then (inject_Z (GoMath.Round (Rating n * 10)) / 10)%Q
       else CommunityRating r) r.
Proof. unfold merge_Rating. now destruct r, (negb (Qeq_bool (Rating n) 0)). Qed.

Lemma merge_Genre_set n r :
  merge_Genre n r
  = set_GenreItems
      (if negb (length (Genre n) =? 0)%nat
       then GenreItems r
            ++ List.map (fun genre => mkJFGenreItems genre (idHash genre))
                 (normalizeGenres (Genre n))
       else GenreItems r)
      (set_Genres
         (if negb (length (Genre n) =? 0)%nat then normalizeGenres (Genre n)
          else Genres r) r).
Proof.
  unfold merge_Genre. destruct (negb (length (Genre n) =? 0)%nat).
  - cbv zeta. rewrite genre_loop. now destruct r.
  - now destruct r.
Qed.

Lemma merge_Studio_set n r :
  merge_Studio n r
  = set_Studios
      (if nonempty (Studio n) then [mkJFStudios (Studio n) (idHash (Studio n))]
       else Studios r) r.
Proof. unfold merge_Studio. now destruct r, (nonempty (Studio n)). Qed.

Lemma merge_Year_set n r :
  merge_Year n r
  = set_ProductionYear
      (if negb (Year n =? 0)%Z then Year n else ProductionYear r) r.
Proof. unfold merge_Year. now destruct r, (negb (Year n =? 0)%Z). Qed.

Lemma merge_date_set date r :
  merge_date date r
  = set_PremiereDate
      (if nonempty date then
         match parseTime date with
         | Some t => t
         | None => PremiereDate r
         end
       else PremiereDate r) r.
Proof.
  unfold merge_date. destruct r, (nonempty date); [|reflexivity].
  now destruct (parseTime date).
Qed.

(** The merge, field by field. *)
Lemma enrichResponseWithNFO_fields (response : JFItem) (n : Nfo) :
  enrichResponseWithNFO response (Some n)
  = {| ID := ID response;
       Etag := Etag response;
       ServerID := ServerID response;
       Type_ := Type_ response;
       Name := Title n;
       SortName :=
         if negb (merged_season response n =? 0)%Z
            && negb (merged_episode response n =? 0)%Z
         then pad0 3 (Season n) +:+ " - " +:+ pad0 4 (Episode n)
              +:+ " - " +:+ Title n
         else SortName response;
       Overview := Plot n;
       Taglines :=
         if nonempty (Tagline n) then [Tagline n] else Taglines response;
       SeriesName := SeriesName response;
       SeriesID := SeriesID response;
       SeasonName :=
         if nonempty (Season n) then "Season " +:+ Season n
         else SeasonName response;
       ParentIndexNumber := merged_season response n;
       IndexNumber := merged_episode response n;
       OfficialRating := Mpaa n;
       CommunityRating :=
         if negb (Qeq_bool (Rating n) 0)
         then (inject_Z (GoMath.Round (Rating n * 10)) / 10)%Q
         else CommunityRating response;
       CriticRating := CriticRating response;
       Genres :=
         if negb (length (Genre n) =? 0)%nat then normalizeGenres (Genre n)
         else Genres response;
       GenreItems :=
         if negb (length (Genre n) =? 0)%nat
         then GenreItems response
              ++ List.map (fun genre => mkJFGenreItems genre (idHash genre))
                   (normalizeGenres (Genre n))
         else GenreItems response;
       Studios :=
         if nonempty (Studio n)
         then [mkJFStudios (Studio n) (idHash (Studio n))]
         else Studios response;
       ProductionYear :=
         if negb (Year n =? 0)%Z then Year n else ProductionYear response;
       DateCreated := DateCreated response;
       PremiereDate := merged_premiere response n;
       LocationType := LocationType response;
       Path := Path response;
       IsFolder := IsFolder response;
       MediaType := MediaType response;
       VideoType := VideoType response;
       Container := Container response;
       HasSubtitles := HasSubtitles response;
       ImageTags := ImageTags response;
       MediaSources := MediaSources response |}.
Proof.
  unfold enrichResponseWithNFO. cbv zeta.
  rewrite !merge_date_set, merge_Year_set, merge_Studio_set, merge_Genre_set,
    merge_Rating_set, merge_SortName_set, merge_Episode_set, merge_Season_set,
    merge_Tagline_set.
  unfold merged_premiere, merged_season, merged_episode.
  destruct response; reflexivity.
Qed.

(** C5 (as amended): a nil descriptor leaves the record alone.  Of the
    rules of the merge, those for the tagline, the season and episode
    numbers, the community rating, the genres, the studio, the production
    year and the premiere date apply only if their source field is
    non-empty (non-zero), and otherwise leave the record's value unchanged;
    the title, the plot and the age rating are copied unconditionally, so an
    empty Title or Plot overwrites the record's name or overview with the
    empty string, while an empty Tagline leaves the taglines unchanged. *)
Theorem C5_merge_rules (response : JFItem) (n : Nfo) :
  enrichResponseWithNFO response None = response
  /\ Name (enrichResponseWithNFO response (Some n)) = Title n
  /\ Overview (enrichResponseWithNFO response (Some n)) = Plot n
  /\ OfficialRating (enrichResponseWithNFO response (Some n)) = Mpaa n
  /\ (Tagline n = "" ->
      Taglines (enrichResponseWithNFO response (Some n)) = Taglines response)
  /\ (Tagline n <> "" ->
      Taglines (enrichResponseWithNFO response (Some n)) = [Tagline n])
  /\ (Season n = "" ->
      SeasonName (enrichResponseWithNFO response (Some n)) = SeasonName response
      /\ ParentIndexNumber (enrichResponseWithNFO response (Some n))
         = ParentIndexNumber response)
  /\ (Episode n = "" ->
      IndexNumber (enrichResponseWithNFO response (Some n))
      = IndexNumber response)
  /\ (Qeq_bool (Rating n) 0 = true ->
      CommunityRating (enrichResponseWithNFO response (Some n))
      = CommunityRating response)
  /\ (Genre n = [] ->
      Genres (enrichResponseWithNFO response (Some n)) = Genres response
      /\ GenreItems (enrichResponseWithNFO response (Some n))
         = GenreItems response)
  /\ (Studio n = "" ->
      Studios (enrichResponseWithNFO response (Some n)) = Studios response)
  /\ (Year n = 0 ->
      ProductionYear (enrichResponseWithNFO response (Some n))
      = ProductionYear response)
  /\ (Premiered n = "" -> Aired n = "" ->
      PremiereDate (enrichResponseWithNFO response (Some n))
      = PremiereDate response).
Proof.
  split; [reflexivity|].
  rewrite enrichResponseWithNFO_fields. cbn [Name Overview OfficialRating
    Taglines SeasonName ParentIndexNumber IndexNumber CommunityRating Genres
    GenreItems Studios ProductionYear PremiereDate].
  unfold merged_season, merged_episode, merged_premiere, nonempty.
  repeat match goal with |- _ /\ _ => split end;
    try reflexivity; try (now intros ->); try (now intros -> ->);
    try (intros HR; now rewrite HR).
  intros Hne. now apply String.eqb_neq in Hne as ->.
Qed.

Lemma buildMediaSource_returns (filename : string) (n : option Nfo) :
  (forall details, stream_details n = Some details ->
     (3 <= String.length (a_Language (Audio details)))%nat) ->
  exists source log, buildMediaSource filename n = Return [source] log.
Proof.
  intros Hlang. destruct (stream_details n) as [details|] eqn:Hd.
  - destruct (buildMediaSource_streams filename n details Hd (Hlang _ eq_refl))
      as (source & _ & _ & log & Hret & _).
    now exists source, log.
  - destruct (buildMediaSource_bare filename n Hd) as (source & Hret & _).
    now exists source, [].
Qed.

(** C1 (as amended): building the record of an episode applies the show's
    descriptor first, then clears the age rating and the community rating,
    and only then applies the episode's own descriptor.  The resulting record
    therefore carries no rating of the show: its age rating is the one of the
    episode's descriptor (empty without a descriptor) and its community
    rating the rounded rating of the episode's descriptor (zero without a
    descriptor or with a zero rating); its name is the episode's title, or
    without an episode descriptor the show's.  (The record is returned when
    the media source is, see C10.) *)
Theorem C1_episode_ratings
    (Collections : list collection.Collection) (episodeid : string)
    (c : collection.Collection) (show : collection.Item)
    (s : collection.Season) (episode : collection.Episode)
    (Hfound : getEpisodeByID Collections episodeid = Some (c, show, s, episode))
    (Hlang : forall details,
        stream_details
          (lazyLoadNFO (collection.e_Nfo episode) (collection.e_NfoPath episode))
        = Some details ->
        (3 <= String.length (a_Language (Audio details)))%nat) :
  exists item log,
    buildJFItemEpisode Collections episodeid = Return (Ok item) log
    /\ OfficialRating item
       = match lazyLoadNFO (collection.e_Nfo episode)
                 (collection.e_NfoPath episode) with
         | Some n => Mpaa n
         | None => ""
         end
    /\ CommunityRating item
       = match lazyLoadNFO (collection.e_Nfo episode)
                 (collection.e_NfoPath episode) with
         | Some n =>
             if negb (Qeq_bool (Rating n) 0)
             then (inject_Z (GoMath.Round (Rating n * 10)) / 10)%Q
             else 0%Q
         | None => 0%Q
         end
    /\ Name item
       = match lazyLoadNFO (collection.e_Nfo episode)
                 (collection.e_NfoPath episode),
               lazyLoadNFO (collection.i_Nfo show) (collection.i_NfoPath show) with
         | Some n, _ => Title n
         | None, Some n => Title n
         | None, None => ""
         end.
Proof.
  unfold buildJFItemEpisode. rewrite Hfound.
  destruct (buildMediaSource_returns (collection.e_Video episode) _ Hlang)
    as (source & log & Hsrc).
  cbv zeta. rewrite Hsrc.
  destruct (lazyLoadNFO (collection.e_Nfo episode) (collection.e_NfoPath episode))
    as [en|];
    destruct (lazyLoadNFO (collection.i_Nfo show) (collection.i_NfoPath show))
      as [sn|];
    rewrite ?enrichResponseWithNFO_fields;
    eexists; eexists; (split; [reflexivity|]); simpl; repeat split.
Qed.

End Enricher.

Section EnricherExamples.
Import Sample.

Lemma C1_episode_ratings_witness :
  exists item log,
    Legacy.buildJFItemEpisode catalog "episode_e1" = Return (Ok item) log
    /\ OfficialRating item = "TV-14"
    /\ CommunityRating item = (85 # 10)%Q
    /\ Name item = "Pilot".
Proof.
  destruct (C1_episode_ratings catalog "episode_e1" shows show season1 pilot
              eq_refl)
    as (item & log & Hret & Hmpaa & Hrating & Hname).
  - intros details [= <-]. simpl. lia.
  - exists item, log. repeat split; assumption.
Defined.

(** C1 as stated fails: the ratings are cleared between the two passes, not
    after both.  The episode [e1] of the sample catalog has a descriptor with
    age rating TV-14 and rating 8.5, and its record carries both. *)
Lemma C1_counterexample :
  episode_ratings (Legacy.buildJFItemEpisode catalog "episode_e1")
  = Some ("TV-14", (85 # 10)%Q)
  /\ "TV-14" <> ""
  /\ ~ ((85 # 10) == 0)%Q.
Proof. split; [vm_compute; reflexivity|]. split; discriminate. Qed.

(** C5 as stated fails: a descriptor with an empty Title and Plot overwrites
    the name and the overview of the record with the empty string. *)
Lemma C5_counterexample :
  Title (nfo "" "" 0 None) = ""
  /\ Plot (nfo "" "" 0 None) = ""
  /\ Name (set_Overview "About" (item "x" "Show" "" 0 0)) = "Show"
  /\ Overview (set_Overview "About" (item "x" "Show" "" 0 0)) = "About"
  /\ Name (Legacy.enrichResponseWithNFO
             (set_Overview "About" (item "x" "Show" "" 0 0))
             (Some (nfo "" "" 0 None))) = ""
  /\ Overview (Legacy.enrichResponseWithNFO
                 (set_Overview "About" (item "x" "Show" "" 0 0))
                 (Some (nfo "" "" 0 None))) = "".
Proof. repeat split. Qed.

End EnricherExamples.

(** ** The effect monad *)

Lemma bind_Return {A B : Type} (f : A -> Go B) (a : A) (l : list string)
    (b : B) (l' : list string) :
  f a = Return b l' -> (Return a l ≫= f) = Return b (l ++ l').
Proof. intros Hf. unfold mbind, Go_bind. now rewrite Hf. Qed.

Lemma bind_Return_nil {A B : Type} (f : A -> Go B) (a : A) :
  (Return a [] ≫= f) = f a.
Proof. unfold mbind, Go_bind. now destruct (f a). Qed.

(** ** Stable sorting *)

Section SwapFacts.
Context {A : Type}.

Lemma swap_length (i j : nat) (data : list A) :
  length (swap i j data) = length data.
Proof.
  unfold swap. destruct (data !! i), (data !! j); try reflexivity.
  now rewrite !length_insert.
Qed.

Lemma swap_cons (i j : nat) (a : A) (data : list A) :
  swap (S i) (S j) (a :: data) = a :: swap i j data.
Proof. unfold swap. simpl. now destruct (data !! i), (data !! j). Qed.

(** Swapping two neighbours. *)
Lemma swap_adjacent (p : list A) (y x : A) (rest : list A) :
  swap (S (length p)) (length p) (p ++ y :: x :: rest) = p ++ x :: y :: rest.
Proof.
  induction p as [|a p IH]; [reflexivity|].
  simpl. rewrite swap_cons. now rewrite IH.
Qed.

End SwapFacts.

(** *** A comparison with effects: the sort returns and keeps the length *)

Section SortReturns.
Context {A : Type}.
Variable less : nat -> nat -> list A -> Go (bool * list A).
Hypothesis less_returns : forall i j data,
  (i < length data)%nat -> (j < length data)%nat ->
  exists b data' log,
    less i j data = Return (b, data') log /\ length data' = length data.

Lemma insertion_inner_returns (a j : nat) (data : list A) :
  (j < length data)%nat ->
  exists data' log,
    insertion_inner less a j data = Return data' log
    /\ length data' = length data.
Proof.
  revert data. induction j as [|j IH]; intros data Hj; simpl.
  - now exists data, [].
  - destruct (a <? S j)%nat; [|now exists data, []].
    destruct (less_returns (S j) j data Hj ltac:(lia))
      as (b & data' & log & Hless & Hlen).
    rewrite Hless. destruct b.
    + destruct (IH (swap (S j) j data')) as (data'' & log' & Hrec & Hlen').
      { rewrite swap_length. lia. }
      exists data'', (log ++ log'). split.
      * now apply bind_Return.
      * rewrite Hlen', swap_length. exact Hlen.
    + exists data', (log ++ []). split; [|exact Hlen].
      now apply bind_Return.
Qed.

Lemma insertion_outer_returns (a count i : nat) (data : list A) :
  (i + count <= length data)%nat ->
  exists data' log,
    insertion_outer less a i count data = Return data' log
    /\ length data' = length data.
Proof.
  revert i data. induction count as [|count IH]; intros i data Hi; simpl.
  - now exists data, [].
  - destruct (insertion_inner_returns a i data ltac:(lia))
      as (data' & log & Hinner & Hlen).
    destruct (IH (S i) data' ltac:(lia)) as (data'' & log' & Hrec & Hlen').
    exists data'', (log ++ log'). split.
    + rewrite Hinner. now apply bind_Return.
    + congruence.
Qed.

Lemma SliceStable_returns (data : list A) :
  exists data' log,
    SliceStable less data = Return data' log /\ length data' = length data.
Proof.
  destruct data as [|x data]; [now exists [], []|].
  unfold SliceStable, insertionSort. apply insertion_outer_returns.
  simpl; lia.
Qed.

End SortReturns.

(** *** A comparison without effects: the sort is the stable insertion sort *)

Section SortPure.
Context {A : Type}.
Variable lt : A -> A -> bool.
Variable less : nat -> nat -> list A -> Go (bool * list A).
Hypothesis less_pure : forall i j data x y,
  data !! i = Some x -> data !! j = Some y ->
  less i j data = Return (lt x y, data) [].

Lemma insert_back_length (x : A) (rp : list A) :
  length (insert_back lt x rp) = S (length rp).
Proof.
  induction rp as [|y rp IH]; simpl; [reflexivity|].
  destruct (lt x y); simpl; now rewrite ?IH.
Qed.

Lemma insertion_inner_pure (p : list A) (x : A) (rest : list A) :
  insertion_inner less 0 (length p) (p ++ x :: rest)
  = Return (reverse (insert_back lt x (reverse p)) ++ rest) [].
Proof.
  revert rest. induction p as [|y p IH] using rev_ind; intros rest.
  - reflexivity.
  - rewrite length_app, Nat.add_1_r. simpl.
    rewrite (less_pure (S (length p)) (length p) _ x y).
    + rewrite bind_Return_nil. rewrite reverse_snoc. simpl.
      destruct (lt x y).
      * rewrite <- app_assoc. simpl. rewrite swap_adjacent.
        rewrite IH. rewrite reverse_cons. now rewrite <- app_assoc.
      * rewrite !reverse_cons, reverse_involutive.
        now rewrite <- (app_assoc (p ++ [y]) [x] rest).
    + apply list_lookup_middle. rewrite length_app. simpl. lia.
    + rewrite <- app_assoc. simpl. now apply list_lookup_middle.
Qed.

Lemma insertion_outer_pure (todo acc : list A) :
  insertion_outer less 0 (length acc) (length todo) (reverse acc ++ todo)
  = Return (reverse (fold_left (fun rp x => insert_back lt x rp) todo acc)) [].
Proof.
  revert acc. induction todo as [|x todo IH]; intros acc; simpl.
  - now rewrite app_nil_r.
  - rewrite <- (length_reverse acc) at 1. rewrite insertion_inner_pure.
    rewrite bind_Return_nil, reverse_involutive.
    rewrite <- (insert_back_length x acc). apply IH.
Qed.

Lemma SliceStable_pure (data : list A) :
  SliceStable less data = Return (stable_sort lt data) [].
Proof.
  unfold SliceStable, insertionSort, stable_sort.
  destruct data as [|x data]; [reflexivity|].
  simpl. rewrite Nat.sub_0_r.
  apply (insertion_outer_pure data [x]).
Qed.

End SortPure.

(** *** The stable insertion sort sorts, permutes and is stable *)

Section StableSort.
Context {A : Type}.
Variable key : A -> Z.

Lemma insert_back_Permutation (x : A) (rp : list A) :
  insert_back (key_gt key) x rp ≡ₚ x :: rp.
Proof.
  induction rp as [|y rp IH]; simpl; [reflexivity|].
  destruct ((key_gt key) x y); [|reflexivity].
  rewrite IH. apply Permutation_swap.
Qed.

Lemma fold_insert_Permutation (l acc : list A) :
  fold_left (fun rp x => insert_back (key_gt key) x rp) l acc ≡ₚ l ++ acc.
Proof.
  revert acc. induction l as [|x l IH]; intros acc; simpl; [reflexivity|].
  rewrite IH, insert_back_Permutation. now rewrite Permutation_middle.
Qed.

Lemma stable_sort_Permutation (l : list A) : stable_sort (key_gt key) l ≡ₚ l.
Proof.
  unfold stable_sort. rewrite reverse_Permutation, fold_insert_Permutation.
  now rewrite app_nil_r.
Qed.

Lemma insert_back_HdRel (x y : A) (rp : list A) :
  (key y <= key x)%Z ->
  HdRel (fun a b => key a <= key b)%Z y rp ->
  HdRel (fun a b => key a <= key b)%Z y (insert_back (key_gt key) x rp).
Proof.
  intros Hyx Hhd. destruct rp as [|z rp]; simpl; [now constructor|].
  destruct ((key_gt key) x z); constructor; [|assumption].
  now inversion Hhd.
Qed.

Lemma insert_back_Sorted (x : A) (rp : list A) :
  Sorted (fun a b => key a <= key b)%Z rp ->
  Sorted (fun a b => key a <= key b)%Z (insert_back (key_gt key) x rp).
Proof.
  induction 1 as [|y rp Hsorted IH Hhd]; simpl.
  - repeat constructor.
  - unfold key_gt at 1. destruct (Z.ltb_spec (key y) (key x)).
    + constructor; [exact IH|]. apply insert_back_HdRel; [lia | exact Hhd].
    + constructor; [now constructor|]. now constructor.
Qed.

Lemma fold_insert_Sorted (l acc : list A) :
  Sorted (fun a b => key a <= key b)%Z acc ->
  Sorted (fun a b => key a <= key b)%Z
    (fold_left (fun rp x => insert_back (key_gt key) x rp) l acc).
Proof.
  revert acc. induction l as [|x l IH]; intros acc Hacc; simpl; [exact Hacc|].
  apply IH, insert_back_Sorted, Hacc.
Qed.

(** Every element of the sorted list has a key at least that of each
    element after it. *)
Lemma stable_sort_descending (l : list A) :
  StronglySorted (fun a b => key b <= key a)%Z (stable_sort (key_gt key) l).
Proof.
  apply Sorted_StronglySorted.
  - intros a b c Hab Hbc. lia.
  - unfold stable_sort.
    apply (Sorted_reverse (fun a b => key a <= key b)%Z).
    apply fold_insert_Sorted. constructor.
Qed.

(** Stability: the elements with one key keep their order. *)
Lemma insert_back_stable (k : Z) (x : A) (rp : list A) :
  filter (fun a => key a = k) (reverse (insert_back (key_gt key) x rp))
  = filter (fun a => key a = k) (reverse rp ++ [x]).
Proof.
  induction rp as [|y rp IH]; cbn [insert_back]; [reflexivity|].
  unfold key_gt at 1. destruct (Z.ltb_spec (key y) (key x)) as [Hlt|Hge].
  - rewrite !reverse_cons, !filter_app, IH, !filter_app, <- !app_assoc.
    f_equal. rewrite !filter_cons, !filter_nil.
    destruct (decide (key x = k)), (decide (key y = k)); simpl;
      try reflexivity; lia.
  - rewrite !reverse_cons. reflexivity.
Qed.

Lemma fold_insert_stable (k : Z) (l acc : list A) :
  filter (fun a => key a = k)
    (reverse (fold_left (fun rp x => insert_back (key_gt key) x rp) l acc))
  = filter (fun a => key a = k) (reverse acc ++ l).
Proof.
  revert acc. induction l as [|x l IH]; intros acc; simpl.
  - now rewrite app_nil_r.
  - rewrite IH.
    replace (reverse acc ++ x :: l) with ((reverse acc ++ [x]) ++ l)
      by now rewrite <- app_assoc.
    rewrite (filter_app _ (reverse (insert_back (key_gt key) x acc)) l).
    rewrite insert_back_stable.
    now rewrite (filter_app _ (reverse acc ++ [x]) l).
Qed.

Lemma stable_sort_stable (k : Z) (l : list A) :
  filter (fun a => key a = k) (stable_sort (key_gt key) l)
  = filter (fun a => key a = k) l.
Proof. unfold stable_sort. now rewrite fold_insert_stable. Qed.

End StableSort.

(** ** Query pipeline *)

Section Pipeline.
Context `{Externals} `{Jellyfin}.
Import JF.

(** The comparison of [applyItemSorting] returns on indices in range and
    keeps the length of the slice. *)
Lemma sorting_less_returns (sortBy : string) (sortDescending : bool)
    (sortFields : list string) (i j : nat) (items : list JFItem) :
  (i < length items)%nat -> (j < length items)%nat ->
  exists b items' log,
    sorting_less sortBy sortDescending sortFields i j items
    = Return (b, items') log
    /\ length items' = length items.
Proof.
  revert items. induction sortFields as [|field sortFields IH];
    intros items Hi Hj; simpl.
  - now exists false, items, [].
  - destruct (lookup_lt_is_Some_2 items i Hi) as [x Hx]. rewrite Hx.
    set (items1 := if String.eqb (SortName x) ""
                   then <[i:=set_SortName (Name x) x]> items else items).
    assert (Hlen1 : length items1 = length items).
    { subst items1. destruct (String.eqb (SortName x) "");
        [apply length_insert | reflexivity]. }
    destruct (lookup_lt_is_Some_2 items1 i ltac:(lia)) as [xi Hxi].
    destruct (lookup_lt_is_Some_2 items1 j ltac:(lia)) as [xj Hxj].
    rewrite Hxi, Hxj.
    destruct (IH items1 ltac:(lia) ltac:(lia)) as (b & items' & log & Hrec & Hlen).
    repeat match goal with
           | |- context [if ?c then _ else _] => destruct c
           end;
      try (eexists _, items1, []; split; [reflexivity | exact Hlen1]);
      try (exists b, items', log; split; [exact Hrec | lia]).
    exists b, items', (("applyItemSorting: unknown sortorder " +:+ sortBy) :: log).
    split; [|lia].
    unfold log_Print, mbind, Go_bind. now rewrite Hrec.
Qed.

(** The sort stage returns a slice of the same length. *)
Lemma applyItemSorting_returns (items : list JFItem)
    (queryparams : gmap string (list string)) :
  exists sorted log,
    applyItemSorting items queryparams = Return sorted log
    /\ length sorted = length items.
Proof.
  unfold applyItemSorting. destruct (String.eqb _ "").
  - now exists items, [].
  - apply SliceStable_returns. intros i j data. apply sorting_less_returns.
Qed.

(** The pagination stage is the pagination of the specification. *)
Lemma applyItemPaginating_spec (items : list JFItem)
    (queryparams : gmap string (list string)) :
  applyItemPaginating items queryparams
  = paginate_spec (query_int (Get queryparams "startIndex"))
      (query_int (Get queryparams "limit")) items.
Proof.
  unfold applyItemPaginating, paginate_spec, query_int.
  destruct (Atoi (Get queryparams "startIndex")) as [s [|]];
    destruct (Atoi (Get queryparams "limit")) as [l [|]]; simpl;
    reflexivity.
Qed.

(** C3: in the items listing the page is the pagination of the sorted
    candidates as the specification words it (an integer start index
    applied only if 0 <= s < length, then an integer limit applied only if
    0 < l < remaining length, a malformed integer skipping its stage), and
    the total record count is the number of candidates after filtering and
    before pagination.  In particular, with 10 candidates, startIndex=5 and
    limit=3, the page is the slice [5,8) of the sorted candidates, of three
    items, and the total record count is 10. *)
Theorem C3_pagination (r : Request) (d : AccessTokenDetails)
    (Hauth : getAccessTokenDetails r = Some d)
    (Hscope : HasPrefix (Get (Query r) "parentId")
                itemprefix_collection_playlist = false) :
  exists sorted log,
    applyItemSorting
      (matching_items (UserID d) (Get (Query r) "searchTerm")
         (search_collection (Get (Query r) "parentId")) (Query r))
      (Query r)
    = Return sorted log
    /\ usersItemsHandler r
       = Return
           (serveJSON
              (JUserItems
                 {| Items :=
                      paginate_spec (query_int (Get (Query r) "startIndex"))
                        (query_int (Get (Query r) "limit")) sorted;
                    TotalRecordCount :=
                      Z.of_nat
                        (length
                           (matching_items (UserID d)
                              (Get (Query r) "searchTerm")
                              (search_collection (Get (Query r) "parentId"))
                              (Query r)));
                    StartIndex := 0 |}) ∅)
           log
    /\ (length
          (matching_items (UserID d) (Get (Query r) "searchTerm")
             (search_collection (Get (Query r) "parentId")) (Query r))
        = 10%nat ->
        Get (Query r) "startIndex" = "5" ->
        Get (Query r) "limit" = "3" ->
        paginate_spec (query_int (Get (Query r) "startIndex"))
          (query_int (Get (Query r) "limit")) sorted
        = take 3 (drop 5 sorted)
        /\ length (take 3 (drop 5 sorted)) = 3%nat
        /\ Z.of_nat
             (length
                (matching_items (UserID d) (Get (Query r) "searchTerm")
                   (search_collection (Get (Query r) "parentId")) (Query r)))
           = 10).
Proof.
  destruct (applyItemSorting_returns
              (matching_items (UserID d) (Get (Query r) "searchTerm")
                 (search_collection (Get (Query r) "parentId")) (Query r))
              (Query r))
    as (sorted & log & Hsort & Hlen).
  exists sorted, log. split; [exact Hsort|]. split.
  - unfold usersItemsHandler. rewrite Hauth, Hscope. cbv zeta.
    rewrite Hsort. rewrite <- applyItemPaginating_spec.
    unfold mbind, Go_bind, mret, Go_ret. now rewrite app_nil_r.
  - intros Hten Hstart Hlimit. rewrite Hstart, Hlimit, Hten.
    rewrite Hten in Hlen.
    unfold paginate_spec, query_int. simpl.
    rewrite Hlen. simpl. rewrite length_drop, Hlen. simpl.
    repeat split. rewrite length_take, length_drop, Hlen. reflexivity.
Qed.

(** The comparison of the latest-items listing has no effect. *)
Lemma latest_less_pure (i j : nat) (items : list JFItem) (x y : JFItem) :
  items !! i = Some x -> items !! j = Some y ->
  latest_less i j items = Return (more_recent x y, items) [].
Proof. intros Hx Hy. unfold latest_less. now rewrite Hx, Hy. Qed.

(** C7: the latest-items listing never calls the sort stage.  The
    candidates that pass the filter are put in descending order of premiere
    date by a stable sort (a permutation in which every item premiered no
    earlier than each item after it, items of one date keeping their
    order), and that list is then paginated. *)
Theorem C7_latest_by_premiere_date (r : Request) (d : AccessTokenDetails)
    (Hauth : getAccessTokenDetails r = Some d) :
  exists ordered,
    ordered
    = stable_sort more_recent
        (matching_items (UserID d) ""
           (search_collection (Get (Query r) "parentId")) (Query r))
    /\ ordered ≡ₚ matching_items (UserID d) ""
                    (search_collection (Get (Query r) "parentId")) (Query r)
    /\ StronglySorted (fun a b => (PremiereDate b <= PremiereDate a)%Z) ordered
    /\ (forall t,
          filter (fun a => PremiereDate a = t) ordered
          = filter (fun a => PremiereDate a = t)
              (matching_items (UserID d) ""
                 (search_collection (Get (Query r) "parentId")) (Query r)))
    /\ usersItemsLatestHandler r
       = Return (serveJSON (JItems (applyItemPaginating ordered (Query r))) ∅) [].
Proof.
  eexists. split; [reflexivity|]. split; [|split; [|split]].
  - apply (stable_sort_Permutation PremiereDate).
  - apply (stable_sort_descending PremiereDate).
  - intros t. apply (stable_sort_stable PremiereDate).
  - unfold usersItemsLatestHandler. rewrite Hauth. cbv zeta.
    rewrite (SliceStable_pure more_recent latest_less latest_less_pure).
    now rewrite bind_Return_nil.
Qed.

End Pipeline.

(** ** Image resolver *)

Section Images.
Context `{Externals} `{Jellyfin}.
Import JF.

(** C9 (the code at the failing path): a request for the image of an
    episode that exists and whose thumbnail opens is answered with the file
    and an empty header map; no cache-control entry is attached. *)
Theorem C9_episode_thumbnail_uncached (r : Request)
    (c : collection.Collection) (item : collection.Item)
    (s : collection.Season) (episode : collection.Episode)
    (name : string) (modtime : Time)
    (Hepisode : episode_image_request r = true)
    (Hfound : GetEpisodeByID (trimPrefix (Var r "item"))
              = Some (c, item, s, episode))
    (Hopen : os_Open (collection.c_Directory c +:+ "/" +:+ collection.i_Name item
                      +:+ "/" +:+ collection.e_Thumb episode)
             = OpenedFile name modtime) :
  itemsImagesHandler r = Return (ServedContent ∅ name modtime) []
  /\ cache_control ∅ = None.
Proof.
  split; [|reflexivity].
  unfold episode_image_request in Hepisode.
  apply andb_prop in Hepisode as [Hepisode Htoken].
  apply andb_prop in Hepisode as [Hepisode Htwo].
  apply andb_prop in Hepisode as [Hredirect Hfile].
  apply negb_true_iff in Hredirect, Hfile.
  unfold itemsImagesHandler. rewrite Hredirect, Hfile, Htwo.
  apply String.eqb_eq in Htoken. rewrite Htoken. simpl.
  rewrite Hfound. unfold serveFile. simpl in Hopen. now rewrite Hopen.
Qed.

(** Every other path of the handler that redirects or serves a file attaches
    the long-lived cache-control entry. *)
Lemma itemsImagesHandler_cache_control (r : Request) (resp : Response)
    (log : list string) (h : gmap string string) :
  itemsImagesHandler r = Return resp log ->
  episode_image_request r = false ->
  (exists url code, resp = Redirected h url code)
  \/ (exists name modtime, resp = ServedContent h name modtime) ->
  cache_control h = Some long_lived.
Proof.
  unfold itemsImagesHandler, episode_image_request, serveImage, serveFile.
  destruct (HasPrefix (Get (Query r) "tag") tagprefix_redirect).
  { intros [= <- <-] _ [(url & code & [= <-]) | (? & ? & [=])]. reflexivity. }
  destruct (HasPrefix (Get (Query r) "tag") tagprefix_file).
  { destruct (os_Open _); simpl;
      intros [= <- <-] _ [(? & ? & [=]) | (? & ? & [= <-])]. reflexivity. }
  destruct (length (Split (Var r "item") "_") =? 2)%nat; simpl.
  - destruct (String.eqb (hd "" (Split (Var r "item") "_")) "season") eqn:Es.
    + destruct (GetSeasonByID _) as [[[c item] season]|].
      * destruct (String.eqb (Var r "type") "Primary").
        -- destruct (imageresizer_OpenFile _ _ _); simpl;
             intros [= <- <-] _ [(? & ? & [=]) | (? & ? & [= <-])]. reflexivity.
        -- simpl. intros [= <- <-] _ [(? & ? & [=]) | (? & ? & [=])].
      * intros [= <- <-] _ [(? & ? & [=]) | (? & ? & [=])].
    + destruct (String.eqb (hd "" (Split (Var r "item") "_")) "episode");
        [intros _ [=]|].
      simpl. intros [= <- <-] _ [(? & ? & [=]) | (? & ? & [=])].
  - destruct (GetItemByID _) as [[c i]|].
    + destruct (String.eqb (Var r "type") "Primary").
      * destruct (imageresizer_OpenFile _ _ _); simpl;
          intros [= <- <-] _ [(? & ? & [=]) | (? & ? & [= <-])]. reflexivity.
      * destruct (String.eqb (Var r "type") "Backdrop").
        -- destruct (os_Open _); simpl;
             intros [= <- <-] _ [(? & ? & [=]) | (? & ? & [= <-])]. reflexivity.
        -- simpl. intros [= <- <-] _ [(? & ? & [=]) | (? & ? & [=])].
    + intros [= <- <-] _ [(? & ? & [=]) | (? & ? & [=])].
Qed.

End Images.

Section PipelineExamples.
Import Sample.

Lemma C3_pagination_witness :
  exists sorted log,
    JF.usersItemsHandler
      (request [] [("parentId", "collection_1"); ("startIndex", "5");
                   ("limit", "3")])
    = Return
        (serveJSON
           (JUserItems
              {| Items := take 3 (drop 5 sorted);
                 TotalRecordCount := 10;
                 StartIndex := 0 |}) ∅)
        log
    /\ length (take 3 (drop 5 sorted)) = 3%nat.
Proof.
  destruct (@C3_pagination externals receiver
              (request [] [("parentId", "collection_1"); ("startIndex", "5");
                           ("limit", "3")])
              (mkAccessTokenDetails "user") eq_refl eq_refl)
    as (sorted & log & _ & Hresp & Hpage).
  destruct (Hpage eq_refl eq_refl eq_refl) as (Hslice & Hthree & Hten).
  exists sorted, log. split; [|exact Hthree].
  rewrite Hresp, Hslice. reflexivity.
Defined.

Lemma C7_latest_by_premiere_date_witness :
  exists ordered,
    StronglySorted (fun a b => (PremiereDate b <= PremiereDate a)%Z) ordered
    /\ JF.usersItemsLatestHandler
         (request [] [("sortBy", "SortName"); ("limit", "4")])
       = Return
           (serveJSON
              (JItems
                 (JF.applyItemPaginating ordered
                    (Query (request [] [("sortBy", "SortName"); ("limit", "4")]))))
              ∅) [].
Proof.
  destruct (@C7_latest_by_premiere_date externals receiver
              (request [] [("sortBy", "SortName"); ("limit", "4")])
              (mkAccessTokenDetails "user") eq_refl)
    as (ordered & _ & _ & Hsorted & _ & Hresp).
  exists ordered. split; assumption.
Defined.

Example latest_four :
  match JF.usersItemsLatestHandler
          (request [] [("sortBy", "SortName"); ("limit", "4")]) with
  | Return (ServedJSON _ (JItems items)) _ => List.map ID items
  | _ => []
  end = ["show1"; "m9"; "m8"; "m7"].
Proof. vm_compute. reflexivity. Qed.

(** C4 (the code at the failing input): on [A; B], both named Alpha with an
    empty sort name, sorted by sortName,productionYear ascending, the only
    comparison is [less(1, 0)]; it gives B the sort name Alpha, compares it
    with the still empty sort name of A, finds them different and answers
    that B is not less; the year is never compared and the order [A; B]
    stays. *)
Theorem C4_sort_name_fallback_one_sided :
  JF.sorting_less "sortName,productionYear" false ["sortName"; "productionYear"]
    1 0 [A; B]
  = Return (false, [A; set_SortName "Alpha" B]) []
  /\ JF.applyItemSorting [A; B]
       (Query (request [] [("sortBy", "sortName,productionYear");
                           ("sortOrder", "Ascending")]))
     = Return [A; set_SortName "Alpha" B] []
  /\ List.map ID [A; set_SortName "Alpha" B] = ["A"; "B"].
Proof. repeat split; vm_compute; reflexivity. Qed.

(** With the sort names filled in beforehand, as [usersItemsHandler] of
    [jellyfin.go] does, the tie on the name is broken by the year. *)
Example sort_with_names_set :
  JF.applyItemSorting
    [set_SortName "Alpha" A; set_SortName "Alpha" B]
    (Query (request [] [("sortBy", "sortName,productionYear");
                        ("sortOrder", "Ascending")]))
  = Return [set_SortName "Alpha" B; set_SortName "Alpha" A] [].
Proof. vm_compute. reflexivity. Qed.

Lemma C9_episode_thumbnail_uncached_witness :
  JF.itemsImagesHandler (request [("item", "episode_e1"); ("type", "Primary")] [])
  = Return (ServedContent ∅ "/media/shows/Show/s01e01.jpg" 0) []
  /\ cache_control ∅ = None.
Proof.
  apply (C9_episode_thumbnail_uncached
           (request [("item", "episode_e1"); ("type", "Primary")] [])
           shows show season1 pilot "/media/shows/Show/s01e01.jpg" 0);
    reflexivity.
Defined.

(** The season poster, served by the sibling branch, carries the entry. *)
Example season_poster_cached :
  JF.itemsImagesHandler (request [("item", "season_s1"); ("type", "Primary")] [])
  = Return
      (ServedContent (Header_Set "cache-control" JF.long_lived ∅)
         "/media/shows/Show/season01.jpg" 0) [].
Proof. vm_compute. reflexivity. Qed.

End PipelineExamples.

(** * Further properties of the embedded code *)

(** ** Pagination and filtering *)

Section PaginationFacts.
Context `{Externals} `{Jellyfin}.
Import JF.

(** X1: a page is a contiguous run of the list, in the order of the list; it
    is never longer than the list, and it is empty only when the list is: a
    start index at or past the end, a negative one, a limit of zero or a
    malformed number skip their stage instead of emptying the page. *)
Theorem page_is_nonempty_segment (items : list JFItem)
    (queryparams : gmap string (list string)) :
  (exists s n,
      applyItemPaginating items queryparams = take n (drop s items)
      /\ (s <= length items)%nat)
  /\ (length (applyItemPaginating items queryparams) <= length items)%nat
  /\ (applyItemPaginating items queryparams = [] <-> items = []).
Proof.
  unfold applyItemPaginating.
  destruct (Atoi (Get queryparams "startIndex")) as [start sok].
  destruct (Atoi (Get queryparams "limit")) as [limit lok].
  destruct (sok && (0 <=? start)%Z && (start <? Z.of_nat (length items))%Z) eqn:Es.
  - apply andb_prop in Es as [Es Hlt]. apply andb_prop in Es as [_ Hge].
    apply Z.leb_le in Hge. apply Z.ltb_lt in Hlt.
    assert (Hs : (Z.to_nat start < length items)%nat) by lia.
    destruct (lok && (0 <? limit)%Z
              && (limit <? Z.of_nat (length (drop (Z.to_nat start) items)))%Z) eqn:El.
    + apply andb_prop in El as [El Hl]. apply andb_prop in El as [_ Hpos].
      apply Z.ltb_lt in Hpos, Hl. rewrite length_drop in Hl.
      split; [exists (Z.to_nat start), (Z.to_nat limit); split; [reflexivity | lia]|].
      split; [rewrite length_take, length_drop; lia|].
      split; intros Hnil.
      * apply (f_equal length) in Hnil.
        rewrite length_take, length_drop in Hnil. simpl in Hnil. lia.
      * subst items. simpl in Hs. lia.
    + split; [exists (Z.to_nat start), (length items); split; [|lia]|].
      { rewrite take_ge; [reflexivity | rewrite length_drop; lia]. }
      split; [rewrite length_drop; lia|].
      split; intros Hnil.
      * apply (f_equal length) in Hnil. rewrite length_drop in Hnil.
        simpl in Hnil. lia.
      * subst items. simpl in Hs. lia.
  - destruct (lok && (0 <? limit)%Z && (limit <? Z.of_nat (length items))%Z) eqn:El.
    + apply andb_prop in El as [El Hl]. apply andb_prop in El as [_ Hpos].
      apply Z.ltb_lt in Hpos, Hl.
      split; [exists 0%nat, (Z.to_nat limit); split; [reflexivity | lia]|].
      split; [rewrite length_take; lia|].
      split; intros Hnil.
      * apply (f_equal length) in Hnil. rewrite length_take in Hnil.
        simpl in Hnil. lia.
      * subst items. simpl in Hl. lia.
    + split; [exists 0%nat, (length items); split; [|lia]|].
      { simpl. now rewrite take_ge. }
      split; [lia|]. reflexivity.
Qed.

(** X2: the filter keeps an item exactly when it passes both tests: its type
    is named in the includeItemTypes list (Movie for a movie, Series for a
    show) or the list is absent, and its year is one of the well-formed
    integers of the years list or the list is absent. *)
Theorem filter_is_and_of_ors (i : collection.Item)
    (queryparams : gmap string (list string)) :
  applyItemFilter i queryparams = true
  <-> (Get queryparams "includeItemTypes" = ""
       \/ (In "Movie" (Split (Get queryparams "includeItemTypes") ",")
           /\ collection.i_Type i = collection.ItemTypeMovie)
       \/ (In "Series" (Split (Get queryparams "includeItemTypes") ",")
           /\ collection.i_Type i = collection.ItemTypeShow))
      /\ (Get queryparams "years" = ""
          \/ exists year,
               In year (Split (Get queryparams "years") ",")
               /\ Atoi year = (collection.i_Year i, true)).
Proof.
  unfold applyItemFilter, ParseInt.
  set (types := Get queryparams "includeItemTypes").
  set (years := Get queryparams "years").
  assert (Htypes :
    (if String.eqb types "" then true
     else existsb
            (fun includeType =>
               (String.eqb includeType "Movie"
                && collection.ItemType_eqb (collection.i_Type i)
                     collection.ItemTypeMovie)
               || (String.eqb includeType "Series"
                   && collection.ItemType_eqb (collection.i_Type i)
                        collection.ItemTypeShow))
            (Split types ",")) = true
    <-> (types = ""
         \/ (In "Movie" (Split types ",")
             /\ collection.i_Type i = collection.ItemTypeMovie)
         \/ (In "Series" (Split types ",")
             /\ collection.i_Type i = collection.ItemTypeShow))).
  { destruct (String.eqb_spec types "") as [->|Hne]; [tauto|].
    rewrite existsb_exists. split.
    - intros (t & Hin & Ht). right.
      apply orb_prop in Ht as [Ht|Ht]; apply andb_prop in Ht as [Hname Hty];
        apply String.eqb_eq in Hname; subst t;
        destruct (collection.i_Type i); try discriminate; auto.
    - intros [Hempty | [[Hin Hty] | [Hin Hty]]]; [contradiction|..].
      + exists "Movie". split; [exact Hin|]. now rewrite Hty.
      + exists "Series". split; [exact Hin|]. now rewrite Hty. }
  assert (Hyears :
    (if String.eqb years "" then true
     else existsb
            (fun year => let '(intYear, ok) := Atoi year in
                         ok && (collection.i_Year i =? intYear)%Z)
            (Split years ",")) = true
    <-> (years = ""
         \/ exists year, In year (Split years ",")
                         /\ Atoi year = (collection.i_Year i, true))).
  { destruct (String.eqb_spec years "") as [->|Hne]; [split; auto|].
    rewrite existsb_exists. split.
    - intros (y & Hin & Hy). right. exists y. split; [exact Hin|].
      destruct (Atoi y) as [v ok]. apply andb_prop in Hy as [-> Hv].
      apply Z.eqb_eq in Hv. now subst v.
    - intros [Hempty | (y & Hin & Hy)]; [contradiction|].
      exists y. split; [exact Hin|]. rewrite Hy. simpl. apply Z.eqb_refl. }
  rewrite <- Htypes, <- Hyears.
  destruct (if String.eqb types "" then _ else _);
    destruct (if String.eqb years "" then _ else _); simpl; intuition congruence.
Qed.

(** X3: a filter list that is present but holds no recognized value rejects
    every item: an includeItemTypes list without Movie and Series, or a years
    list without a well-formed integer. *)
Theorem filter_unrecognized_rejects_all (i : collection.Item)
    (queryparams : gmap string (list string))
    (Hbad :
      (Get queryparams "includeItemTypes" <> ""
       /\ forall t, In t (Split (Get queryparams "includeItemTypes") ",") ->
                    t <> "Movie" /\ t <> "Series")
      \/ (Get queryparams "years" <> ""
          /\ forall y, In y (Split (Get queryparams "years") ",") ->
                       snd (Atoi y) = false)) :
  applyItemFilter i queryparams = false.
Proof.
  apply not_true_is_false. intros Hkeep.
  apply filter_is_and_of_ors in Hkeep as [Htypes Hyears].
  destruct Hbad as [[Hne Hnone] | [Hne Hnone]].
  - destruct Htypes as [Hempty | [[Hin _] | [Hin _]]]; [contradiction|..];
      apply Hnone in Hin; tauto.
  - destruct Hyears as [Hempty | (y & Hin & Hy)]; [contradiction|].
    apply Hnone in Hin. rewrite Hy in Hin. discriminate.
Qed.

End PaginationFacts.

Section PaginationExamples.
Import Sample.

Lemma filter_unrecognized_rejects_all_witness :
  JF.applyItemFilter (movie "m0" "Kilo" 1990)
    (Query (request [] [("includeItemTypes", "Episode,Audio")]))
  = false.
Proof.
  apply (filter_unrecognized_rejects_all (movie "m0" "Kilo" 1990)
           (Query (request [] [("includeItemTypes", "Episode,Audio")]))).
  left. split; [discriminate|].
  intros t [<- | [<- | []]]; split; discriminate.
Defined.

Example years_filter :
  JF.applyItemFilter (movie "m" "M" 2000)
    (Query (request [] [("years", "1999,2001")])) = false
  /\ JF.applyItemFilter (movie "m" "M" 2000)
       (Query (request [] [("years", "1999,x,2000")])) = true.
Proof. split; vm_compute; reflexivity. Qed.

End PaginationExamples.

(** ** Identifiers and lookups *)

Lemma Split_from_nonempty (s cur : string) (sep : ascii) :
  Split_from cur s sep <> [].
Proof.
  revert cur. induction s as [|c s IH]; intros cur; simpl; [discriminate|].
  destruct (Ascii.eqb c sep); [discriminate | apply IH].
Qed.

Lemma Split_from_one_inv (s cur b : string) (sep : ascii) :
  Split_from cur s sep = [b] -> b = cur +:+ s /\ free_of sep s = true.
Proof.
  revert cur. induction s as [|c s IH]; intros cur Hsplit; simpl in *.
  - injection Hsplit as <-. now rewrite append_empty_r.
  - destruct (Ascii.eqb c sep).
    + injection Hsplit as _ Hrest. now apply Split_from_nonempty in Hrest.
    + apply IH in Hsplit as [-> Hfree]. now rewrite append_cons_assoc.
Qed.

Lemma Split_from_two_inv (s cur a b : string) (sep : ascii) :
  Split_from cur s sep = [a; b] ->
  exists tok,
    a = cur +:+ tok /\ s = tok +:+ String sep b
    /\ free_of sep tok = true /\ free_of sep b = true.
Proof.
  revert cur. induction s as [|c s IH]; intros cur Hsplit; simpl in *.
  - discriminate.
  - destruct (Ascii.eqb_spec c sep) as [->|Hne].
    + injection Hsplit as <- Hrest.
      apply Split_from_one_inv in Hrest as [-> Hfree].
      exists EmptyString. now rewrite append_empty_r.
    + apply IH in Hsplit as (tok & -> & -> & Htok & Hb).
      exists (String c tok). rewrite append_cons_assoc. simpl.
      apply Ascii.eqb_neq in Hne. now rewrite Hne.
Qed.

Section IdentifierFacts.
Import JF.

(** X4: [trimPrefix] undoes [encode] for every internal id, also one that
    holds the separator itself (it cuts at the first separator only), and
    leaves a string without separator as it is. *)
Theorem trimPrefix_undoes_encode (p : Prefix) (id s : string) :
  trimPrefix (encode p id) = id
  /\ (free_of itemprefix_separator s = true -> trimPrefix s = s).
Proof.
  split.
  - rewrite encode_token. apply trimPrefix_one_separator. now destruct p.
  - intros Hfree. unfold trimPrefix.
    assert (Hnone : IndexByte s itemprefix_separator = None).
    { induction s as [|c s IH]; simpl in *; [reflexivity|].
      destruct (Ascii.eqb c itemprefix_separator); [discriminate|].
      now rewrite IH. }
    now rewrite Hnone.
Qed.

(** X5: decoding succeeds only on encoded ids: when the switch of
    [usersItemHandler] takes the branch of a prefix, the id is that prefix
    followed by the internal id handed to the lookup, and the internal id
    holds no separator. *)
Theorem decode_only_encoded (itemId : string) (p : Prefix) (id : string)
    (Hdecode : decode itemId = Some (p, id)) :
  itemId = encode p id /\ free_of itemprefix_separator id = true.
Proof.
  unfold decode in Hdecode.
  destruct (dispatch itemId) as [q| |] eqn:Hd; try discriminate.
  injection Hdecode as -> <-.
  unfold dispatch in Hd.
  destruct (Split itemId itemprefix_separator) as [|a [|b [|? ?]]] eqn:Hsplit;
    try discriminate.
  apply Split_from_two_inv in Hsplit as (tok & -> & -> & Htok & Hb).
  simpl in Hd.
  assert (Htoken : tok +:+ "_" = prefix_string p).
  { unfold branch_of_token in Hd.
    repeat match type of Hd with
           | (if String.eqb ?x ?y then _ else _) = _ =>
               destruct (String.eqb_spec x y) as [Heq|_]
           end; try discriminate; injection Hd as <-; exact Heq. }
  assert (tok = token_of p) as ->.
  { apply append_sep_inj. rewrite Htoken. now destruct p. }
  rewrite trimPrefix_one_separator by now destruct p.
  split; [now rewrite encode_token | exact Hb].
Qed.

End IdentifierFacts.

Lemma HasPrefix_append (pre s : string) : HasPrefix (pre +:+ s) pre = true.
Proof.
  unfold HasPrefix. induction pre as [|c pre IH]; simpl.
  - now destruct s.
  - destruct (ascii_dec c c); [exact IH | contradiction].
Qed.

Lemma TrimPrefix_append (pre s : string) : TrimPrefix (pre +:+ s) pre = s.
Proof. unfold TrimPrefix. rewrite HasPrefix_append. apply string_drop_app. Qed.

Section LookupFacts.
Context `{Externals} `{Jellyfin}.

(** X6: a collection id made by [genCollectionID] is accepted by
    [getCollectionID], which gives back the decimal source id, and as the
    parentId of a listing it selects the collection looked up under that
    decimal id; [getCollectionID] fails exactly on the inputs that do not
    begin with the collection prefix. *)
Theorem collection_id_round_trip (id : Z) (input : string) :
  Legacy.getCollectionID (Legacy.genCollectionID id) = Ok (FormatInt id)
  /\ JF.search_collection (JF.genCollectionID id) = GetCollection (FormatInt id)
  /\ ((exists msg, Legacy.getCollectionID input = Error msg)
      <-> HasPrefix input Legacy.itemprefix_collection = false).
Proof.
  split.
  { unfold Legacy.getCollectionID, Legacy.genCollectionID.
    now rewrite HasPrefix_append, TrimPrefix_append. }
  split.
  { unfold JF.search_collection, JF.genCollectionID.
    now rewrite TrimPrefix_append. }
  unfold Legacy.getCollectionID.
  destruct (HasPrefix input Legacy.itemprefix_collection); simpl.
  - split; [intros [msg Hmsg]; discriminate | discriminate].
  - split; [reflexivity | intros _; now eexists].
Qed.

End LookupFacts.

Lemma find_map_Some {A B : Type} (f : A -> option B) (l : list A) (b : B) :
  find_map f l = Some b -> exists x, In x l /\ f x = Some b.
Proof.
  induction l as [|x l IH]; simpl; [discriminate|].
  destruct (f x) as [b'|] eqn:Hfx.
  - intros [= <-]. exists x. auto.
  - intros Hrest. destruct (IH Hrest) as (y & Hin & Hy). exists y. auto.
Qed.

Lemma find_map_None {A B : Type} (f : A -> option B) (l : list A) :
  find_map f l = None -> forall x, In x l -> f x = None.
Proof.
  induction l as [|x l IH]; simpl; [tauto|].
  destruct (f x) as [b'|] eqn:Hfx; [discriminate|].
  intros Hrest y [<- | Hin]; auto.
Qed.

(** X7: [getEpisodeByID] answers with an episode of the catalog that carries
    the requested id (the episode prefix trimmed), together with the season,
    show and collection that hold it; it answers nil only when no episode of
    the catalog carries that id. *)
Theorem getEpisodeByID_found_in_catalog
    (Collections : list collection.Collection) (episodeId : string) :
  match Legacy.getEpisodeByID Collections episodeId with
  | Some (c, i, s, e) =>
      In c Collections /\ In i (collection.c_Items c)
      /\ In s (collection.i_Seasons i) /\ In e (collection.s_Episodes s)
      /\ collection.e_Id e = TrimPrefix episodeId Legacy.itemprefix_episode
  | None =>
      forall c i s e,
        In c Collections -> In i (collection.c_Items c) ->
        In s (collection.i_Seasons i) -> In e (collection.s_Episodes s) ->
        collection.e_Id e <> TrimPrefix episodeId Legacy.itemprefix_episode
  end.
Proof.
  unfold Legacy.getEpisodeByID.
  set (target := TrimPrefix episodeId Legacy.itemprefix_episode).
  destruct (find_map _ Collections) as [[[[c i] s] e]|] eqn:Hfind.
  - apply find_map_Some in Hfind as (c' & Hc & Hfind).
    apply find_map_Some in Hfind as (i' & Hi & Hfind).
    apply find_map_Some in Hfind as (s' & Hs & Hfind).
    apply find_map_Some in Hfind as (e' & He & Hfind).
    destruct (String.eqb_spec (collection.e_Id e') target); [|discriminate].
    injection Hfind as <- <- <- <-. auto.
  - intros c i s e Hc Hi Hs He Hid.
    pose proof (find_map_None _ _ Hfind c Hc) as Hfind1.
    pose proof (find_map_None _ _ Hfind1 i Hi) as Hfind2.
    pose proof (find_map_None _ _ Hfind2 s Hs) as Hfind3.
    pose proof (find_map_None _ _ Hfind3 e He) as Hfind4.
    simpl in Hfind4. apply String.eqb_eq in Hid. now rewrite Hid in Hfind4.
Qed.

(** X8: [getSeasonByID] likewise answers with a season of the catalog that
    carries the requested id, and nil only when no season does. *)
Theorem getSeasonByID_found_in_catalog
    (Collections : list collection.Collection) (seasonId : string) :
  match Legacy.getSeasonByID Collections seasonId with
  | Some (c, i, s) =>
      In c Collections /\ In i (collection.c_Items c)
      /\ In s (collection.i_Seasons i)
      /\ collection.s_Id s = TrimPrefix seasonId Legacy.itemprefix_season
  | None =>
      forall c i s,
        In c Collections -> In i (collection.c_Items c) ->
        In s (collection.i_Seasons i) ->
        collection.s_Id s <> TrimPrefix seasonId Legacy.itemprefix_season
  end.
Proof.
  unfold Legacy.getSeasonByID.
  set (target := TrimPrefix seasonId Legacy.itemprefix_season).
  destruct (find_map _ Collections) as [[[c i] s]|] eqn:Hfind.
  - apply find_map_Some in Hfind as (c' & Hc & Hfind).
    apply find_map_Some in Hfind as (i' & Hi & Hfind).
    apply find_map_Some in Hfind as (s' & Hs & Hfind).
    destruct (String.eqb_spec (collection.s_Id s') target); [|discriminate].
    injection Hfind as <- <- <-. auto.
  - intros c i s Hc Hi Hs Hid.
    pose proof (find_map_None _ _ Hfind c Hc) as Hfind1.
    pose proof (find_map_None _ _ Hfind1 i Hi) as Hfind2.
    pose proof (find_map_None _ _ Hfind2 s Hs) as Hfind3.
    simpl in Hfind3. apply String.eqb_eq in Hid. now rewrite Hid in Hfind3.
Qed.

(** X9: an episode is found under its bare id and under its prefixed id
    alike, provided the bare id does not itself begin with the episode
    prefix. *)
Theorem getEpisodeByID_prefix_optional
    (Collections : list collection.Collection) (id : string)
    (Hbare : HasPrefix id Legacy.itemprefix_episode = false) :
  Legacy.getEpisodeByID Collections (Legacy.itemprefix_episode +:+ id)
  = Legacy.getEpisodeByID Collections id.
Proof.
  unfold Legacy.getEpisodeByID.
  rewrite TrimPrefix_append.
  unfold TrimPrefix at 1. now rewrite Hbare.
Qed.

Section LookupExamples.
Import Sample.

Lemma decode_only_encoded_witness :
  "season_s1" = JF.encode JF.PSeason "s1"
  /\ free_of JF.itemprefix_separator "s1" = true.
Proof. apply (decode_only_encoded "season_s1" JF.PSeason "s1"). reflexivity. Defined.

Lemma getEpisodeByID_prefix_optional_witness :
  Legacy.getEpisodeByID catalog "episode_e1" = Legacy.getEpisodeByID catalog "e1".
Proof.
  apply (getEpisodeByID_prefix_optional catalog "e1"). reflexivity.
Defined.

(** An episode whose own id begins with the prefix is found under its
    prefixed id only. *)
Example episode_id_with_prefix :
  let e := collection.mkEpisode "episode_x" "v.mp4" "t.jpg" 0 None "" in
  let cs :=
    [collection.mkCollection "Shows" "shows" 2 "/s"
       [collection.mkItem "show" "Show" collection.ItemTypeShow 0 "" "" ""
          None "" [collection.mkSeason "s" 1 "" [e]]]] in
  Legacy.getEpisodeByID cs "episode_x" = None
  /\ exists c i s, Legacy.getEpisodeByID cs "episode_episode_x" = Some (c, i, s, e).
Proof. split; [reflexivity | now eexists _, _, _]. Qed.

End LookupExamples.

(** ** More on the metadata enricher *)

Section EnricherFacts.
Context `{Externals}.
Import Legacy.

(** X10: the merge writes only the fields it names: identity, series, critic
    rating, creation date, location, container, image tags and media sources
    of the record are those it had before, whatever the descriptor. *)
Theorem enrich_keeps_other_fields (response : JFItem) (n : option Nfo) :
  ID (enrichResponseWithNFO response n) = ID response
  /\ Etag (enrichResponseWithNFO response n) = Etag response
  /\ ServerID (enrichResponseWithNFO response n) = ServerID response
  /\ Type_ (enrichResponseWithNFO response n) = Type_ response
  /\ SeriesName (enrichResponseWithNFO response n) = SeriesName response
  /\ SeriesID (enrichResponseWithNFO response n) = SeriesID response
  /\ CriticRating (enrichResponseWithNFO response n) = CriticRating response
  /\ DateCreated (enrichResponseWithNFO response n) = DateCreated response
  /\ LocationType (enrichResponseWithNFO response n) = LocationType response
  /\ Path (enrichResponseWithNFO response n) = Path response
  /\ IsFolder (enrichResponseWithNFO response n) = IsFolder response
  /\ MediaType (enrichResponseWithNFO response n) = MediaType response
  /\ VideoType (enrichResponseWithNFO response n) = VideoType response
  /\ Container (enrichResponseWithNFO response n) = Container response
  /\ HasSubtitles (enrichResponseWithNFO response n) = HasSubtitles response
  /\ ImageTags (enrichResponseWithNFO response n) = ImageTags response
  /\ MediaSources (enrichResponseWithNFO response n) = MediaSources response.
Proof.
  destruct n as [n|]; [rewrite enrichResponseWithNFO_fields|];
    simpl; repeat split.
Qed.

Lemma genres_nonempty (n : Nfo) :
  Genre n <> [] -> negb (length (Genre n) =? 0)%nat = true.
Proof. destruct (Genre n); [contradiction | reflexivity]. Qed.

(** X11: on a record without genre items, a descriptor with genres leaves
    the genre items naming exactly the genres of the record.  A second
    descriptor with genres replaces the genres but appends to the genre
    items, which then list the genres of both descriptors. *)
Theorem genre_items_accumulate (response : JFItem) (n1 n2 : Nfo)
    (Hfirst : Genre n1 <> []) (Hsecond : Genre n2 <> []) :
  (GenreItems response = [] ->
   List.map genre_Name (GenreItems (enrichResponseWithNFO response (Some n1)))
   = Genres (enrichResponseWithNFO response (Some n1)))
  /\ Genres (enrichResponseWithNFO
               (enrichResponseWithNFO response (Some n1)) (Some n2))
     = normalizeGenres (Genre n2)
  /\ GenreItems (enrichResponseWithNFO
                   (enrichResponseWithNFO response (Some n1)) (Some n2))
     = GenreItems response
       ++ List.map (fun genre => mkJFGenreItems genre (idHash genre))
            (normalizeGenres (Genre n1))
       ++ List.map (fun genre => mkJFGenreItems genre (idHash genre))
            (normalizeGenres (Genre n2)).
Proof.
  rewrite !enrichResponseWithNFO_fields. simpl.
  rewrite !genres_nonempty by assumption. split; [|split].
  - intros ->. simpl. rewrite List.map_map. simpl. apply List.map_id.
  - reflexivity.
  - now rewrite <- app_assoc.
Qed.


(** X13: the premiere date of the merged record is the aired date when that
    is present and parses; otherwise the premiered date when that is present
    and parses; otherwise the date the record had. *)
Theorem premiere_date_precedence (response : JFItem) (n : Nfo) :
  (forall t, Aired n <> "" -> parseTime (Aired n) = Some t ->
     PremiereDate (enrichResponseWithNFO response (Some n)) = t)
  /\ (forall t, Aired n = "" \/ parseTime (Aired n) = None ->
        Premiered n <> "" -> parseTime (Premiered n) = Some t ->
        PremiereDate (enrichResponseWithNFO response (Some n)) = t)
  /\ (Aired n = "" \/ parseTime (Aired n) = None ->
      Premiered n = "" \/ parseTime (Premiered n) = None ->
      PremiereDate (enrichResponseWithNFO response (Some n))
      = PremiereDate response).
Proof.
  rewrite enrichResponseWithNFO_fields. simpl.
  unfold merged_premiere, nonempty.
  destruct (String.eqb_spec (Aired n) "") as [Ha|Ha];
    destruct (String.eqb_spec (Premiered n) "") as [Hp|Hp];
    destruct (parseTime (Aired n)) as [ta|];
    destruct (parseTime (Premiered n)) as [tp|]; simpl;
    repeat split; intros; try congruence; intuition congruence.
Qed.


(** X15: [buildJFItemEpisode] answers "could not find episode" exactly when
    no episode of the catalog carries the id.  When the episode is found and
    its media source is synthesized, the record keeps the id it was asked
    for, prefix included, is tagged with the hash of that id, names the show
    as its series, and holds exactly one media source. *)
Theorem episode_record_identity
    (Collections : list collection.Collection) (episodeid : string) :
  (buildJFItemEpisode Collections episodeid
   = Return (Error "could not find episode") []
   <-> getEpisodeByID Collections episodeid = None)
  /\ (forall c show s episode,
        getEpisodeByID Collections episodeid = Some (c, show, s, episode) ->
        (forall details,
            stream_details
              (lazyLoadNFO (collection.e_Nfo episode)
                 (collection.e_NfoPath episode)) = Some details ->
            (3 <= String.length (a_Language (Audio details)))%nat) ->
        exists item source log,
          buildJFItemEpisode Collections episodeid = Return (Ok item) log
          /\ ID item = episodeid
          /\ Etag item = idHash episodeid
          /\ Type_ item = "Episode"
          /\ SeriesName item = collection.i_Name show
          /\ SeriesID item = idHash (collection.i_Name show)
          /\ MediaSources item = [source]
          /\ src_Name source = GoPath.Base (collection.e_Video episode)).
Proof.
  split.
  - unfold buildJFItemEpisode.
    destruct (getEpisodeByID Collections episodeid) as [[[[c show] s] episode]|];
      [|tauto].
    split; [|discriminate]. cbv zeta.
    destruct (buildMediaSource _ _); simpl; discriminate.
  - intros c show s episode Hfound Hlang.
    unfold buildJFItemEpisode. rewrite Hfound. cbv zeta.
    set (en := lazyLoadNFO (collection.e_Nfo episode) (collection.e_NfoPath episode))
      in *.
    assert (Hsrc : exists source log,
               buildMediaSource (collection.e_Video episode) en
               = Return [source] log
               /\ src_Name source = GoPath.Base (collection.e_Video episode)).
    { destruct (stream_details en) as [details|] eqn:Hd.
      - pose proof (Hlang details eq_refl) as Hlen.
        unfold buildMediaSource. rewrite Hd.
        rewrite slice_string_ok by assumption.
        destruct (String.eqb _ "x264" || String.eqb _ "h264");
          [| destruct (String.eqb _ "hevc")];
          destruct (a_Channels (Audio details) =? 2)%Z;
          try destruct (a_Channels (Audio details) =? 6)%Z;
          destruct (String.eqb (ToLower (a_Codec (Audio details))) "ac3");
          try destruct (String.eqb (ToLower (a_Codec (Audio details))) "aac");
          simpl; eexists _, _; (split; [reflexivity|]); reflexivity.
      - unfold buildMediaSource. rewrite Hd. eexists _, _.
        split; reflexivity. }
    destruct Hsrc as (source & log & Hsrc & Hname). rewrite Hsrc.
    destruct en as [en|];
      destruct (lazyLoadNFO (collection.i_Nfo show) (collection.i_NfoPath show))
        as [sn|];
      rewrite ?enrichResponseWithNFO_fields;
      eexists _, source, _; (split; [reflexivity|]); simpl;
      repeat split; exact Hname.
Qed.

End EnricherFacts.

Section EnricherFactsExamples.
Import Sample MoreSamples.

Lemma genre_items_accumulate_witness :
  Genres (Legacy.enrichResponseWithNFO
            (Legacy.enrichResponseWithNFO (item "x" "X" "" 0 0)
               (Some (genre_nfo ["Drama"])))
            (Some (genre_nfo ["Comedy"])))
  = ["Comedy"]
  /\ GenreItems (Legacy.enrichResponseWithNFO
                   (Legacy.enrichResponseWithNFO (item "x" "X" "" 0 0)
                      (Some (genre_nfo ["Drama"])))
                   (Some (genre_nfo ["Comedy"])))
     = [mkJFGenreItems "Drama" "#Drama"; mkJFGenreItems "Comedy" "#Comedy"].
Proof.
  destruct (genre_items_accumulate (item "x" "X" "" 0 0)
              (genre_nfo ["Drama"]) (genre_nfo ["Comedy"]))
    as (_ & Hgenres & Hitems); [discriminate | discriminate |].
  split; [exact Hgenres | exact Hitems].
Defined.


(** A season number out of the 64-bit range is stored as the largest
    integer. *)
Example season_out_of_range :
  ParentIndexNumber
    (Legacy.enrichResponseWithNFO (item "x" "X" "" 0 0)
       (Some (season_nfo "99999999999999999999" "")))
  = 9223372036854775807.
Proof. vm_compute. reflexivity. Qed.

End EnricherFactsExamples.

(** ** More on the media source synthesizer *)

Section MediaSourceFacts.
Context `{Externals}.
Import Legacy.

(** The synthesized source, stream by stream. *)
Lemma buildMediaSource_detail (filename : string) (n : option Nfo)
    (details : NfoStreamDetails) :
  stream_details n = Some details ->
  (3 <= String.length (a_Language (Audio details)))%nat ->
  exists source video audio log,
    buildMediaSource filename n = Return [source] log
    /\ src_MediaStreams source = [video; audio]
    /\ src_Bitrate source = v_Bitrate (Video details)
    /\ src_RunTimeTicks source
       = GoMath.wrap64
           (GoMath.wrap64 (v_DurationInSeconds (Video details)) * 10000000)
    /\ ms_Language video = String.substring 0 3 (a_Language (Audio details))
    /\ ms_Language audio = String.substring 0 3 (a_Language (Audio details))
    /\ ms_Channels audio = a_Channels (Audio details)
    /\ ms_BitRate audio = a_Bitrate (Audio details)
    /\ (ms_Title audio, ms_ChannelLayout audio)
       = (if (a_Channels (Audio details) =? 2)%Z then ("Stereo", "stereo")
          else if (a_Channels (Audio details) =? 6)%Z then ("5.1 Channel", "5.1")
          else ("", ""))
    /\ (ms_Codec audio, ms_CodecTag audio)
       = (if String.eqb (ToLower (a_Codec (Audio details))) "ac3"
          then ("ac3", "ac-3")
          else if String.eqb (ToLower (a_Codec (Audio details))) "aac"
          then ("aac", "mp4a")
          else ("", ""))
    /\ ms_DisplayTitle audio
       = ms_Title audio +:+ " - " +:+ ToUpper (ms_Codec audio)
    /\ log
       = (if String.eqb (ToLower (v_Codec (Video details))) "x264"
             || String.eqb (ToLower (v_Codec (Video details))) "h264"
             || String.eqb (ToLower (v_Codec (Video details))) "hevc"
          then []
          else ["Nfo of " +:+ filename +:+ " has unknown video codec "
                +:+ v_Codec (Video details)])
         ++ (if (a_Channels (Audio details) =? 2)%Z
                || (a_Channels (Audio details) =? 6)%Z
             then []
             else ["Nfo of " +:+ filename
                   +:+ " has unknown audio channel configuration "
                   +:+ FormatInt (a_Channels (Audio details))])
         ++ (if String.eqb (ToLower (a_Codec (Audio details))) "ac3"
                || String.eqb (ToLower (a_Codec (Audio details))) "aac"
             then []
             else ["Nfo of " +:+ filename +:+ " has unknown audio codec "
                   +:+ a_Codec (Audio details)]).
Proof.
  intros Hd Hlen. unfold buildMediaSource.
  rewrite Hd. rewrite slice_string_ok by assumption.
  destruct (String.eqb (ToLower (v_Codec (Video details))) "x264");
    destruct (String.eqb (ToLower (v_Codec (Video details))) "h264");
    destruct (String.eqb (ToLower (v_Codec (Video details))) "hevc");
    destruct (a_Channels (Audio details) =? 2)%Z;
    destruct (a_Channels (Audio details) =? 6)%Z;
    destruct (String.eqb (ToLower (a_Codec (Audio details))) "ac3");
    destruct (String.eqb (ToLower (a_Codec (Audio details))) "aac");
    simpl; do 4 eexists; (split; [reflexivity|]);
    simpl; repeat split.
Qed.

(** X16: the run time of the synthesized source is the duration in seconds
    times 10,000,000 ticks, for every duration a 64-bit tick count can hold,
    and its bitrate is the one of the video details. *)
Theorem run_time_in_ticks (filename : string) (n : option Nfo)
    (details : NfoStreamDetails)
    (Hd : stream_details n = Some details)
    (Hlen : (3 <= String.length (a_Language (Audio details)))%nat)
    (Hrange : 0 <= v_DurationInSeconds (Video details) <= 922337203685) :
  exists source log,
    buildMediaSource filename n = Return [source] log
    /\ src_RunTimeTicks source = v_DurationInSeconds (Video details) * 10000000
    /\ src_Bitrate source = v_Bitrate (Video details).
Proof.
  destruct (buildMediaSource_detail filename n details Hd Hlen)
    as (source & video & audio & log & Hret & _ & Hbit & Hticks & _).
  exists source, log. split; [exact Hret|]. split; [|exact Hbit].
  rewrite Hticks. unfold GoMath.wrap64.
  rewrite (Z.mod_small (v_DurationInSeconds (Video details) + 2 ^ 63)) by lia.
  replace (v_DurationInSeconds (Video details) + 2 ^ 63 - 2 ^ 63)
    with (v_DurationInSeconds (Video details)) by lia.
  rewrite Z.mod_small by lia. lia.
Qed.

(** X17: the audio stream copies the channel count and bitrate; two channels
    are titled Stereo with layout stereo and six 5.1 Channel with layout 5.1,
    any other count has no title and no layout.  A codec that lowers to ac3 or
    aac is normalized (tags ac-3 and mp4a); any other audio codec is not
    passed through: the stream's codec and tag stay empty.  The display title
    is the title, " - " and the upper-cased codec. *)
Theorem audio_stream_lookup (filename : string) (n : option Nfo)
    (details : NfoStreamDetails)
    (Hd : stream_details n = Some details)
    (Hlen : (3 <= String.length (a_Language (Audio details)))%nat) :
  exists source video audio log,
    buildMediaSource filename n = Return [source] log
    /\ src_MediaStreams source = [video; audio]
    /\ ms_Channels audio = a_Channels (Audio details)
    /\ ms_BitRate audio = a_Bitrate (Audio details)
    /\ (a_Channels (Audio details) = 2 ->
        ms_Title audio = "Stereo" /\ ms_ChannelLayout audio = "stereo")
    /\ (a_Channels (Audio details) = 6 ->
        ms_Title audio = "5.1 Channel" /\ ms_ChannelLayout audio = "5.1")
    /\ (a_Channels (Audio details) <> 2 -> a_Channels (Audio details) <> 6 ->
        ms_Title audio = "" /\ ms_ChannelLayout audio = "")
    /\ (ToLower (a_Codec (Audio details)) = "ac3" ->
        ms_Codec audio = "ac3" /\ ms_CodecTag audio = "ac-3")
    /\ (ToLower (a_Codec (Audio details)) = "aac" ->
        ms_Codec audio = "aac" /\ ms_CodecTag audio = "mp4a")
    /\ (ToLower (a_Codec (Audio details)) <> "ac3" ->
        ToLower (a_Codec (Audio details)) <> "aac" ->
        ms_Codec audio = "" /\ ms_CodecTag audio = "")
    /\ ms_DisplayTitle audio
       = ms_Title audio +:+ " - " +:+ ToUpper (ms_Codec audio).
Proof.
  destruct (buildMediaSource_detail filename n details Hd Hlen)
    as (source & video & audio & log & Hret & Hstreams & _ & _ & _ & _
        & Hch & Hbit & Htitle & Hcodec & Hdisplay & _).
  exists source, video, audio, log.
  split; [exact Hret|]. split; [exact Hstreams|].
  split; [exact Hch|]. split; [exact Hbit|].
  destruct (Z.eqb_spec (a_Channels (Audio details)) 2) as [E2|E2];
    destruct (Z.eqb_spec (a_Channels (Audio details)) 6) as [E6|E6];
    destruct (String.eqb_spec (ToLower (a_Codec (Audio details))) "ac3") as [Ea|Ea];
    destruct (String.eqb_spec (ToLower (a_Codec (Audio details))) "aac") as [Eb|Eb];
    injection Htitle as Ht Hl; injection Hcodec as Hc Hg;
    repeat split; intros; try congruence; try lia.
Qed.

(** X18: both streams carry the same language, the first three bytes of the
    descriptor's audio language. *)
Theorem streams_share_language (filename : string) (n : option Nfo)
    (details : NfoStreamDetails)
    (Hd : stream_details n = Some details)
    (Hlen : (3 <= String.length (a_Language (Audio details)))%nat) :
  exists source video audio log,
    buildMediaSource filename n = Return [source] log
    /\ src_MediaStreams source = [video; audio]
    /\ ms_Language video = ms_Language audio
    /\ String.length (ms_Language video) = 3%nat
    /\ String.prefix (ms_Language video) (a_Language (Audio details)) = true.
Proof.
  destruct (buildMediaSource_detail filename n details Hd Hlen)
    as (source & video & audio & log & Hret & Hstreams & _ & _ & Hv & Ha & _).
  exists source, video, audio, log.
  split; [exact Hret|]. split; [exact Hstreams|].
  split; [congruence|]. rewrite Hv.
  destruct (a_Language (Audio details)) as [|c1 [|c2 [|c3 rest]]];
    simpl in Hlen; try lia.
  split.
  - simpl. now destruct rest.
  - simpl. destruct rest; simpl;
      repeat match goal with
             | |- context [ascii_dec ?a ?a] => destruct (ascii_dec a a)
             end; try reflexivity; try contradiction.
Qed.


End MediaSourceFacts.

Section MediaSourceFactsExamples.
Import Sample.

Lemma run_time_in_ticks_witness :
  exists source log,
    Legacy.buildMediaSource "a.mkv"
      (Some (nfo "t" "" 0 (Some (details "h264" "eng"))))
    = Return [source] log
    /\ src_RunTimeTicks source = 60 * 10000000
    /\ src_Bitrate source = 4000.
Proof.
  apply (run_time_in_ticks "a.mkv"
           (Some (nfo "t" "" 0 (Some (details "h264" "eng"))))
           (details "h264" "eng") eq_refl); simpl; lia.
Defined.

Lemma audio_stream_lookup_witness :
  exists source video audio log,
    Legacy.buildMediaSource "a.mkv"
      (Some (nfo "t" "" 0 (Some (details "h264" "eng"))))
    = Return [source] log
    /\ src_MediaStreams source = [video; audio]
    /\ ms_Title audio = "Stereo"
    /\ ms_Codec audio = "aac"
    /\ ms_DisplayTitle audio = ms_Title audio +:+ " - " +:+ ToUpper (ms_Codec audio).
Proof.
  destruct (audio_stream_lookup "a.mkv"
              (Some (nfo "t" "" 0 (Some (details "h264" "eng"))))
              (details "h264" "eng") eq_refl)
    as (source & video & audio & log & Hret & Hstreams & _ & _ & Hstereo & _ & _
        & _ & Haac & _ & Hdisplay).
  - simpl. lia.
  - exists source, video, audio, log.
    split; [exact Hret|]. split; [exact Hstreams|].
    split; [apply Hstereo; reflexivity|].
    split; [apply Haac; reflexivity | exact Hdisplay].
Defined.

Lemma streams_share_language_witness :
  exists source video audio log,
    Legacy.buildMediaSource "a.mkv"
      (Some (nfo "t" "" 0 (Some (details "h264" "english"))))
    = Return [source] log
    /\ src_MediaStreams source = [video; audio]
    /\ ms_Language video = ms_Language audio
    /\ String.length (ms_Language video) = 3%nat.
Proof.
  destruct (streams_share_language "a.mkv"
              (Some (nfo "t" "" 0 (Some (details "h264" "english"))))
              (details "h264" "english") eq_refl)
    as (source & video & audio & log & Hret & Hstreams & Hsame & Hthree & _).
  - simpl. lia.
  - now exists source, video, audio, log.
Defined.


(** An audio codec outside the lookup is dropped, not passed through. *)
Example unknown_audio_codec_dropped :
  match Legacy.buildMediaSource "a.mkv"
          (Some (nfo "t" "" 0
                   (Some {| Video := Video (details "h264" "eng");
                            Audio := mkNfoAudio "eng" 640 6 "dts" |}))) with
  | Return [source] log =>
      List.map (fun st => (ms_Codec st, ms_DisplayTitle st)) (src_MediaStreams source)
      = [("h264", ""); ("", "5.1 Channel - ")]
      /\ log = ["Nfo of a.mkv has unknown audio codec dts"]
  | _ => False
  end.
Proof. vm_compute. split; reflexivity. Qed.

End MediaSourceFactsExamples.

(** ** More on the sort stage *)

Section SortInvariant.
Context {A : Type}.
Variable less : nat -> nat -> list A -> Go (bool * list A).
Variable R : list A -> list A -> Prop.
Hypothesis R_refl : forall data, R data data.
Hypothesis R_trans : forall a b c, R a b -> R b c -> R a c.
Hypothesis less_R : forall j data,
  (S j < length data)%nat ->
  exists b data' log,
    less (S j) j data = Return (b, data') log
    /\ length data' = length data
    /\ R data data'
    /\ (b = true -> R data (swap (S j) j data')).




End SortInvariant.


Section SortingFacts.
Context `{Externals} `{Jellyfin}.
Import JF.




End SortingFacts.

Section UnknownKeys.
Context `{Externals} `{Jellyfin}.
Import JF.




End UnknownKeys.

Section UnknownKeysExamples.
Import Sample.


End UnknownKeysExamples.

(** *** The order of strings *)

Lemma nat_of_ascii_inj (a b : ascii) : nat_of_ascii a = nat_of_ascii b -> a = b.
Proof.
  intros Hab. rewrite <- (ascii_nat_embedding a), <- (ascii_nat_embedding b).
  now rewrite Hab.
Qed.

Lemma string_ltb_total (s t : string) :
  string_ltb s t = false -> string_ltb t s = false -> s = t.
Proof.
  revert t. induction s as [|a s IH]; intros [|b t]; simpl; try discriminate;
    [reflexivity|].
  destruct (Nat.ltb_spec (nat_of_ascii a) (nat_of_ascii b));
    destruct (Nat.ltb_spec (nat_of_ascii b) (nat_of_ascii a));
    try discriminate; try lia.
  intros Hst Hts. f_equal; [apply nat_of_ascii_inj; lia | now apply IH].
Qed.

Lemma string_ltb_asym (s t : string) :
  string_ltb s t = true -> string_ltb t s = false.
Proof.
  revert t. induction s as [|a s IH]; intros [|b t]; simpl; try discriminate;
    try reflexivity.
  destruct (Nat.ltb_spec (nat_of_ascii a) (nat_of_ascii b));
    destruct (Nat.ltb_spec (nat_of_ascii b) (nat_of_ascii a));
    try discriminate; try lia; try reflexivity.
  apply IH.
Qed.

Lemma string_ltb_trans (s t u : string) :
  string_ltb s t = true -> string_ltb t u = true -> string_ltb s u = true.
Proof.
  revert t u. induction s as [|a s IH]; intros [|b t] [|c u]; simpl;
    try discriminate; try reflexivity.
  destruct (Nat.ltb_spec (nat_of_ascii a) (nat_of_ascii b));
    destruct (Nat.ltb_spec (nat_of_ascii b) (nat_of_ascii a));
    destruct (Nat.ltb_spec (nat_of_ascii b) (nat_of_ascii c));
    destruct (Nat.ltb_spec (nat_of_ascii c) (nat_of_ascii b));
    destruct (Nat.ltb_spec (nat_of_ascii a) (nat_of_ascii c));
    destruct (Nat.ltb_spec (nat_of_ascii c) (nat_of_ascii a));
    try discriminate; try lia; try reflexivity.
  apply IH.
Qed.

Lemma string_ltb_irrefl (s : string) : string_ltb s s = false.
Proof.
  induction s as [|a s IH]; simpl; [reflexivity|].
  now rewrite Nat.ltb_irrefl.
Qed.

(** *** A key that decides, then the rest *)

Section Lexicographic.
Context {A : Type}.
Variables ne lt rest : A -> A -> bool.

Hypothesis ne_sym : forall x y, ne x y = ne y x.
Hypothesis eq_trans : forall x y z,
  ne x y = false -> ne y z = false -> ne x z = false.
Hypothesis lt_total : forall x y, ne x y = true -> lt x y = true \/ lt y x = true.
Hypothesis lt_asym : forall x y, lt x y = true -> lt y x = false.
Hypothesis lt_trans : forall x y z,
  lt x y = true -> lt y z = true -> lt x z = true.
Hypothesis lt_ne : forall x y, lt x y = true -> ne x y = true.
Hypothesis lt_compat : forall x y z,
  ne x y = false -> lt x z = lt y z /\ lt z x = lt z y.

Lemma key_then_rest_asym :
  (forall x y, rest x y = true -> rest y x = false) ->
  forall x y, key_then_rest ne lt rest x y = true -> key_then_rest ne lt rest y x = false.
Proof.
  intros rest_asym x y. unfold key_then_rest. rewrite (ne_sym y x).
  destruct (ne x y); [apply lt_asym | apply rest_asym].
Qed.

Lemma key_then_rest_le_trans :
  (forall x y z, rest y x = false -> rest z y = false -> rest z x = false) ->
  forall x y z,
    key_then_rest ne lt rest y x = false -> key_then_rest ne lt rest z y = false ->
    key_then_rest ne lt rest z x = false.
Proof.
  intros rest_trans x y z. unfold key_then_rest. intros Hyx Hzy.
  destruct (ne z x) eqn:Nzx.
  - destruct (lt z x) eqn:Lzx; [|reflexivity]. exfalso.
    destruct (ne y x) eqn:Nyx.
    + destruct (lt_total y x Nyx) as [L|L]; [congruence|].
      pose proof (lt_trans z x y Lzx L) as Lzy.
      rewrite (lt_ne z y Lzy) in Hzy. congruence.
    + rewrite ne_sym in Nyx.
      destruct (lt_compat x y z Nyx) as [_ Hc]. rewrite Hc in Lzx.
      rewrite (lt_ne z y Lzx) in Hzy. congruence.
  - destruct (ne y x) eqn:Nyx.
    + exfalso. destruct (lt_total y x Nyx) as [L|L]; [congruence|].
      rewrite ne_sym in Nzx.
      destruct (lt_compat x z y Nzx) as [Hc _]. rewrite Hc in L.
      rewrite (lt_ne z y L) in Hzy. congruence.
    + assert (Nzy : ne z y = false).
      { apply (eq_trans z x y); [exact Nzx | now rewrite ne_sym]. }
      rewrite Nzy in Hzy. now apply (rest_trans x y z).
Qed.

End Lexicographic.

(** *** The stable insertion sort by any comparison *)

Section StableSortBy.
Context {A : Type}.
Variable lt : A -> A -> bool.

Lemma insert_back_perm (x : A) (rp : list A) : insert_back lt x rp ≡ₚ x :: rp.
Proof.
  induction rp as [|y rp IH]; simpl; [reflexivity|].
  destruct (lt x y); [|reflexivity].
  rewrite IH. apply Permutation_swap.
Qed.

Lemma fold_insert_perm (l acc : list A) :
  fold_left (fun rp x => insert_back lt x rp) l acc ≡ₚ l ++ acc.
Proof.
  revert acc. induction l as [|x l IH]; intros acc; simpl; [reflexivity|].
  rewrite IH, insert_back_perm. now rewrite Permutation_middle.
Qed.

Lemma stable_sort_perm (l : list A) : stable_sort lt l ≡ₚ l.
Proof.
  unfold stable_sort. rewrite reverse_Permutation, fold_insert_perm.
  now rewrite app_nil_r.
Qed.

Hypothesis lt_asym : forall x y, lt x y = true -> lt y x = false.
Hypothesis le_trans : forall x y z,
  lt y x = false -> lt z y = false -> lt z x = false.

Lemma insert_back_sorted (x : A) (rp : list A) :
  Sorted (fun a b => lt a b = false) rp ->
  Sorted (fun a b => lt a b = false) (insert_back lt x rp).
Proof.
  induction 1 as [|y rp Hsorted IH Hhd]; simpl.
  - repeat constructor.
  - destruct (lt x y) eqn:Hxy.
    + constructor; [exact IH|].
      destruct rp as [|z rp]; simpl.
      * constructor. now apply lt_asym.
      * destruct (lt x z); constructor;
          [now inversion Hhd | now apply lt_asym].
    + constructor; [now constructor | now constructor].
Qed.

Lemma fold_insert_sorted (l acc : list A) :
  Sorted (fun a b => lt a b = false) acc ->
  Sorted (fun a b => lt a b = false)
    (fold_left (fun rp x => insert_back lt x rp) l acc).
Proof.
  revert acc. induction l as [|x l IH]; intros acc Hacc; simpl; [exact Hacc|].
  apply IH, insert_back_sorted, Hacc.
Qed.

(** No element of the sorted list is less than an element before it. *)
Lemma stable_sort_sorted (l : list A) :
  StronglySorted (fun a b => lt b a = false) (stable_sort lt l).
Proof.
  apply Sorted_StronglySorted.
  - intros a b c Hab Hbc. now apply (le_trans a b c).
  - unfold stable_sort.
    apply (Sorted_reverse (fun a b => lt a b = false)).
    apply fold_insert_sorted. constructor.
Qed.

(** Elements none of which is less than another keep their order. *)
Lemma insert_back_keeps_order (Q : A -> Prop) `{forall a, Decision (Q a)}
    (x : A) (rp : list A) :
  (forall a b, Q a -> Q b -> lt a b = false) ->
  filter Q (reverse (insert_back lt x rp)) = filter Q (reverse rp ++ [x]).
Proof.
  intros HQ. induction rp as [|y rp IH]; cbn [insert_back]; [reflexivity|].
  destruct (lt x y) eqn:Hxy.
  - rewrite !reverse_cons, !filter_app, IH, !filter_app, <- !app_assoc.
    f_equal. rewrite !filter_cons, !filter_nil.
    destruct (decide (Q x)) as [Qx|], (decide (Q y)) as [Qy|]; simpl;
      try reflexivity.
    rewrite (HQ x y Qx Qy) in Hxy. discriminate.
  - rewrite !reverse_cons. reflexivity.
Qed.

Lemma stable_sort_keeps_order (Q : A -> Prop) `{forall a, Decision (Q a)}
    (l : list A) :
  (forall a b, Q a -> Q b -> lt a b = false) ->
  filter Q (stable_sort lt l) = filter Q l.
Proof.
  intros HQ. unfold stable_sort.
  assert (Hgen : forall acc,
    filter Q (reverse (fold_left (fun rp x => insert_back lt x rp) l acc))
    = filter Q (reverse acc ++ l)).
  { induction l as [|x l IH]; intros acc; simpl.
    - now rewrite app_nil_r.
    - rewrite IH.
      replace (reverse acc ++ x :: l) with ((reverse acc ++ [x]) ++ l)
        by now rewrite <- app_assoc.
      rewrite (filter_app _ (reverse (insert_back lt x acc)) l).
      rewrite insert_back_keeps_order by assumption.
      now rewrite (filter_app _ (reverse acc ++ [x]) l). }
  apply Hgen.
Qed.

End StableSortBy.

(** *** A comparison without effects on the slices that satisfy an invariant *)

Section SortPureOn.
Context {A : Type}.
Variable P : A -> Prop.
Variable lt : A -> A -> bool.
Variable less : nat -> nat -> list A -> Go (bool * list A).
Hypothesis less_pure : forall i j data x y,
  Forall P data -> data !! i = Some x -> data !! j = Some y ->
  less i j data = Return (lt x y, data) [].

Lemma insertion_inner_pure_on (p : list A) (x : A) (rest : list A) :
  Forall P (p ++ x :: rest) ->
  insertion_inner less 0 (length p) (p ++ x :: rest)
  = Return (reverse (insert_back lt x (reverse p)) ++ rest) [].
Proof.
  revert rest. induction p as [|y p IH] using rev_ind; intros rest HP.
  - reflexivity.
  - rewrite length_app, Nat.add_1_r. simpl.
    rewrite (less_pure (S (length p)) (length p) _ x y HP).
    + rewrite bind_Return_nil. rewrite reverse_snoc. simpl.
      destruct (lt x y).
      * rewrite <- app_assoc. simpl. rewrite swap_adjacent.
        rewrite IH.
        -- rewrite reverse_cons. now rewrite <- app_assoc.
        -- rewrite <- app_assoc in HP. simpl in HP.
           rewrite !Forall_app, !Forall_cons in *. tauto.
      * rewrite !reverse_cons, reverse_involutive.
        now rewrite <- (app_assoc (p ++ [y]) [x] rest).
    + apply list_lookup_middle. rewrite length_app. simpl. lia.
    + rewrite <- app_assoc. simpl. now apply list_lookup_middle.
Qed.

Lemma insertion_outer_pure_on (todo acc : list A) :
  Forall P (reverse acc ++ todo) ->
  insertion_outer less 0 (length acc) (length todo) (reverse acc ++ todo)
  = Return (reverse (fold_left (fun rp x => insert_back lt x rp) todo acc)) [].
Proof.
  revert acc. induction todo as [|x todo IH]; intros acc HP; simpl.
  - now rewrite app_nil_r.
  - rewrite <- (length_reverse acc) at 1.
    rewrite insertion_inner_pure_on by exact HP.
    rewrite bind_Return_nil, reverse_involutive.
    rewrite <- (insert_back_length lt x acc). apply IH.
    rewrite Forall_app, Forall_cons in HP. destruct HP as (Hacc & Hx & Htodo).
    rewrite Forall_app. split; [|exact Htodo].
    rewrite Forall_reverse in *.
    rewrite (insert_back_perm lt x acc). now constructor.
Qed.

Lemma SliceStable_pure_on (data : list A) :
  Forall P data -> SliceStable less data = Return (stable_sort lt data) [].
Proof.
  intros HP. unfold SliceStable, insertionSort, stable_sort.
  destruct data as [|x data]; [reflexivity|].
  simpl. rewrite Nat.sub_0_r.
  apply (insertion_outer_pure_on data [x]). exact HP.
Qed.

End SortPureOn.

(** *** The comparison of the sort stage is a strict weak order *)

Section KeyOrders.
Context {A : Type}.

Lemma Z_key_order (k : A -> Z) (desc : bool) (rest : A -> A -> bool) :
  let ne x y := negb (k x =? k y)%Z in
  let lt x y := if desc then (k y <? k x)%Z else (k x <? k y)%Z in
  ((forall x y, rest x y = true -> rest y x = false) ->
   forall x y, key_then_rest ne lt rest x y = true ->
               key_then_rest ne lt rest y x = false)
  /\ ((forall x y z, rest y x = false -> rest z y = false -> rest z x = false) ->
      forall x y z,
        key_then_rest ne lt rest y x = false ->
        key_then_rest ne lt rest z y = false ->
        key_then_rest ne lt rest z x = false).
Proof.
  intros ne lt. split.
  - apply key_then_rest_asym; subst ne lt; simpl; intros x y;
      destruct desc;
      repeat match goal with
             | |- context [(?a =? ?b)%Z] => destruct (Z.eqb_spec a b)
             | |- context [(?a <? ?b)%Z] => destruct (Z.ltb_spec a b)
             end; simpl; intros; try reflexivity; try discriminate; lia.
  - apply key_then_rest_le_trans; subst ne lt; simpl; intros x y; try intros z;
      destruct desc;
      repeat match goal with
             | |- context [(?a =? ?b)%Z] => destruct (Z.eqb_spec a b)
             | |- context [(?a <? ?b)%Z] => destruct (Z.ltb_spec a b)
             end; simpl; intros; try reflexivity; try discriminate;
      try (split; reflexivity); try tauto; try lia.
Qed.

Lemma string_key_order (k : A -> string) (desc : bool) (rest : A -> A -> bool) :
  let ne x y := negb (String.eqb (k x) (k y)) in
  let lt x y := if desc then string_ltb (k y) (k x) else string_ltb (k x) (k y) in
  ((forall x y, rest x y = true -> rest y x = false) ->
   forall x y, key_then_rest ne lt rest x y = true ->
               key_then_rest ne lt rest y x = false)
  /\ ((forall x y z, rest y x = false -> rest z y = false -> rest z x = false) ->
      forall x y z,
        key_then_rest ne lt rest y x = false ->
        key_then_rest ne lt rest z y = false ->
        key_then_rest ne lt rest z x = false).
Proof.
  intros ne lt.
  assert (ne_sym : forall x y, ne x y = ne y x).
  { intros x y. subst ne. simpl. now rewrite String.eqb_sym. }
  assert (eq_trans : forall x y z, ne x y = false -> ne y z = false -> ne x z = false).
  { intros x y z. subst ne. simpl.
    destruct (String.eqb_spec (k x) (k y)) as [->|]; [|discriminate].
    now destruct (String.eqb_spec (k y) (k z)). }
  assert (lt_total : forall x y, ne x y = true -> lt x y = true \/ lt y x = true).
  { intros x y. subst ne lt. simpl.
    destruct (String.eqb_spec (k x) (k y)) as [|Hne]; [discriminate|]. intros _.
    destruct (string_ltb (k x) (k y)) eqn:Hxy;
      destruct (string_ltb (k y) (k x)) eqn:Hyx; destruct desc; auto;
      exfalso; apply Hne; now apply string_ltb_total. }
  assert (lt_asym : forall x y, lt x y = true -> lt y x = false).
  { intros x y. subst lt. simpl. destruct desc; apply string_ltb_asym. }
  assert (lt_trans : forall x y z, lt x y = true -> lt y z = true -> lt x z = true).
  { intros x y z. subst lt. simpl. destruct desc; intros Hxy Hyz.
    - exact (string_ltb_trans _ _ _ Hyz Hxy).
    - exact (string_ltb_trans _ _ _ Hxy Hyz). }
  assert (lt_ne : forall x y, lt x y = true -> ne x y = true).
  { intros x y. subst ne lt. simpl.
    destruct (String.eqb_spec (k x) (k y)) as [->|]; [|reflexivity].
    destruct desc; now rewrite string_ltb_irrefl. }
  assert (lt_compat : forall x y z,
             ne x y = false -> lt x z = lt y z /\ lt z x = lt z y).
  { intros x y z. subst ne lt. simpl.
    destruct (String.eqb_spec (k x) (k y)) as [->|]; [|discriminate].
    intros _. now split. }
  split.
  - now apply key_then_rest_asym.
  - now apply key_then_rest_le_trans.
Qed.

Lemma Qle_bool_false (a b : Q) : Qle_bool a b = false -> (b < a)%Q.
Proof.
  intros Hle. apply Qnot_le_lt. intros Hab.
  apply Qle_bool_iff in Hab. congruence.
Qed.

Lemma Q_key_order (k : A -> Q) (desc : bool) (rest : A -> A -> bool) :
  let ne x y := negb (Qeq_bool (k x) (k y)) in
  let lt x y :=
    if desc then negb (Qle_bool (k x) (k y)) else negb (Qle_bool (k y) (k x)) in
  ((forall x y, rest x y = true -> rest y x = false) ->
   forall x y, key_then_rest ne lt rest x y = true ->
               key_then_rest ne lt rest y x = false)
  /\ ((forall x y z, rest y x = false -> rest z y = false -> rest z x = false) ->
      forall x y z,
        key_then_rest ne lt rest y x = false ->
        key_then_rest ne lt rest z y = false ->
        key_then_rest ne lt rest z x = false).
Proof.
  intros ne lt.
  split; [apply key_then_rest_asym | apply key_then_rest_le_trans];
    subst ne lt; simpl; intros; destruct desc;
    repeat match goal with H : @eq bool _ _ |- _ => revert H end;
    repeat match goal with
           | |- context [Qeq_bool ?a ?b] =>
               let E := fresh "E" in destruct (Qeq_bool a b) eqn:E;
               [apply Qeq_bool_iff in E | apply Qeq_bool_neq in E]
           | |- context [Qle_bool ?a ?b] =>
               let E := fresh "E" in destruct (Qle_bool a b) eqn:E;
               [apply Qle_bool_iff in E | apply Qle_bool_false in E]
           end; simpl; intros; try reflexivity; try discriminate;
    try (split; reflexivity); try tauto; try (exfalso; lra).
Qed.

End KeyOrders.

Lemma fields_lt_order (sortDescending : bool) (sortFields : list string) :
  (forall x y, fields_lt sortDescending sortFields x y = true ->
               fields_lt sortDescending sortFields y x = false)
  /\ (forall x y z,
        fields_lt sortDescending sortFields y x = false ->
        fields_lt sortDescending sortFields z y = false ->
        fields_lt sortDescending sortFields z x = false).
Proof.
  induction sortFields as [|field sortFields [IHa IHt]]; simpl.
  - split; [discriminate | reflexivity].
  - destruct (JF.is_sortname_key (ToLower field)).
    { destruct (string_key_order SortName sortDescending
                  (fields_lt sortDescending sortFields)) as [Ha Ht].
      split; [exact (Ha IHa) | exact (Ht IHt)]. }
    destruct (String.eqb (ToLower field) "productionyear").
    { destruct (Z_key_order ProductionYear sortDescending
                  (fields_lt sortDescending sortFields)) as [Ha Ht].
      split; [exact (Ha IHa) | exact (Ht IHt)]. }
    destruct (String.eqb (ToLower field) "criticrating").
    { destruct (Q_key_order CriticRating sortDescending
                  (fields_lt sortDescending sortFields)) as [Ha Ht].
      split; [exact (Ha IHa) | exact (Ht IHt)]. }
    split; [exact IHa | exact IHt].
Qed.

(** Among items that all have a sort name, and with known keys only, the
    comparison is the pure order [fields_lt] and writes nothing. *)
Lemma sorting_less_pure_on (sortBy : string) (sortDescending : bool)
    (sortFields : list string) (i j : nat) (items : list JFItem)
    (x y : JFItem) :
  (forall f, In f sortFields -> known_sort_key f = true) ->
  Forall (fun it => SortName it <> "") items ->
  items !! i = Some x -> items !! j = Some y ->
  JF.sorting_less sortBy sortDescending sortFields i j items
  = Return (fields_lt sortDescending sortFields x y, items) [].
Proof.
  intros Hknown Hnames Hx Hy.
  induction sortFields as [|field sortFields IH]; simpl; [reflexivity|].
  rewrite Hx.
  assert (Hsn : String.eqb (SortName x) "" = false).
  { apply String.eqb_neq. exact (proj1 (Forall_lookup _ _) Hnames i x Hx). }
  rewrite Hsn, Hx, Hy.
  specialize (IH (fun f Hf => Hknown f (or_intror Hf))).
  pose proof (Hknown field (or_introl eq_refl)) as Hk.
  unfold known_sort_key in Hk.
  destruct (JF.is_sortname_key (ToLower field)).
  { destruct (negb _); [now destruct sortDescending | exact IH]. }
  destruct (String.eqb (ToLower field) "productionyear").
  { destruct (negb _); [now destruct sortDescending | exact IH]. }
  destruct (String.eqb (ToLower field) "criticrating"); [|discriminate].
  destruct (negb _); [now destruct sortDescending | exact IH].
Qed.

(** X22: when every item has a sort name and every key of sortBy is a known
    one, the sort stage is the stable sort by the keys in the order given: it
    returns a permutation of the items, in which no item sorts before an item
    placed ahead of it (the first key on which two items differ decides,
    ascending unless sortOrder is Descending), and items none of which sorts
    before another keep their relative order; it writes no log line. *)
Theorem sorting_is_stable_lexicographic (items : list JFItem)
    (queryparams : gmap string (list string)) :
  let lt := fields_lt (String.eqb (Get queryparams "sortOrder") "Descending")
              (Split (Get queryparams "sortBy") ",") in
  Forall (fun it => SortName it <> "") items ->
  (forall f, In f (Split (Get queryparams "sortBy") ",") ->
             known_sort_key f = true) ->
  exists sorted,
    JF.applyItemSorting items queryparams = Return sorted []
    /\ sorted ≡ₚ items
    /\ StronglySorted (fun a b => lt b a = false) sorted
    /\ forall (Q : JFItem -> Prop) (HQ : forall a, Decision (Q a)),
         (forall a b, Q a -> Q b -> lt a b = false) ->
         filter Q sorted = filter Q items.
Proof.
  intros lt Hnames Hknown.
  destruct (fields_lt_order
              (String.eqb (Get queryparams "sortOrder") "Descending")
              (Split (Get queryparams "sortBy") ",")) as [Hasym Htrans].
  exists (stable_sort lt items). split; [|split; [|split]].
  - unfold JF.applyItemSorting.
    destruct (String.eqb_spec (Get queryparams "sortBy") "") as [He|_].
    { rewrite He in Hknown. specialize (Hknown "" (or_introl eq_refl)).
      discriminate. }
    apply (SliceStable_pure_on (fun it => SortName it <> "") lt); [|exact Hnames].
    intros i j data x y HP Hx Hy.
    now apply sorting_less_pure_on.
  - apply stable_sort_perm.
  - apply stable_sort_sorted; assumption.
  - intros Q HQ Hno. now apply stable_sort_keeps_order.
Qed.

Section SortedShelf.
Import Sample.

(** Two years, newest first, equal years by name: the 1999 items come last
    and in name order, whatever order they arrive in. *)
Lemma sorting_is_stable_lexicographic_witness :
  let items := [set_ProductionYear 1999 (set_SortName "b" A);
                set_ProductionYear 2001 (set_SortName "c" A);
                set_ProductionYear 1999 (set_SortName "a" B)] in
  let q : gmap string (list string) :=
    {[ "sortBy" := ["ProductionYear,SortName"];
       "sortOrder" := ["Descending"] ]} in
  exists sorted,
    JF.applyItemSorting items q = Return sorted []
    /\ sorted ≡ₚ items
    /\ StronglySorted
         (fun a b => fields_lt true ["ProductionYear"; "SortName"] b a = false)
         sorted
    /\ forall (Q : JFItem -> Prop) (HQ : forall a, Decision (Q a)),
         (forall a b, Q a -> Q b ->
                      fields_lt true ["ProductionYear"; "SortName"] a b = false) ->
         filter Q sorted = filter Q items.
Proof.
  intros items q.
  apply (sorting_is_stable_lexicographic items q).
  - subst items. repeat constructor; simpl; discriminate.
  - intros f Hf. vm_compute in Hf.
    destruct Hf as [<-|[<-|[]]]; reflexivity.
Defined.

End SortedShelf.

(** ** The season and episode listings and the video stream *)

Lemma bind_Return_log {A B : Type} (a : A) (l : list string) (f : A -> Go B) :
  (Return a l ≫= f)
  = match f a with
    | Return b l' => Return b (l ++ l')
    | Panic l' => Panic (l ++ l')
    end.
Proof. reflexivity. Qed.

Section LegacyListing.
Context `{Externals}.
Import Legacy LegacyHandlers.
Variable Collections : list collection.Collection.

Lemma in_all_episodes (c : collection.Collection) (i : collection.Item)
    (s : collection.Season) (e : collection.Episode) :
  In c Collections -> In i (collection.c_Items c) ->
  In s (collection.i_Seasons i) -> In e (collection.s_Episodes s) ->
  In e (all_episodes Collections).
Proof.
  intros Hc Hi Hs He. unfold all_episodes.
  apply in_flat_map. exists c. split; [exact Hc|].
  apply in_flat_map. exists i. split; [exact Hi|].
  apply in_flat_map. exists s. split; [exact Hs | exact He].
Qed.

(** An episode of the catalog is found under its prefixed id, as an episode
    of the catalog with that id. *)
Lemma getEpisodeByID_finds (e : collection.Episode) :
  In e (all_episodes Collections) ->
  exists c i s e',
    getEpisodeByID Collections (itemprefix_episode +:+ collection.e_Id e)
    = Some (c, i, s, e')
    /\ In e' (all_episodes Collections)
    /\ collection.e_Id e' = collection.e_Id e.
Proof.
  intros He. unfold getEpisodeByID. rewrite TrimPrefix_append.
  destruct (find_map _ Collections) as [[[[c i] s] e']|] eqn:Hfind.
  - exists c, i, s, e'. split; [reflexivity|].
    apply find_map_Some in Hfind as (c' & Hc & Hfind).
    apply find_map_Some in Hfind as (i' & Hi & Hfind).
    apply find_map_Some in Hfind as (s' & Hs & Hfind).
    apply find_map_Some in Hfind as (e'' & He'' & Hfind).
    destruct (String.eqb_spec (collection.e_Id e'') (collection.e_Id e));
      [|discriminate].
    injection Hfind as <- <- <- <-.
    split; [now apply (in_all_episodes c' i' s') | assumption].
  - exfalso. unfold all_episodes in He.
    apply in_flat_map in He as (c & Hc & He).
    apply in_flat_map in He as (i & Hi & He).
    apply in_flat_map in He as (s & Hs & He).
    pose proof (find_map_None _ _ Hfind c Hc) as Hfind1.
    pose proof (find_map_None _ _ Hfind1 i Hi) as Hfind2.
    pose proof (find_map_None _ _ Hfind2 s Hs) as Hfind3.
    pose proof (find_map_None _ _ Hfind3 e He) as Hfind4.
    simpl in Hfind4. now rewrite String.eqb_refl in Hfind4.
Qed.

(** A found episode whose media source can be synthesized is built, under
    the id asked for. *)
Lemma buildJFItemEpisode_found (episodeid : string)
    (c : collection.Collection) (show : collection.Item)
    (s : collection.Season) (episode : collection.Episode) :
  getEpisodeByID Collections episodeid = Some (c, show, s, episode) ->
  streams_sliceable episode = true ->
  exists item log,
    buildJFItemEpisode Collections episodeid = Return (Ok item) log
    /\ ID item = episodeid.
Proof.
  intros Hfound Hlang. unfold buildJFItemEpisode. rewrite Hfound. cbv zeta.
  unfold streams_sliceable in Hlang.
  set (en := lazyLoadNFO (collection.e_Nfo episode) (collection.e_NfoPath episode))
    in *.
  destruct (buildMediaSource_returns (collection.e_Video episode) en)
    as (source & log & Hsrc).
  { intros details Hd. rewrite Hd in Hlang. now apply Nat.leb_le. }
  rewrite Hsrc.
  destruct en as [en|];
    destruct (lazyLoadNFO (collection.i_Nfo show) (collection.i_NfoPath show))
      as [sn|];
    rewrite ?enrichResponseWithNFO_fields;
    eexists _, _; (split; [reflexivity|]); reflexivity.
Qed.

Hypothesis sliceable :
  Forall (fun e => streams_sliceable e = true) (all_episodes Collections).

Lemma episodes_loop_lists (es : list collection.Episode) (acc : list JFItem) :
  (forall e, In e es -> In e (all_episodes Collections)) ->
  exists items log,
    episodes_loop Collections es acc = Return (acc ++ items) log
    /\ List.map ID items
       = List.map (fun e => itemprefix_episode +:+ collection.e_Id e) es.
Proof.
  revert acc. induction es as [|e es IH]; intros acc Hes.
  - exists [], []. simpl. now rewrite app_nil_r.
  - destruct (getEpisodeByID_finds e (Hes e (or_introl eq_refl)))
      as (c & i & s & e' & Hfound & He' & _).
    destruct (buildJFItemEpisode_found _ c i s e' Hfound) as (item & log & Hb & Hid).
    { exact (proj1 (List.Forall_forall _ _) sliceable e' He'). }
    destruct (IH (acc ++ [item]) (fun x Hx => Hes x (or_intror Hx)))
      as (items & log' & Hrest & Hids).
    exists (item :: items), (log ++ log'). split.
    + cbn [episodes_loop]. rewrite Hb, bind_Return_log, Hrest.
      now rewrite <- app_assoc.
    + simpl. now rewrite Hid, Hids.
Qed.

Lemma seasons_loop_lists (RequestedSeasonId : string)
    (ss : list collection.Season) (acc : list JFItem) :
  (forall s e, In s ss -> In e (collection.s_Episodes s) ->
               In e (all_episodes Collections)) ->
  exists items log,
    seasons_loop Collections RequestedSeasonId ss acc
    = Return (acc ++ items) log
    /\ List.map ID items
       = List.map (fun e => itemprefix_episode +:+ collection.e_Id e)
           (selected_episodes itemprefix_season RequestedSeasonId ss).
Proof.
  revert acc. induction ss as [|s ss IH]; intros acc Hss.
  - exists [], []. simpl. now rewrite app_nil_r.
  - cbn [seasons_loop selected_episodes flat_map].
    destruct (negb (String.eqb RequestedSeasonId "")
              && negb (String.eqb (itemprefix_season +:+ collection.s_Id s)
                         RequestedSeasonId)).
    + apply IH. intros s' e Hs'. apply Hss. now right.
    + destruct (episodes_loop_lists (collection.s_Episodes s) acc)
        as (items1 & log1 & H1 & Hids1).
      { intros e He. apply (Hss s e); [now left | exact He]. }
      destruct (IH (acc ++ items1)) as (items2 & log2 & H2 & Hids2).
      { intros s' e Hs'. apply Hss. now right. }
      exists (items1 ++ items2), (log1 ++ log2). split.
      * rewrite H1, bind_Return_log, H2. now rewrite <- app_assoc.
      * rewrite !List.map_app. now rewrite Hids1, Hids2.
Qed.

End LegacyListing.

(** X23: the episode listing of [jellyfin.go] never skips an episode of a
    show of the catalog: when the show is found, belongs to the catalog, and
    the media source of every episode of the catalog can be synthesized
    (no audio language shorter than three bytes), the response lists one
    record per episode of the selected seasons, in catalog order, each under
    the id [episode_] followed by the episode's id, and TotalRecordCount is
    their number. *)
Theorem legacy_episode_listing_complete `{Externals}
    (Collections : list collection.Collection)
    (getItemByID : string -> option (collection.Collection * collection.Item))
    (r : Request) (c0 c : collection.Collection) (i : collection.Item) :
  getItemByID (Var r "show") = Some (c0, i) ->
  In c Collections -> In i (collection.c_Items c) ->
  Forall (fun e => streams_sliceable e = true) (all_episodes Collections) ->
  let selected :=
    selected_episodes Legacy.itemprefix_season (Get (Query r) "SeasonId")
      (collection.i_Seasons i) in
  exists items log,
    LegacyHandlers.showsEpisodesHandler Collections getItemByID r
    = Return (serveJSON
                (JUserItems {| Items := items;
                               TotalRecordCount := Z.of_nat (length selected);
                               StartIndex := 0 |}) ∅) log
    /\ List.map ID items
       = List.map (fun e => Legacy.itemprefix_episode +:+ collection.e_Id e)
           selected.
Proof.
  intros Hshow Hc Hi Hok selected.
  destruct (seasons_loop_lists Collections Hok (Get (Query r) "SeasonId")
              (collection.i_Seasons i) [])
    as (items & log & Hloop & Hids).
  { intros s e Hs He. now apply (in_all_episodes Collections c i s). }
  exists items, log. split; [|exact Hids].
  unfold LegacyHandlers.showsEpisodesHandler. rewrite Hshow.
  rewrite Hloop, bind_Return_log. simpl. rewrite app_nil_r.
  do 4 f_equal.
  rewrite <- (length_map ID items), Hids. fold selected.
  now rewrite length_map.
Qed.


Section LegacyListingExamples.
Import Sample.

Lemma legacy_episode_listing_complete_witness :
  exists items log,
    LegacyHandlers.showsEpisodesHandler catalog (@GetItemByID receiver)
      (request [("show", "show1")] [("SeasonId", "season_s1")])
    = Return (serveJSON
                (JUserItems {| Items := items; TotalRecordCount := 1;
                               StartIndex := 0 |}) ∅) log
    /\ List.map ID items = ["episode_e1"].
Proof.
  apply (@legacy_episode_listing_complete externals catalog
           (@GetItemByID receiver)
           (request [("show", "show1")] [("SeasonId", "season_s1")])
           shows shows show).
  - reflexivity.
  - simpl. auto.
  - simpl. auto.
  - repeat constructor.
Defined.


End LegacyListingExamples.

Section NewListing.
Context `{Externals} `{Jellyfin}.
Import JF JFHandlers.

(** What the loops of the listings make of one entry: a record to list or a
    line to log. *)
Lemma episodes_loop_split (userID : string) (es : list collection.Episode)
    (acc : list JFItem) :
  episodes_loop userID es acc
  = Return
      (acc ++ flat_map
                (fun e =>
                   match makeJFItemEpisode userID
                           (itemprefix_episode +:+ collection.e_Id e) with
                   | Ok it => [it]
                   | Error _ => []
                   end) es)
      (flat_map
         (fun e =>
            match makeJFItemEpisode userID
                    (itemprefix_episode +:+ collection.e_Id e) with
            | Ok _ => []
            | Error err => ["buildJFItemEpisode returned error " +:+ err]
            end) es).
Proof.
  revert acc. induction es as [|e es IH]; intros acc; cbn [episodes_loop flat_map].
  - now rewrite app_nil_r.
  - destruct (makeJFItemEpisode userID _) as [it|err].
    + rewrite IH. now rewrite <- app_assoc.
    + unfold log_Print. rewrite bind_Return_log, IH. reflexivity.
Qed.

Lemma episode_seasons_loop_split (userID RequestedSeasonId : string)
    (ss : list collection.Season) (acc : list JFItem) :
  episode_seasons_loop userID RequestedSeasonId ss acc
  = Return
      (acc ++ flat_map
                (fun e =>
                   match makeJFItemEpisode userID
                           (itemprefix_episode +:+ collection.e_Id e) with
                   | Ok it => [it]
                   | Error _ => []
                   end)
                (selected_episodes itemprefix_season RequestedSeasonId ss))
      (flat_map
         (fun e =>
            match makeJFItemEpisode userID
                    (itemprefix_episode +:+ collection.e_Id e) with
            | Ok _ => []
            | Error err => ["buildJFItemEpisode returned error " +:+ err]
            end)
         (selected_episodes itemprefix_season RequestedSeasonId ss)).
Proof.
  revert acc. induction ss as [|s ss IH]; intros acc;
    cbn [episode_seasons_loop selected_episodes flat_map].
  - now rewrite app_nil_r.
  - fold (selected_episodes itemprefix_season RequestedSeasonId ss).
    destruct (negb (String.eqb RequestedSeasonId "")
              && negb (String.eqb (itemprefix_season +:+ collection.s_Id s)
                         RequestedSeasonId)).
    + apply IH.
    + rewrite episodes_loop_split, bind_Return_log, IH.
      rewrite !flat_map_app. now rewrite <- app_assoc.
Qed.

Lemma split_lengths {A B C : Type} (f : A -> Res B) (line : string -> C)
    (l : list A) :
  (length (flat_map (fun x => match f x with Ok b => [b] | Error _ => [] end) l)
   + length (flat_map (fun x => match f x with
                                | Ok _ => []
                                | Error err => [line err]
                                end) l)
   = length l)%nat.
Proof.
  induction l as [|x l IH]; simpl; [reflexivity|].
  destruct (f x); simpl; lia.
Qed.

End NewListing.

Section NewListingTheorems.
Context `{Externals} `{Jellyfin}.
Import JF JFHandlers.

(** X25: the episode listing of [item.go] accounts for every episode of the
    selected seasons of a show that is found: the builder's record is listed
    or its error is logged, in catalog order, and nothing else is listed or
    logged; TotalRecordCount is the number of listed records, so listed and
    logged together are as many as the selected episodes. *)
Theorem episode_listing_lists_or_logs (r : Request) (d : AccessTokenDetails)
    (c : collection.Collection) (i : collection.Item) :
  getAccessTokenDetails r = Some d ->
  GetItemByID (Var r "show") = Some (c, i) ->
  let selected :=
    selected_episodes itemprefix_season (Get (Query r) "seasonId")
      (collection.i_Seasons i) in
  let built e :=
    makeJFItemEpisode (UserID d) (itemprefix_episode +:+ collection.e_Id e) in
  exists items log,
    showsEpisodesHandler r
    = Return (serveJSON
                (JUserItems {| Items := items;
                               TotalRecordCount := Z.of_nat (length items);
                               StartIndex := 0 |}) ∅) log
    /\ items = flat_map (fun e => match built e with
                                  | Ok it => [it]
                                  | Error _ => []
                                  end) selected
    /\ log = flat_map (fun e => match built e with
                                | Ok _ => []
                                | Error err =>
                                    ["buildJFItemEpisode returned error " +:+ err]
                                end) selected
    /\ (length items + length log = length selected)%nat.
Proof.
  intros Hauth Hshow selected built.
  eexists _, _. split; [|split; [reflexivity | split; [reflexivity|]]].
  - unfold showsEpisodesHandler. rewrite Hauth, Hshow.
    rewrite episode_seasons_loop_split, bind_Return_log. simpl.
    rewrite app_nil_r. reflexivity.
  - apply (split_lengths built).
Qed.

(** X26: the season listing of [item.go] likewise accounts for every season
    of a show that is found: its record is listed or its error is logged, in
    catalog order. *)
Theorem season_listing_lists_or_logs (r : Request) (d : AccessTokenDetails)
    (c : collection.Collection) (i : collection.Item) :
  getAccessTokenDetails r = Some d ->
  GetItemByID (Var r "show") = Some (c, i) ->
  let built s := makeJFItemSeason (UserID d) (collection.s_Id s) in
  exists items log,
    showsSeasonsHandler r
    = Return (serveJSON
                (JUserItems {| Items := items;
                               TotalRecordCount := Z.of_nat (length items);
                               StartIndex := 0 |}) ∅) log
    /\ items = flat_map (fun s => match built s with
                                  | Ok it => [it]
                                  | Error _ => []
                                  end) (collection.i_Seasons i)
    /\ log = flat_map (fun s => match built s with
                                | Ok _ => []
                                | Error err =>
                                    ["buildJFItemSeason returned error " +:+ err]
                                end) (collection.i_Seasons i)
    /\ (length items + length log = length (collection.i_Seasons i))%nat.
Proof.
  intros Hauth Hshow built.
  assert (Hloop : forall ss acc,
             seasons_loop (UserID d) ss acc
             = Return
                 (acc ++ flat_map (fun s => match built s with
                                            | Ok it => [it]
                                            | Error _ => []
                                            end) ss)
                 (flat_map (fun s => match built s with
                                     | Ok _ => []
                                     | Error err =>
                                         ["buildJFItemSeason returned error "
                                          +:+ err]
                                     end) ss)).
  { induction ss as [|s ss IH]; intros acc; cbn [seasons_loop flat_map].
    - now rewrite app_nil_r.
    - subst built. cbv beta.
      destruct (makeJFItemSeason (UserID d) (collection.s_Id s)) as [it|err].
      + rewrite IH. now rewrite <- app_assoc.
      + unfold log_Print. rewrite bind_Return_log, IH. reflexivity. }
  eexists _, _. split; [|split; [reflexivity | split; [reflexivity|]]].
  - unfold showsSeasonsHandler. rewrite Hauth, Hshow.
    rewrite Hloop, bind_Return_log. simpl. rewrite app_nil_r. reflexivity.
  - apply (split_lengths built).
Qed.

(** X27: a season filter that names no season of the show, for instance a
    season id without its prefix, is no error: the episode listing of
    [item.go] answers with an empty list and a count of zero, and builds and
    logs nothing. *)
Theorem unmatched_season_filter_lists_nothing (r : Request)
    (d : AccessTokenDetails) (c : collection.Collection) (i : collection.Item) :
  getAccessTokenDetails r = Some d ->
  GetItemByID (Var r "show") = Some (c, i) ->
  Get (Query r) "seasonId" <> "" ->
  (forall s, In s (collection.i_Seasons i) ->
             itemprefix_season +:+ collection.s_Id s <> Get (Query r) "seasonId") ->
  showsEpisodesHandler r
  = Return (serveJSON
              (JUserItems {| Items := []; TotalRecordCount := 0;
                             StartIndex := 0 |}) ∅) [].
Proof.
  intros Hauth Hshow Hasked Hnone.
  unfold showsEpisodesHandler. rewrite Hauth, Hshow.
  rewrite episode_seasons_loop_split, bind_Return_log.
  assert (Hsel : selected_episodes itemprefix_season (Get (Query r) "seasonId")
                   (collection.i_Seasons i) = []).
  { unfold selected_episodes.
    rewrite (proj2 (String.eqb_neq _ _) Hasked).
    induction (collection.i_Seasons i) as [|s ss IH]; cbn [flat_map];
      [reflexivity|].
    pose proof (Hnone s (or_introl eq_refl)) as Hs.
    apply String.eqb_neq in Hs. rewrite Hs. cbn [negb andb app].
    apply IH. intros s' Hs'. apply Hnone. now right. }
  rewrite Hsel. reflexivity.
Qed.

(** X28: [videoStreamHandler] of [item.go] resolves every encoded episode
    id, also one whose internal id holds the separator: the lookup is made
    with exactly the internal id, a miss is answered not-found, a hit serves
    the episode's video from the directory of its show. *)
Theorem stream_resolves_encoded_episode (r : Request) (id : string) :
  Var r "item" = encode PEpisode id ->
  videoStreamHandler r
  = match GetEpisodeByID id with
    | None => HttpError "Could not find episode" StatusNotFound
    | Some (c, item, _, episode) =>
        serveFile ∅
          (collection.c_Directory c +:+ "/" +:+ collection.i_Name item
           +:+ "/" +:+ collection.e_Video episode)
    end.
Proof.
  intros Hitem. unfold videoStreamHandler. rewrite Hitem.
  assert (Htrim : trimPrefix (encode PEpisode id) = id).
  { rewrite encode_token. now apply trimPrefix_one_separator. }
  rewrite Htrim. unfold encode, prefix_string.
  now rewrite HasPrefix_append.
Qed.

End NewListingTheorems.

Section NewListingExamples.
Import Sample.

Lemma episode_listing_lists_or_logs_witness :
  exists items log,
    JFHandlers.showsEpisodesHandler
      (request [("show", "show1")] [("seasonId", "season_s1")])
    = Return (serveJSON
                (JUserItems {| Items := items;
                               TotalRecordCount := Z.of_nat (length items);
                               StartIndex := 0 |}) ∅) log
    /\ items = []
    /\ log = ["buildJFItemEpisode returned error could not find episode"]
    /\ (length items + length log = 1)%nat.
Proof.
  apply (@episode_listing_lists_or_logs receiver
           (request [("show", "show1")] [("seasonId", "season_s1")])
           (mkAccessTokenDetails "user") shows show); reflexivity.
Defined.

Lemma season_listing_lists_or_logs_witness :
  exists items log,
    JFHandlers.showsSeasonsHandler (request [("show", "show1")] [])
    = Return (serveJSON
                (JUserItems {| Items := items;
                               TotalRecordCount := Z.of_nat (length items);
                               StartIndex := 0 |}) ∅) log
    /\ items = []
    /\ log = ["buildJFItemSeason returned error could not find season"]
    /\ (length items + length log = 1)%nat.
Proof.
  apply (@season_listing_lists_or_logs receiver
           (request [("show", "show1")] [])
           (mkAccessTokenDetails "user") shows show); reflexivity.
Defined.

Lemma unmatched_season_filter_lists_nothing_witness :
  JFHandlers.showsEpisodesHandler
    (request [("show", "show1")] [("seasonId", "s1")])
  = Return (serveJSON
              (JUserItems {| Items := []; TotalRecordCount := 0;
                             StartIndex := 0 |}) ∅) [].
Proof.
  apply (@unmatched_season_filter_lists_nothing receiver
           (request [("show", "show1")] [("seasonId", "s1")])
           (mkAccessTokenDetails "user") shows show).
  - reflexivity.
  - reflexivity.
  - discriminate.
  - intros s [<-|[]]. discriminate.
Defined.

Lemma stream_resolves_encoded_episode_witness :
  JFHandlers.videoStreamHandler (request [("item", "episode_e1")] [])
  = serveFile ∅ "/media/shows/Show/s01e01.mp4".
Proof.
  apply (@stream_resolves_encoded_episode externals receiver
           (request [("item", "episode_e1")] []) "e1").
  reflexivity.
Defined.

End NewListingExamples.

(** ** The lazily loaded directory entries *)

Section DirEntries.
Import collection_dir.
Variable path_Join : string -> string -> string.

Lemma Readdir_entry (d : Dir) (names : list string) (fi : FileInfo) :
  In fi (fst (Readdir d (names, None))) ->
  exists n, In n names /\ fi = entry d n.
Proof.
  simpl. intros Hin. apply in_map_iff in Hin as (n & <- & Hn). now exists n.
Qed.

Lemma stats_done (fss : list FileSystem) (fi : FileInfo) :
  didstat fi = true -> stats path_Join fss fi = Return fi [].
Proof.
  intros Hdone. induction fss as [|fs fss IH]; simpl; [reflexivity|].
  unfold stat. rewrite Hdone. unfold mbind, mret, Go_bind, Go_ret.
  fold (stats path_Join fss fi). now rewrite IH.
Qed.

(** X29: an entry returned by [Readdir] is loaded by the first accessor
    call for which both [os.Stat] and [times.Stat] of its path succeed: the
    record takes size, mode and directory flag from [os.Stat], both times
    from [times.Stat] (the create time is its change time), and from then on
    no accessor looks at the file system again, whatever becomes of the
    file. *)
Theorem complete_stat_is_cached (d : Dir) (names : list string)
    (fi : FileInfo) (fs : FileSystem) (s : OsFileInfo) (t : Timespec) :
  In fi (fst (Readdir d (names, None))) ->
  os_Stat fs (path_Join (d_name d) (name fi)) = Some s ->
  times_Stat fs (path_Join (d_name d) (name fi)) = Some t ->
  exists fi',
    stat path_Join fs fi = Return fi' []
    /\ In (name fi') names
    /\ size fi' = st_Size s /\ mode fi' = st_Mode s /\ isdir fi' = st_IsDir s
    /\ modtime fi' = ts_ModTime t /\ createtime fi' = ts_ChangeTime t
    /\ (forall fss, stats path_Join fss fi' = Return fi' [])
    /\ (forall fs', Size path_Join fs' fi' = Return (st_Size s, fi') [])
    /\ (forall fs', Modtime path_Join fs' fi' = Return (ts_ModTime t, fi') []).
Proof.
  intros Hin Hs Ht.
  destruct (Readdir_entry d names fi Hin) as (n & Hn & ->).
  simpl in Hs, Ht. unfold stat at 1. simpl. rewrite Hs, Ht.
  eexists. split; [reflexivity|]. simpl.
  repeat match goal with |- _ /\ _ => split end; try reflexivity; try assumption.
  intros fss. now apply stats_done.
Qed.

(** X30: a failed load is silent and is not remembered.  For an entry
    returned by [Readdir], when [os.Stat] fails the record is left as it was
    and the accessors answer zero values; when only [times.Stat] fails the
    record has the size and modification time of [os.Stat] but no create
    time; in both cases no error is reported and the next accessor call
    loads the file again, answering from the file system of that moment. *)
Theorem failed_stat_is_retried (d : Dir) (names : list string)
    (fi : FileInfo) (fs : FileSystem) :
  In fi (fst (Readdir d (names, None))) ->
  os_Stat fs (path_Join (d_name d) (name fi)) = None
  \/ times_Stat fs (path_Join (d_name d) (name fi)) = None ->
  exists fi',
    stat path_Join fs fi = Return fi' []
    /\ didstat fi' = false
    /\ createtime fi' = zero_Time
    /\ (os_Stat fs (path_Join (d_name d) (name fi)) = None ->
        fi' = fi /\ Size path_Join fs fi = Return (0, fi) [])
    /\ (forall s, os_Stat fs (path_Join (d_name d) (name fi)) = Some s ->
                  size fi' = st_Size s /\ modtime fi' = st_ModTime s)
    /\ (forall fs' s' t',
          os_Stat fs' (path_Join (d_name d) (name fi)) = Some s' ->
          times_Stat fs' (path_Join (d_name d) (name fi)) = Some t' ->
          exists fi'',
            Size path_Join fs' fi' = Return (st_Size s', fi'') []
            /\ didstat fi'' = true
            /\ createtime fi'' = ts_ChangeTime t').
Proof.
  intros Hin Hfail.
  destruct (Readdir_entry d names fi Hin) as (n & Hn & ->).
  simpl in *. unfold Size, stat. simpl.
  destruct (os_Stat fs (path_Join (d_name d) n)) as [s|] eqn:Hs.
  - destruct Hfail as [|Ht]; [discriminate|]. rewrite Ht.
    eexists. split; [reflexivity|]. simpl.
    repeat match goal with |- _ /\ _ => split end; try reflexivity;
      try discriminate.
    + intros s0 [= <-]. now split.
    + intros fs' s' t' Hs' Ht'. rewrite Hs', Ht'.
      eexists. split; [reflexivity|]. now split.
  - eexists. split; [reflexivity|]. simpl.
    repeat match goal with |- _ /\ _ => split end; try reflexivity;
      try discriminate.
    + intros _. now split.
    + intros fs' s' t' Hs' Ht'. rewrite Hs', Ht'.
      eexists. split; [reflexivity|]. now split.
Qed.

End DirEntries.

Section DirExamples.
Import collection_dir DirSamples.

Lemma complete_stat_is_cached_witness :
  exists fi',
    stat join whole (entry media "a.mp4") = Return fi' []
    /\ In (name fi') ["a.mp4"; "b.mp4"]
    /\ size fi' = 42 /\ mode fi' = 420 /\ isdir fi' = false
    /\ modtime fi' = 9 /\ createtime fi' = 5
    /\ (forall fss, stats join fss fi' = Return fi' [])
    /\ (forall fs', Size join fs' fi' = Return (42, fi') [])
    /\ (forall fs', Modtime join fs' fi' = Return (9, fi') []).
Proof.
  apply (complete_stat_is_cached join media ["a.mp4"; "b.mp4"]
           (entry media "a.mp4") whole (mkOsFileInfo 42 420 7 false)
           (mkTimespec 5 9)).
  - simpl. auto.
  - reflexivity.
  - reflexivity.
Defined.

Lemma failed_stat_is_retried_witness :
  exists fi',
    stat join half (entry media "a.mp4") = Return fi' []
    /\ didstat fi' = false
    /\ createtime fi' = zero_Time
    /\ size fi' = 41 /\ modtime fi' = 6
    /\ exists fi'',
         Size join whole fi' = Return (42, fi'') []
         /\ didstat fi'' = true
         /\ createtime fi'' = 5.
Proof.
  destruct (failed_stat_is_retried join media ["a.mp4"; "b.mp4"]
              (entry media "a.mp4") half)
    as (fi' & Hstat & Hdone & Hcreate & _ & Hos & Hretry).
  - simpl. auto.
  - right. reflexivity.
  - exists fi'. split; [exact Hstat|]. split; [exact Hdone|].
    split; [exact Hcreate|].
    destruct (Hos (mkOsFileInfo 41 420 6 false) eq_refl) as [Hsize Hmod].
    split; [exact Hsize|]. split; [exact Hmod|].
    exact (Hretry whole (mkOsFileInfo 42 420 7 false) (mkTimespec 5 9)
             eq_refl eq_refl).
Defined.

End DirExamples.
